(** * Healthcare incremental load: a shallow embedding of
      [healthcare-data-analysis.py] and the properties of its steps.

    The script is a linear batch job written against a dataframe engine and a
    document store.  A dataframe is modelled as a schema and a list of rows
    of nullable cells, the store as named collections of documents, and each
    function of the script as the function on these values that its chain of
    dataframe calls denotes; the run itself is a computation that returns or
    raises and leaves a world (configuration, files, store) either way.
    Conversions that belong to the engine and are not simple (text to
    integer, text to date, date to text) are fields of an [Engine] record
    over which every general theorem is quantified.

    The definitions come first: the engine's operators, the cleaning step,
    the five transformations, the dates of the cursor, the run.  The
    theorems follow: the cleaning step (C2, C3, C4, C9, C10), the gender
    ratio (C7), the calendar and the run (C5, C6, C8), and the statements
    on sample inputs (C1 and the examples). *)

From Stdlib Require Import ZArith List String Ascii Bool Lia QArith.
From Stdlib Require Import DecimalString Sorted Permutation.
Import ListNotations.
Local Open Scope string_scope.
Local Open Scope Z_scope.
Local Open Scope list_scope.

(* ------------------------------------------------------------------------- *)
(** ** Values, cells and dataframes *)
(* ------------------------------------------------------------------------- *)

(** Column types that the CSV reader's schema inference yields for the
    columns the script touches. *)
Inductive DataType := IntegerType | StringType | DateType.

(** A non-null value; a date is its number of days since 1970-01-01. *)
Inductive value :=
| VInt (n : Z)
| VStr (s : string)
| VDate (d : Z).

(** [None] is SQL null. *)
Definition cell := option value.

Record StructField := { name : string; dataType : DataType }.

Record DataFrame := { schema : list StructField; rows : list (list cell) }.

(** [df.columns] *)
Definition columns (df : DataFrame) : list string := map name (schema df).

Definition DataType_eq_dec (a b : DataType) : {a = b} + {a <> b}.
Proof. decide equality. Defined.

Definition value_eq_dec (a b : value) : {a = b} + {a <> b}.
Proof. decide equality; (apply Z.eq_dec || apply string_dec). Defined.

Definition cell_eq_dec (a b : cell) : {a = b} + {a <> b}.
Proof. decide equality; apply value_eq_dec. Defined.

(** Conversions done by the engine whose exact behaviour the script does not
    fix: [CAST(s AS INT)], [CAST(d AS STRING)] and [CAST(s AS DATE)]. *)
Record Engine := {
  cast_string_int : string -> option Z;
  cast_date_string : Z -> string;
  cast_string_date : string -> option Z
}.

(** Exceptions the script can meet. *)
Inductive exn :=
| ValueError_mandatory (c : string)    (* line 59 *)
| AnalysisException (what : string)   (* unresolved or ambiguous column, missing path *)
| FillNullValue                        (* fillna with a None replacement *)
| TypeError_NoneType                   (* None[0] *)
| KeyError (k : string)                (* config section or option absent *)
| ValueError_strptime                  (* the cursor is not a date *)
| OverflowError                        (* date value out of range *)
| MongoError (collection : string).    (* a write to the store failed *)

(** The error monad of the pure steps. *)
Definition res (A : Type) : Type := (exn + A)%type.

Definition bindr {A B} (m : res A) (k : A -> res B) : res B :=
  match m with inl e => inl e | inr a => k a end.

Notation "'do' x <- m ; k" := (bindr m (fun x => k))
  (at level 10, x name, m at level 100, k at level 200).

(* ------------------------------------------------------------------------- *)
(** ** Column resolution and casts *)
(* ------------------------------------------------------------------------- *)

Definition lower_ascii (c : ascii) : ascii :=
  let n := nat_of_ascii c in
  if (65 <=? n)%nat && (n <=? 90)%nat then ascii_of_nat (n + 32) else c.

Fixpoint lower (s : string) : string :=
  match s with
  | EmptyString => EmptyString
  | String c s' => String (lower_ascii c) (lower s')
  end.

(** Positions of the columns whose name is [n] up to case: the engine
    resolves names case-insensitively. *)
Fixpoint positions (n : string) (cols : list string) (i : nat) : list nat :=
  match cols with
  | [] => []
  | c :: cols' =>
      if String.eqb (lower c) (lower n) then i :: positions n cols' (S i)
      else positions n cols' (S i)
  end.

Definition resolve (n : string) (cols : list string) : res nat :=
  match positions n cols 0 with
  | [i] => inr i
  | _ => inl (AnalysisException n)
  end.

Definition string_of_Z (n : Z) : string := NilZero.string_of_int (Z.to_int n).

(* ------------------------------------------------------------------------- *)
(** ** Relational operators of the engine *)
(* ------------------------------------------------------------------------- *)

Section Relational.

Context {K : Type} (eqb : K -> K -> bool).

(** One more row for key [k] in a table of running counts. *)
Fixpoint bump (k : K) (acc : list (K * Z)) : list (K * Z) :=
  match acc with
  | [] => [(k, 1)]
  | (k', c) :: acc' =>
      if eqb k' k then (k', c + 1) :: acc' else (k', c) :: bump k acc'
  end.

(** [groupBy(keys).count()]: one row per distinct key with the number of
    rows that carry it.  The engine leaves the order of the groups open;
    here the keys come in order of first appearance, and the statements
    about a table of counts do not rest on that order. *)
Definition group_count (l : list K) : list (K * Z) :=
  fold_left (fun acc k => bump k acc) l [].

(** Number of rows with key [k]. *)
Definition count_key (k : K) (l : list K) : Z :=
  Z.of_nat (List.length (filter (eqb k) l)).

(** What a table of counts must hold for a list of keys: one row per key
    of the list, with the number of its rows. *)
Definition counts_of (l : list K) (acc : list (K * Z)) : Prop :=
  NoDup (map fst acc)
  /\ forall k c, In (k, c) acc <-> In k l /\ c = count_key k l.

End Relational.

Section Sorting.

Context {A : Type} (leb : A -> A -> bool).

Fixpoint insert_sorted (x : A) (l : list A) : list A :=
  match l with
  | [] => [x]
  | y :: l' => if leb x y then x :: l else y :: insert_sorted x l'
  end.

(** [sort]/[orderBy] as a stable sort: rows that compare equal keep their
    order.  The engine leaves the order of such rows open; the statements
    about the order of a table say how rows with different keys stand and
    nothing on rows that compare equal. *)
Definition sort_by (l : list A) : list A := fold_right insert_sorted [] l.

End Sorting.

(** [median(c)] over non-null integers: the exact percentile 0.5, the mean of
    the two middle values of the sorted column, as the engine's double.  The
    double is exact here and is kept as a rational. *)
Definition median (l : list Z) : option Q :=
  match l with
  | [] => None
  | _ :: _ =>
      let s := sort_by Z.leb l in
      let n := List.length l in
      Some (Qmake (nth ((n - 1) / 2) s 0 + nth (n / 2) s 0) 2)
  end.

(** [cast(x as int)] of a double: truncation toward zero. *)
Definition double_to_int (q : Q) : Z := Z.quot (Qnum q) (Zpos (Qden q)).

(** Order of the values of one column. *)
Definition value_leb (a b : value) : bool :=
  match a, b with
  | VInt x, VInt y => x <=? y
  | VDate x, VDate y => x <=? y
  | VStr x, VStr y => String.leb x y
  | VInt _, _ => true
  | VStr _, VInt _ => false
  | VStr _, VDate _ => true
  | VDate _, _ => false
  end.

(** Descending order of cells, nulls last. *)
Definition cell_desc_leb (a b : cell) : bool :=
  match a, b with
  | Some x, Some y => value_leb y x
  | Some _, None => true
  | None, Some _ => false
  | None, None => true
  end.

Definition coalesce {A} (a b : option A) : option A :=
  match a with Some _ => a | None => b end.

Definition is_some {A} (a : option A) : bool :=
  match a with Some _ => true | None => false end.

(* ------------------------------------------------------------------------- *)
(** ** The frame after the casts of lines 64-70 *)
(* ------------------------------------------------------------------------- *)

(** A row of the frame selected at lines 64-70, fields in the order of the
    [selectExpr]. *)
Record Row := {
  patient_id : option string;
  age : option Z;
  gender : option string;
  diagnosis_code : option string;
  diagnosis_description : option string;
  diagnosis_date : cell
}.

(** The selected frame: [diagnosis_date] keeps the type it had. *)
Record Frame := { date_type : DataType; frows : list Row }.

Definition Row_eq_dec (a b : Row) : {a = b} + {a <> b}.
Proof.
  decide equality; try apply cell_eq_dec;
    decide equality; (apply Z.eq_dec || apply string_dec).
Defined.

Definition Row_eqb (a b : Row) : bool := if Row_eq_dec a b then true else false.

Definition set_age (r : Row) (a : option Z) : Row :=
  {| patient_id := patient_id r; age := a; gender := gender r;
     diagnosis_code := diagnosis_code r;
     diagnosis_description := diagnosis_description r;
     diagnosis_date := diagnosis_date r |}.

Definition set_diagnosis_date (r : Row) (d : cell) : Row :=
  {| patient_id := patient_id r; age := age r; gender := gender r;
     diagnosis_code := diagnosis_code r;
     diagnosis_description := diagnosis_description r;
     diagnosis_date := d |}.

(** The cleaning report of lines 95-99. *)
Record Report := {
  missing_columns : list string;
  duplicate_records : Z;
  columns_with_null_count : list (string * Z)
}.

Definition mandatory_fields : list string :=
  ["patient_id"; "age"; "gender"; "diagnosis_code"; "diagnosis_description";
   "diagnosis_date"].

(** Lines 54-59: the state of [missing_col] when the loop is left, and the
    exception if it is left by [raise]. *)
Fixpoint check_mandatory (cols : list string) (fields : list string)
    (missing_col : list string) : list string * option exn :=
  match fields with
  | [] => (missing_col, None)
  | mandatory_col :: fields' =>
      if negb (existsb (String.eqb mandatory_col) cols)
      then (missing_col ++ [mandatory_col],
            Some (ValueError_mandatory mandatory_col))
      else check_mandatory cols fields' missing_col
  end.

Definition count_nulls {A} (f : Row -> option A) (rs : list Row) : Z :=
  Z.of_nat (List.length (filter (fun r => negb (is_some (f r))) rs)).

(** Line 80: the sums of the null flags per column, as the dictionary read
    back from the JSON of the single result row.  A sum over no rows is null
    and a null field is left out of the JSON text. *)
Definition null_counts (rs : list Row) : list (string * Z) :=
  match rs with
  | [] => []
  | _ :: _ =>
      [("patient_id", count_nulls patient_id rs);
       ("age", count_nulls age rs);
       ("gender", count_nulls gender rs);
       ("diagnosis_code", count_nulls diagnosis_code rs);
       ("diagnosis_description", count_nulls diagnosis_description rs);
       ("diagnosis_date", count_nulls diagnosis_date rs)]
  end.

(** The replacement of a null [age] by a double, cast to the type of the
    column, which is int. *)
Definition fill_age (q : Q) (r : Row) : Row :=
  set_age r (coalesce (age r) (Some (double_to_int q))).

(** Line 87: [fillna({'age': v})]. *)
Definition fillna_age (v : option Q) (rs : list Row) : res (list Row) :=
  match v with
  | None => inl FillNullValue
  | Some q => inr (map (fill_age q) rs)
  end.

(** The column [age] of the rows where it is not null. *)
Definition nonnull_ages (rs : list Row) : list Z :=
  flat_map (fun r => match age r with Some a => [a] | None => [] end) rs.

(** [.sort(desc('diagnosis_date')).first()] over the rows with a date. *)
Definition latest_row (rs : list Row) : option Row :=
  match sort_by (fun a b => cell_desc_leb (diagnosis_date a)
                                          (diagnosis_date b))
                (filter (fun r => is_some (diagnosis_date r)) rs) with
  | [] => None
  | first :: _ => Some first
  end.

Section Engine.

Variable E : Engine.

(** [cast(c as string)]: never null on a non-null value. *)
Definition cast_string (v : value) : string :=
  match v with
  | VStr s => s
  | VInt n => string_of_Z n
  | VDate d => cast_date_string E d
  end.

(** [cast(c as int)]; a date cast to int is null. *)
Definition cast_int (v : value) : option Z :=
  match v with
  | VInt n => Some n
  | VStr s => cast_string_int E s
  | VDate _ => None
  end.

(** A text literal cast to the type of a column. *)
Definition cast_literal (t : DataType) (s : string) : cell :=
  match t with
  | StringType => Some (VStr s)
  | IntegerType => option_map VInt (cast_string_int E s)
  | DateType => option_map VDate (cast_string_date E s)
  end.

(** A row of the input under the casts of lines 64-70, the six columns
    taken at the given positions. *)
Definition select_row (i_pid i_age i_gen i_code i_desc i_date : nat)
    (r : list cell) : Row :=
  let get (i : nat) : cell := nth i r None in
  {| patient_id := option_map cast_string (get i_pid);
     age := match get i_age with
            | Some v => cast_int v
            | None => None
            end;
     gender := option_map cast_string (get i_gen);
     diagnosis_code := option_map cast_string (get i_code);
     diagnosis_description := option_map cast_string (get i_desc);
     diagnosis_date := get i_date |}.

(** Lines 64-70: [withColumn] and [selectExpr]. *)
Definition cast_select (df : DataFrame) : res Frame :=
  do i_pid <- resolve "patient_id" (columns df);
  do i_age <- resolve "age" (columns df);
  do i_gen <- resolve "gender" (columns df);
  do i_code <- resolve "diagnosis_code" (columns df);
  do i_desc <- resolve "diagnosis_description" (columns df);
  do i_date <- resolve "diagnosis_date" (columns df);
  inr {| date_type := nth i_date (map dataType (schema df)) StringType;
         frows := map (select_row i_pid i_age i_gen i_code i_desc i_date)
                      (rows df) |}.

(** The replacement of a null [diagnosis_date] by a text literal, cast to
    the type of the column. *)
Definition fill_date (t : DataType) (s : string) (r : Row) : Row :=
  set_diagnosis_date r (coalesce (diagnosis_date r) (cast_literal t s)).

(** Line 91: [fillna({'diagnosis_date': v})] with a text replacement, cast
    to the type of the column. *)
Definition fillna_diagnosis_date (t : DataType) (v : option string)
    (rs : list Row) : res (list Row) :=
  match v with
  | None => inl FillNullValue
  | Some s =>
      inr (map (fill_date t s) rs)
  end.

(** Lines 51-102. *)
Definition data_quality_check (df : DataFrame) : res (Frame * Report) :=
  let '(missing_col, raised) :=
    check_mandatory (columns df) mandatory_fields [] in
  match raised with
  | Some e => inl e
  | None =>
      do df1 <- cast_select df;
      let duplicate_records :=
        Z.of_nat (List.length (filter (fun kc => 2 <? snd kc)
                                 (group_count Row_eqb (frows df1)))) in
      let null_count := null_counts (frows df1) in
      let df2 := filter (fun r => is_some (patient_id r)) (frows df1) in
      (* .agg(median('age')).first()[0]: the only field of the only row *)
      let age_median := median (nonnull_ages df2) in
      do df3 <- fillna_age age_median df2;
      (* .first()[0]: field 0 of the first row, and field 0 of a row of
         this frame is patient_id *)
      do latest_date <-
        match latest_row df3 with
        | None => inl TypeError_NoneType
        | Some first => inr (patient_id first)
        end;
      do df4 <- fillna_diagnosis_date (date_type df1) latest_date df3;
      inr ({| date_type := date_type df1; frows := df4 |},
           {| missing_columns := missing_col;
              duplicate_records := duplicate_records;
              columns_with_null_count := null_count |})
  end.

End Engine.

(* ------------------------------------------------------------------------- *)
(** ** Documents and the store *)
(* ------------------------------------------------------------------------- *)

(** The documents the script writes, one constructor per output. *)
Inductive document :=
| DocRaw (cols : list string) (r : list cell)
| DocReport (r : Report)
| DocGenderRatio (diagnosis_code : cell) (ratio : option Q)
| DocDisease (disease : option string) (count : Z)
| DocAgeCategory (age_group : string) (description code : option string)
    (count : Z)
| DocSenior (patient : option string) (years : option Z)
    (gender_of description : option string) (senior_citizen_flag : string)
| DocTrend (description : cell) (dayofweek : option Z) (count : Z).

Definition database_name : string := "healthcare_db".
Definition collection_name : string := "healthcare_raw_data".

(** A destination: database and collection. *)
Definition destination : Type := (string * string)%type.

Definition destination_eqb (a b : destination) : bool :=
  String.eqb (fst a) (fst b) && String.eqb (snd a) (snd b).

(** The document store: the documents of every collection, oldest first. *)
Definition Store : Type := destination -> list document.

(** [.format('mongo').mode('append').save()] *)
Definition append_to (dst : destination) (docs : list document) (st : Store)
  : Store :=
  fun k => if destination_eqb k dst then st k ++ docs else st k.

(* ------------------------------------------------------------------------- *)
(** ** The five transformations, as tables *)
(* ------------------------------------------------------------------------- *)

Definition option_string_eqb (a b : option string) : bool :=
  match a, b with
  | Some x, Some y => String.eqb x y
  | None, None => true
  | _, _ => false
  end.

(** Ascending order of nullable text, nulls first. *)
Definition option_string_leb (a b : option string) : bool :=
  match a, b with
  | None, _ => true
  | Some _, None => false
  | Some x, Some y => String.leb x y
  end.

(** Name of the pivot column of a value. *)
Definition pivot_name (g : option string) : string :=
  match g with Some s => s | None => "null" end.

(** The distinct values of the pivot column, sorted. *)
Definition pivot_values (rs : list Row) : list (option string) :=
  sort_by option_string_leb
    (map fst (group_count option_string_eqb (map gender rs))).

(** A count of the pivot table: null where the group has no such row. *)
Definition pivot_cell (rs : list Row) (c g : option string) : cell :=
  let n := Z.of_nat (List.length
             (filter (fun r => option_string_eqb (diagnosis_code r) c
                               && option_string_eqb (gender r) g) rs)) in
  if n =? 0 then None else Some (VInt n).

(** [df.groupBy('diagnosis_code').pivot('gender').count()] *)
Definition pivot_gender_count (rs : list Row) : DataFrame :=
  let vals := pivot_values rs in
  {| schema :=
       {| name := "diagnosis_code"; dataType := StringType |}
       :: map (fun g => {| name := pivot_name g; dataType := IntegerType |})
              vals;
     rows :=
       map (fun c => option_map VStr c :: map (pivot_cell rs c) vals)
           (map fst (group_count option_string_eqb
                       (map diagnosis_code rs))) |}.

(** [round(x, 2)] on a double, half up (away from zero on a tie), with the
    double kept as the rational it stands for. *)
Definition round2 (q : Q) : Q :=
  let n := Qnum q in
  let d := Zpos (Qden q) in
  Qmake (Z.sgn n * ((200 * Z.abs n + d) / (2 * d))) 100.

(** [round(col('M') / col('F'), 2)]: null when an operand is null or the
    divisor is zero. *)
Definition ratio_cell (m f : cell) : option Q :=
  match m, f with
  | Some (VInt m), Some (VInt f) =>
      match f with
      | Zpos p => Some (round2 (Qmake m p))
      | Zneg p => Some (round2 (Qmake (- m) p))
      | Z0 => None
      end
  | _, _ => None
  end.

(** Lines 123-124. *)
Definition gender_ratio_table (rs : list Row) : res (list document) :=
  let pv := pivot_gender_count rs in
  do i_code <- resolve "diagnosis_code" (columns pv);
  do i_m <- resolve "M" (columns pv);
  do i_f <- resolve "F" (columns pv);
  inr (map (fun r => DocGenderRatio (nth i_code r None)
                       (ratio_cell (nth i_m r None) (nth i_f r None)))
           (rows pv)).

(** Lines 151-152. *)
Definition most_common_table (rs : list Row) : list document :=
  map (fun kc => DocDisease (fst kc) (snd kc))
      (sort_by (fun a b : option string * Z => snd b <=? snd a)
         (group_count option_string_eqb (map diagnosis_description rs))).

(** Lines 183-188: a null age satisfies no [when] and falls to
    [otherwise]. *)
Definition age_group_of (a : option Z) : string :=
  match a with
  | None => "minors"
  | Some a =>
      if (30 <=? a) && (a <=? 40) then "30-40"
      else if (41 <=? a) && (a <=? 50) then "41-50"
      else if (51 <=? a) && (a <=? 60) then "51-60"
      else if (61 <=? a) && (a <=? 70) then "61-70"
      else if 71 <=? a then "70+"
      else "minors"
  end.

Definition age_key : Type := (string * option string * option string)%type.

Definition age_key_eqb (a b : age_key) : bool :=
  let '(g1, d1, c1) := a in
  let '(g2, d2, c2) := b in
  String.eqb g1 g2 && option_string_eqb d1 d2 && option_string_eqb c1 c2.

(** Lines 182-190. *)
Definition age_category_table (rs : list Row) : list document :=
  map (fun kc : age_key * Z =>
         let '(g, d, c) := fst kc in DocAgeCategory g d c (snd kc))
      (sort_by (fun a b : age_key * Z =>
                  let ga := fst (fst (fst a)) in
                  let gb := fst (fst (fst b)) in
                  if String.eqb ga gb then snd b <=? snd a
                  else String.leb ga gb)
         (group_count age_key_eqb
            (map (fun r => (age_group_of (age r), diagnosis_description r,
                            diagnosis_code r)) rs))).

(** Descending order of nullable integers, nulls last. *)
Definition option_Z_desc_leb (a b : option Z) : bool :=
  match a, b with
  | Some x, Some y => y <=? x
  | Some _, None => true
  | None, Some _ => false
  | None, None => true
  end.

(** Lines 219-223. *)
Definition senior_citizen_table (rs : list Row) : list document :=
  map (fun r => DocSenior (patient_id r) (age r) (gender r)
                  (diagnosis_description r)
                  (match age r with
                   | Some a => if 60 <=? a then "Y" else "N"
                   | None => "N"
                   end))
      (sort_by (fun a b => option_Z_desc_leb (age a) (age b)) rs).

(** [dayofweek] of a date: 1 is Sunday, 7 is Saturday; day 0 was a
    Thursday. *)
Definition dayofweek_of (d : Z) : Z := (d + 4) mod 7 + 1.

Definition trend_key : Type := (cell * option Z)%type.

Definition option_Z_eqb (a b : option Z) : bool :=
  match a, b with
  | Some x, Some y => x =? y
  | None, None => true
  | _, _ => false
  end.

Definition trend_key_eqb (a b : trend_key) : bool :=
  (if cell_eq_dec (fst a) (fst b) then true else false)
  && option_Z_eqb (snd a) (snd b).

(** Ascending order of nullable integers, nulls first. *)
Definition option_Z_leb (a b : option Z) : bool :=
  match a, b with
  | None, _ => true
  | Some _, None => false
  | Some x, Some y => x <=? y
  end.

Section EngineTrend.

Variable E : Engine.

(** [dayofweek('diagnosis_date')] on a raw column: text is cast to a date
    first, an integer column is a type error. *)
Definition dayofweek_cell (v : cell) : option Z :=
  match v with
  | Some (VDate d) => Some (dayofweek_of d)
  | Some (VStr s) => option_map dayofweek_of (cast_string_date E s)
  | _ => None
  end.

(** Lines 259-262, on the frame read from all the files. *)
Definition trend_table (df : DataFrame) : res (list document) :=
  do i_date <- resolve "diagnosis_date" (columns df);
  do i_desc <- resolve "diagnosis_description" (columns df);
  match nth i_date (map dataType (schema df)) StringType with
  | IntegerType => inl (AnalysisException "dayofweek")
  | _ =>
      inr (map (fun kc : trend_key * Z =>
                  DocTrend (fst (fst kc)) (snd (fst kc)) (snd kc))
             (sort_by (fun a b : trend_key * Z =>
                         if snd a =? snd b
                         then option_Z_leb (snd (fst a)) (snd (fst b))
                         else snd b <=? snd a)
                (group_count trend_key_eqb
                   (map (fun r => (nth i_desc r None,
                                   dayofweek_cell (nth i_date r None)))
                        (rows df)))))
  end.

End EngineTrend.

(* ------------------------------------------------------------------------- *)
(** ** Dates of the standard library: ordinals, parsing, printing *)
(* ------------------------------------------------------------------------- *)

Module Calendar.

Definition date : Type := (Z * Z * Z)%type.   (* year, month, day *)

Definition is_leap (y : Z) : bool :=
  (y mod 4 =? 0) && (negb (y mod 100 =? 0) || (y mod 400 =? 0)).

Definition DAYS_IN_MONTH : list Z :=
  [-1; 31; 28; 31; 30; 31; 30; 31; 31; 30; 31; 30; 31].

Definition DAYS_BEFORE_MONTH : list Z :=
  [-1; 0; 31; 59; 90; 120; 151; 181; 212; 243; 273; 304; 334].

Definition days_before_year (year : Z) : Z :=
  let y := year - 1 in y * 365 + y / 4 - y / 100 + y / 400.

Definition days_in_month (year month : Z) : Z :=
  if (month =? 2) && is_leap year then 29
  else nth (Z.to_nat month) DAYS_IN_MONTH 0.

Definition days_before_month (year month : Z) : Z :=
  nth (Z.to_nat month) DAYS_BEFORE_MONTH 0
  + (if (2 <? month) && is_leap year then 1 else 0).

(** [date.toordinal()]: 1 is 0001-01-01. *)
Definition ymd2ord (d : date) : Z :=
  let '(year, month, day) := d in
  days_before_year year + days_before_month year month + day.

Definition DI400Y : Z := 146097.
Definition DI100Y : Z := 36524.
Definition DI4Y : Z := 1461.
Definition MAXORDINAL : Z := 3652059.   (* 9999-12-31 *)

(** [date.fromordinal(n)] *)
Definition ord2ymd (n : Z) : date :=
  let n := n - 1 in
  let n400 := n / DI400Y in
  let n := n mod DI400Y in
  let year := n400 * 400 + 1 in
  let n100 := n / DI100Y in
  let n := n mod DI100Y in
  let n4 := n / DI4Y in
  let n := n mod DI4Y in
  let n1 := n / 365 in
  let n := n mod 365 in
  let year := year + n100 * 100 + n4 * 4 + n1 in
  if (n1 =? 4) || (n100 =? 4) then (year - 1, 12, 31)
  else
    let leapyear := (n1 =? 3) && (negb (n4 =? 24) || (n100 =? 3)) in
    let month := Z.shiftr (n + 50) 5 in
    let preceding :=
      nth (Z.to_nat month) DAYS_BEFORE_MONTH 0
      + (if (2 <? month) && leapyear then 1 else 0) in
    if n <? preceding then
      let month := month - 1 in
      let preceding :=
        preceding - (nth (Z.to_nat month) DAYS_IN_MONTH 0
                     + (if (month =? 2) && leapyear then 1 else 0)) in
      (year, month, n - preceding + 1)
    else (year, month, n - preceding + 1).

(** A date the [date] constructor accepts. *)
Definition valid_date (d : date) : bool :=
  let '(year, month, day) := d in
  (1 <=? year) && (year <=? 9999) && (1 <=? month) && (month <=? 12)
  && (1 <=? day) && (day <=? days_in_month year month).

(** [d + timedelta(days=k)] *)
Definition add_days (d : date) (k : Z) : res date :=
  let o := ymd2ord d + k in
  if (0 <? o) && (o <=? MAXORDINAL) then inr (ord2ymd o)
  else inl OverflowError.

(** The day after [d] in the calendar: the next day of the month, else the
    first day of the next month, else the first day of the next year. *)
Definition next_day (d : date) : date :=
  let '(year, month, day) := d in
  if day <? days_in_month year month then (year, month, day + 1)
  else if month <? 12 then (year, month + 1, 1)
  else (year + 1, 1, 1).

(** A decimal digit of the ASCII range.  The pattern [\d] of the parser
    takes the decimal digits of other scripts as well; a cursor is read
    here as text of the ASCII range. *)
Definition digit_of (c : ascii) : option Z :=
  let n := nat_of_ascii c in
  if (48 <=? n)%nat && (n <=? 57)%nat then Some (Z.of_nat n - 48) else None.

Definition digit_char (k : Z) : ascii := ascii_of_nat (Z.to_nat (48 + k)).

(** [(?P<Y>\d\d\d\d)] *)
Definition match_Y (s : string) : option (Z * string) :=
  match s with
  | String a (String b (String c (String d rest))) =>
      match digit_of a, digit_of b, digit_of c, digit_of d with
      | Some a, Some b, Some c, Some d =>
          Some (1000 * a + 100 * b + 10 * c + d, rest)
      | _, _, _, _ => None
      end
  | _ => None
  end.

(** [(?P<m>1[0-2]|0[1-9]|[1-9])]: every alternative that matches a prefix,
    in the order the matcher tries them. *)
Definition match_m (s : string) : list (Z * string) :=
  match s with
  | String a rest =>
      match digit_of a with
      | Some a =>
          (match rest with
           | String b rest' =>
               match digit_of b with
               | Some b =>
                   if ((a =? 1) && (b <=? 2)) || ((a =? 0) && (1 <=? b))
                   then [(10 * a + b, rest')] else []
               | None => []
               end
           | EmptyString => []
           end)
          ++ (if 1 <=? a then [(a, rest)] else [])
      | None => []
      end
  | EmptyString => []
  end.

(** [(?P<d>3[01]|[12]\d|0[1-9]|[1-9]| [1-9])]: the first alternative that
    matches a prefix; nothing follows it in the pattern. *)
Definition match_d (s : string) : option (Z * string) :=
  match s with
  | String a rest =>
      let two :=
        match rest with
        | String b rest' =>
            match digit_of b with
            | Some b =>
                match digit_of a with
                | Some a =>
                    if ((a =? 3) && (b <=? 1)) || (a =? 1) || (a =? 2)
                       || ((a =? 0) && (1 <=? b))
                    then Some (10 * a + b, rest') else None
                | None =>
                    if Ascii.eqb a " " && (1 <=? b) then Some (b, rest')
                    else None
                end
            | None => None
            end
        | EmptyString => None
        end in
      match digit_of a with
      | Some a =>
          match two with
          | Some r => Some r
          | None => if 1 <=? a then Some (a, rest) else None
          end
      | None => two
      end
  | EmptyString => None
  end.

Fixpoint first_day (ms : list (Z * string)) : option (Z * Z * string) :=
  match ms with
  | [] => None
  | (m, s) :: ms' =>
      match match_d s with
      | Some (d, rest) => Some (m, d, rest)
      | None => first_day ms'
      end
  end.

(** [datetime.strptime(s, '%Y%m%d')], the date part. *)
Definition strptime (s : string) : res date :=
  match match_Y s with
  | None => inl ValueError_strptime
  | Some (y, s1) =>
      match first_day (match_m s1) with
      | None => inl ValueError_strptime
      | Some (m, d, rest) =>
          match rest with
          | EmptyString =>
              if valid_date (y, m, d) then inr (y, m, d)
              else inl ValueError_strptime
          | String _ _ => inl ValueError_strptime
          end
      end
  end.

Definition two_digits (k : Z) : string :=
  String (digit_char (k / 10)) (String (digit_char (k mod 10)) EmptyString).

Definition four_digits (y : Z) : string :=
  String (digit_char (y / 1000))
    (String (digit_char (y / 100 mod 10))
       (String (digit_char (y / 10 mod 10))
          (String (digit_char (y mod 10)) EmptyString))).

(** The year as [%Y] prints it where the script runs: the decimal number
    as the C library writes it, with no padding, so that a year under
    1000 has fewer than four digits. *)
Definition year_digits (y : Z) : string :=
  if y <? 10 then String (digit_char y) EmptyString
  else if y <? 100 then two_digits y
  else if y <? 1000 then String (digit_char (y / 100)) (two_digits (y mod 100))
  else four_digits y.

(** [datetime.strftime(d, '%Y%m%d')]: the year, then the month and the day
    as decimal numbers of two digits. *)
Definition strftime (d : date) : string :=
  let '(year, month, day) := d in
  String.append (year_digits year)
    (String.append (two_digits month) (two_digits day)).

(** The form YYYYMMDD of a date: four digits for the year, two for the
    month and two for the day. *)
Definition yyyymmdd (d : date) : string :=
  let '(year, month, day) := d in
  String.append (four_digits year)
    (String.append (two_digits month) (two_digits day)).

End Calendar.

(* ------------------------------------------------------------------------- *)
(** ** The run: configuration, files, store *)
(* ------------------------------------------------------------------------- *)

(** Section [DATE_FILEPATH] of the configuration. *)
Record Config := { file_path : string; file_date : string }.

(** What the script can see and change.  [None] for a configuration stands
    for a file or an object without the section. *)
Record World := {
  config_properties : option Config;     (* the file config.properties *)
  config : option Config;                (* the ConfigParser object *)
  csv : string -> option DataFrame;      (* what load(path) reads *)
  mongo : Store;
  mongo_up : destination -> bool         (* does a write there succeed *)
}.

Definition set_mongo (w : World) (st : Store) : World :=
  {| config_properties := config_properties w; config := config w;
     csv := csv w; mongo := st; mongo_up := mongo_up w |}.

Definition set_config (w : World) (c : option Config) : World :=
  {| config_properties := config_properties w; config := c;
     csv := csv w; mongo := mongo w; mongo_up := mongo_up w |}.

Definition set_config_properties (w : World) (c : option Config) : World :=
  {| config_properties := c; config := config w;
     csv := csv w; mongo := mongo w; mongo_up := mongo_up w |}.

(** A step of the script: it returns or raises, and leaves a world either
    way. *)
Definition M (A : Type) : Type := World -> res A * World.

Definition ret {A} (a : A) : M A := fun w => (inr a, w).

Definition raise {A} (e : exn) : M A := fun w => (inl e, w).

Definition bind {A B} (m : M A) (k : A -> M B) : M B :=
  fun w =>
    match m w with
    | (inl e, w') => (inl e, w')
    | (inr a, w') => k a w'
    end.

Definition lift {A} (r : res A) : M A := fun w => (r, w).

Notation "x <- m ;; k" := (bind m (fun x => k))
  (at level 61, m at next level, right associativity).
Notation "m ;; k" := (bind m (fun _ => k))
  (at level 61, right associativity).

(** A dataframe written to a collection in append mode. *)
Definition write_append (collection : string) (docs : list document)
  : M unit :=
  fun w =>
    let dst := (database_name, collection) in
    if mongo_up w dst then (inr tt, set_mongo w (append_to dst docs (mongo w)))
    else (inl (MongoError collection), w).

(** [spark.read.format('csv')...load(path)] *)
Definition load (path : string) : M DataFrame :=
  fun w =>
    match csv w path with
    | Some df => (inr df, w)
    | None => (inl (AnalysisException path), w)
    end.

Definition get_config : M Config :=
  fun w =>
    match config w with
    | Some c => (inr c, w)
    | None => (inl (KeyError "DATE_FILEPATH"), w)
    end.

(** The file of the day: [f"{file_path}health_data_{file_date}.csv"]. *)
Definition today_path (c : Config) : string :=
  String.append (file_path c)
    (String.append "health_data_" (String.append (file_date c) ".csv")).

(** All the files: [file_path + "*csv"]. *)
Definition all_path (c : Config) : string :=
  String.append (file_path c) "*csv".

(** Lines 13-16. *)
Definition get_date_filepath : M string :=
  c <- get_config ;;
  ret (today_path c).

(** Lines 31-48. *)
Definition read_and_save_raw_data : M DataFrame :=
  path <- get_date_filepath ;;
  df <- load path ;;
  write_append collection_name (map (DocRaw (columns df)) (rows df)) ;;
  ret df.

Section Run.

Variable E : Engine.

(** Lines 122-130. *)
Definition disease_gender_ratio (df : Frame) : M unit :=
  docs <- lift (gender_ratio_table (frows df)) ;;
  write_append "disease_gender_ratio_data" docs.

(** Lines 150-157. *)
Definition most_common_diseases (df : Frame) : M unit :=
  write_append "most_common_diseases_data" (most_common_table (frows df)).

(** Lines 181-195. *)
Definition age_category (df : Frame) : M unit :=
  write_append "age_category_data" (age_category_table (frows df)).

(** Lines 218-228. *)
Definition senior_citizen_flag (df : Frame) : M unit :=
  write_append "senior_citizen_flag_data" (senior_citizen_table (frows df)).

(** Lines 251-269. *)
Definition disease_trend_over_the_week : M unit :=
  c <- get_config ;;
  let path := all_path c in
  df <- load path ;;
  docs <- lift (trend_table E df) ;;
  write_append "disease_trend_over_the_week_data" docs.

(** Lines 272-290. *)
Definition save_cleaning_report (cleaning_report : Report) : M unit :=
  write_append "cleaning_report" [DocReport cleaning_report].

(** Lines 293-300. *)
Definition save_processing_date_info : M unit :=
  c <- get_config ;;
  let processing_date := file_date c in
  parsed <- lift (Calendar.strptime processing_date) ;;
  date_obj <- lift (Calendar.add_days parsed 1) ;;
  let next_processing_date := Calendar.strftime date_obj in
  fun w =>
    let c' := {| file_path := file_path c;
                 file_date := next_processing_date |} in
    (inr tt, set_config_properties (set_config w (Some c')) (Some c')).

(** Lines 304-314, the body of [try]. *)
Definition try_body : M unit :=
  raw_data_df <- read_and_save_raw_data ;;
  list_info <- lift (data_quality_check E raw_data_df) ;;
  let quality_data_df := fst list_info in
  save_cleaning_report (snd list_info) ;;
  disease_gender_ratio quality_data_df ;;
  most_common_diseases quality_data_df ;;
  age_category quality_data_df ;;
  senior_citizen_flag quality_data_df ;;
  disease_trend_over_the_week ;;
  save_processing_date_info.

(** The script: the configuration is read (lines 8-9), the body runs, an
    exception is printed and dropped (lines 316-321). *)
Definition main (w : World) : World :=
  snd (try_body (set_config w (config_properties w))).

(** Whether the body of [try] ran to its end. *)
Definition succeeds (w : World) : bool :=
  match fst (try_body (set_config w (config_properties w))) with
  | inr _ => true
  | inl _ => false
  end.

End Run.

(** Number of rows of diagnosis code [c] whose gender is [g], letter case
    apart. *)
Definition gender_count (g : string) (c : option string) (rs : list Row)
  : Z :=
  Z.of_nat (List.length
    (filter (fun r => option_string_eqb (diagnosis_code r) c
                      && match gender r with
                         | Some s => String.eqb (lower s) (lower g)
                         | None => false
                         end) rs)).

(** [q] is the quotient [m / f] to two decimals, a half rounded up. *)
Definition rounded_ratio (m f : Z) (q : Q) : Prop :=
  exists k, q = Qmake k 100 /\ 2 * f * k - f <= 200 * m < 2 * f * k + f.

Module CalendarCheck.
Import Calendar.

(** The integers [lo], [lo + 1], ..., [lo + n - 1]. *)
Definition range (lo : Z) (n : nat) : list Z :=
  map (fun i => lo + Z.of_nat i) (seq 0 n).

Definition date_eqb (a b : date) : bool :=
  let '(y1, m1, d1) := a in
  let '(y2, m2, d2) := b in
  (y1 =? y2) && (m1 =? m2) && (d1 =? d2).

(** The month and the day of day [n] of a year, counted from 0, as
    [ord2ymd] finds them. *)
Definition month_day (leapyear : bool) (n : Z) : Z * Z :=
  let month := Z.shiftr (n + 50) 5 in
  let preceding :=
    nth (Z.to_nat month) DAYS_BEFORE_MONTH 0
    + (if (2 <? month) && leapyear then 1 else 0) in
  if n <? preceding then
    let month := month - 1 in
    let preceding :=
      preceding - (nth (Z.to_nat month) DAYS_IN_MONTH 0
                   + (if (month =? 2) && leapyear then 1 else 0)) in
    (month, n - preceding + 1)
  else (month, n - preceding + 1).

(** The quotients that [ord2ymd] takes do not change over the first 365
    days of year [y], they give the year and its leap flag, and the 366th
    day of a leap year is its 31 December. *)
Definition year_factsb (y : Z) : bool :=
  let a := days_before_year y in
  let r0 := a mod DI400Y in
  let r1 := r0 mod DI100Y in
  let r2 := r1 mod DI4Y in
  (a / DI400Y =? (a + 364) / DI400Y)
  && (r0 / DI100Y =? (r0 + 364) / DI100Y)
  && (r1 / DI4Y =? (r1 + 364) / DI4Y)
  && (r2 / 365 =? (r2 + 364) / 365)
  && (r2 mod 365 =? 0)
  && negb (r2 / 365 =? 4)
  && negb (r0 / DI100Y =? 4)
  && (a / DI400Y * 400 + 1 + r0 / DI100Y * 100 + r1 / DI4Y * 4 + r2 / 365
      =? y)
  && Bool.eqb ((r2 / 365 =? 3)
               && (negb (r1 / DI4Y =? 24) || (r0 / DI100Y =? 3)))
              (is_leap y)
  && (days_before_year (y + 1)
      =? a + 365 + (if is_leap y then 1 else 0))
  && (if is_leap y then date_eqb (ord2ymd (a + 366)) (y, 12, 31) else true).

(** Days before a month and days in a month, by the leap flag. *)
Definition before_month (leapyear : bool) (m : Z) : Z :=
  nth (Z.to_nat m) DAYS_BEFORE_MONTH 0
  + (if (2 <? m) && leapyear then 1 else 0).

Definition in_month (leapyear : bool) (m : Z) : Z :=
  if (m =? 2) && leapyear then 29 else nth (Z.to_nat m) DAYS_IN_MONTH 0.

(** The day after day [d] of month [m], within the year. *)
Definition month_factsb (leapyear : bool) (m d : Z) : bool :=
  let '(m', d') := month_day leapyear (before_month leapyear m + d) in
  if d <? in_month leapyear m then (m' =? m) && (d' =? d + 1)
  else (m' =? m + 1) && (d' =? 1).

(** A date [k] periods of 400 years later. *)
Definition shift_year (k : Z) (d : date) : date :=
  let '(y, m, dd) := d in (y + 400 * k, m, dd).

End CalendarCheck.

(* ------------------------------------------------------------------------- *)
(** ** What a run writes *)
(* ------------------------------------------------------------------------- *)

(** The seven collections, in the order in which the script writes them. *)
Definition destinations : list string :=
  ["healthcare_raw_data"; "cleaning_report"; "disease_gender_ratio_data";
   "most_common_diseases_data"; "age_category_data";
   "senior_citizen_flag_data"; "disease_trend_over_the_week_data"].

(** The tables of one run. *)
Record Outputs := {
  out_raw : list document;
  out_report : list document;
  out_ratio : list document;
  out_common : list document;
  out_ages : list document;
  out_seniors : list document;
  out_trend : list document
}.

(** Each table with the collection it goes to. *)
Definition named_outputs (o : Outputs) : list (string * list document) :=
  [("healthcare_raw_data", out_raw o);
   ("cleaning_report", out_report o);
   ("disease_gender_ratio_data", out_ratio o);
   ("most_common_diseases_data", out_common o);
   ("age_category_data", out_ages o);
   ("senior_citizen_flag_data", out_seniors o);
   ("disease_trend_over_the_week_data", out_trend o)].

(** The documents of a run that go to a destination. *)
Definition added (o : Outputs) (dst : destination) : list document :=
  flat_map (fun nd => if destination_eqb dst (database_name, fst nd)
                      then snd nd else [])
           (named_outputs o).

(** The store after the seven writes of a run. *)
Definition store_after (o : Outputs) (st : Store) : Store :=
  fold_left (fun s nd => append_to (database_name, fst nd) (snd nd) s)
            (named_outputs o) st.

(** Every collection accepts a write. *)
Definition writable (w : World) : bool :=
  forallb (fun n => mongo_up w (database_name, n)) destinations.

Section RunOutputs.

Variable E : Engine.

(** The tables of a run as a function of the configuration and the files
    alone. *)
Definition run_outputs (c : Config) (files : string -> option DataFrame)
  : option Outputs :=
  match files (today_path c) with
  | None => None
  | Some raw_data_df =>
      match data_quality_check E raw_data_df with
      | inl _ => None
      | inr (quality_data_df, cleaning_report) =>
          match gender_ratio_table (frows quality_data_df) with
          | inl _ => None
          | inr ratio =>
              match files (all_path c) with
              | None => None
              | Some all_df =>
                  match trend_table E all_df with
                  | inl _ => None
                  | inr trend =>
                      Some {| out_raw := map (DocRaw (columns raw_data_df))
                                             (rows raw_data_df);
                              out_report := [DocReport cleaning_report];
                              out_ratio := ratio;
                              out_common :=
                                most_common_table (frows quality_data_df);
                              out_ages :=
                                age_category_table (frows quality_data_df);
                              out_seniors :=
                                senior_citizen_table (frows quality_data_df);
                              out_trend := trend |}
                  end
              end
          end
      end
  end.

(** The table handed to the four transformations that take one. *)
Definition cleaned_table (w : World) : option Frame :=
  match config_properties w with
  | None => None
  | Some c =>
      match csv w (today_path c) with
      | None => None
      | Some raw_data_df =>
          match data_quality_check E raw_data_df with
          | inl _ => None
          | inr (quality_data_df, _) => Some quality_data_df
          end
      end
  end.

End RunOutputs.

(** The store [st'] holds what [st] holds and, after it, more. *)
Definition grows (st st' : Store) : Prop :=
  forall dst, exists docs, st' dst = st dst ++ docs.

(** A step that leaves the cursor file alone and only adds to the store. *)
Definition appends_only {A} (m : M A) : Prop :=
  forall w,
    config_properties (snd (m w)) = config_properties w
    /\ grows (mongo w) (mongo (snd (m w))).

(** A step that only adds to the store, and leaves the cursor file alone
    when it raises. *)
Definition keeps_cursor_on_error {A} (m : M A) : Prop :=
  forall w,
    grows (mongo w) (mongo (snd (m w)))
    /\ forall e, fst (m w) = inl e ->
                 config_properties (snd (m w)) = config_properties w.

(* ------------------------------------------------------------------------- *)
(** ** What a median is *)
(* ------------------------------------------------------------------------- *)

(** [m] splits the list in two halves: at least half of the numbers are at
    most [m] and at least half are at least [m]. *)
Definition splits_in_halves (m : Z) (l : list Z) : Prop :=
  (List.length l <= 2 * List.length (filter (fun x => Z.leb x m) l))%nat
  /\ (List.length l <= 2 * List.length (filter (fun x => Z.leb m x) l))%nat.

(** [q] is the median of [l]: the mean of the least and of the greatest of
    the numbers that split [l] in two halves, both of them in [l]. *)
Definition median_of (l : list Z) (q : Q) : Prop :=
  exists lo hi,
    q = Qmake (lo + hi) 2
    /\ In lo l /\ In hi l
    /\ splits_in_halves lo l /\ splits_in_halves hi l
    /\ forall m, splits_in_halves m l -> lo <= m <= hi.

(* ------------------------------------------------------------------------- *)
(** ** Statements of the specification that the code does not meet *)
(* ------------------------------------------------------------------------- *)

(** Number of rows whose tuple more than two rows carry. *)
Definition rows_in_large_groups (rs : list Row) : Z :=
  Z.of_nat (List.length
    (filter (fun r => (2 <? count_occ Row_eq_dec rs r)%nat) rs)).

(** Number of rows of diagnosis code [c] whose gender is exactly [g]. *)
Definition exact_gender_count (g : string) (c : option string)
    (rs : list Row) : Z :=
  Z.of_nat (List.length
    (filter (fun r => option_string_eqb (diagnosis_code r) c
                      && option_string_eqb (gender r) (Some g)) rs)).

(** Every diagnosis code with a row of gender 'F' gets the quotient of its
    two counts, to two decimals. *)
Definition ratio_for_every_code (rs : list Row) : Prop :=
  forall docs c p,
    gender_ratio_table rs = inr docs ->
    In c (map diagnosis_code rs) ->
    exact_gender_count "F" c rs = Zpos p ->
    In (DocGenderRatio (option_map VStr c)
          (Some (round2 (Qmake (exact_gender_count "M" c rs) p)))) docs.

Section AsWorded.

Variable E : Engine.

(** [duplicate_records] is the number of rows in groups of more than two. *)
Definition duplicate_rows_counted (df : DataFrame) : Prop :=
  forall out rep df1,
    data_quality_check E df = inr (out, rep) ->
    cast_select E df = inr df1 ->
    duplicate_records rep = rows_in_large_groups (frows df1).

(** Every null age of the rows kept becomes the median of the others. *)
Definition null_ages_take_median (df : DataFrame) : Prop :=
  forall out rep df1 q,
    data_quality_check E df = inr (out, rep) ->
    cast_select E df = inr df1 ->
    median (nonnull_ages
              (filter (fun r => is_some (patient_id r)) (frows df1)))
    = Some q ->
    Forall2 (fun r r' => age r = None ->
                         exists a, age r' = Some a /\ Qeq (inject_Z a) q)
            (filter (fun r => is_some (patient_id r)) (frows df1))
            (frows out).

(** What the weekly trend writes is fixed by the cleaned table. *)
Definition trend_reads_cleaned_table_only : Prop :=
  forall w1 w2,
    succeeds E w1 = true -> succeeds E w2 = true ->
    cleaned_table E w1 = cleaned_table E w2 ->
    (forall dst, mongo w1 dst = mongo w2 dst) ->
    mongo (main E w1) (database_name, "disease_trend_over_the_week_data")
    = mongo (main E w2) (database_name, "disease_trend_over_the_week_data").

(** [data_quality_check] raises exactly when a mandatory column is not
    among the columns of the input. *)
Definition raises_iff_column_missing (df : DataFrame) : Prop :=
  (exists e, data_quality_check E df = inl e)
  <-> (exists c, In c mandatory_fields /\ ~ In c (columns df)).


End AsWorded.

(* ------------------------------------------------------------------------- *)
(** ** Sample inputs *)
(* ------------------------------------------------------------------------- *)

Module Sample.
Import Calendar.

(** Day number of 1970-01-01. *)
Definition EPOCH : Z := 719163.

Fixpoint digits_value (s : string) (acc : Z) : option Z :=
  match s with
  | EmptyString => Some acc
  | String c s' =>
      match digit_of c with
      | Some k => digits_value s' (10 * acc + k)
      | None => None
      end
  end.

(** Plain decimal text, with a sign or not, in the range of an int. *)
Definition parse_int (s : string) : option Z :=
  let r :=
    match s with
    | EmptyString => None
    | String "-"%char EmptyString => None
    | String "-"%char s' => option_map Z.opp (digits_value s' 0)
    | _ => digits_value s 0
    end in
  match r with
  | Some n =>
      if (-2147483648 <=? n) && (n <=? 2147483647) then Some n else None
  | None => None
  end.

(** Text of the form YYYY-MM-DD that names a date. *)
Definition parse_date (s : string) : option Z :=
  match match_Y s with
  | Some (y, String "-"%char
               (String a (String b
                  (String "-"%char (String c (String d EmptyString)))))) =>
      match digit_of a, digit_of b, digit_of c, digit_of d with
      | Some a, Some b, Some c, Some d =>
          let date := (y, 10 * a + b, 10 * c + d) in
          if valid_date date then Some (ymd2ord date - EPOCH) else None
      | _, _, _, _ => None
      end
  | _ => None
  end.

Definition print_date (d : Z) : string :=
  let '(y, m, dd) := ord2ymd (d + EPOCH) in
  String.append (string_of_Z y)
    (String "-"%char
       (String.append (two_digits m) (String "-"%char (two_digits dd)))).

(** An engine for the examples: it converts plain decimal text and dates
    in the form YYYY-MM-DD. *)
Definition engine : Engine :=
  {| cast_string_int := parse_int;
     cast_date_string := print_date;
     cast_string_date := parse_date |}.

Definition day_schema : list StructField :=
  [{| name := "patient_id"; dataType := StringType |};
   {| name := "age"; dataType := IntegerType |};
   {| name := "gender"; dataType := StringType |};
   {| name := "diagnosis_code"; dataType := StringType |};
   {| name := "diagnosis_description"; dataType := StringType |};
   {| name := "diagnosis_date"; dataType := DateType |}].

(** A row of a file: the cells in the order of [day_schema]. *)
Definition record (patient : option string) (years : option Z)
    (sex code description : string) (day : option Z) : list cell :=
  [option_map VStr patient; option_map VInt years; Some (VStr sex);
   Some (VStr code); Some (VStr description); option_map VDate day].

(** 2023-08-01 is day 19570. *)
Definition day_frame : DataFrame :=
  {| schema := day_schema;
     rows :=
       [record (Some "P1") (Some 34) "M" "D123" "Diabetes" (Some 19570);
        record (Some "P2") (Some 65) "F" "D123" "Diabetes" (Some 19570);
        record (Some "P3") (Some 47) "F" "H234" "High Blood Pressure"
               (Some 19570);
        record (Some "P4") (Some 58) "M" "H234" "High Blood Pressure"
               (Some 19570)] |}.

(** The file of the day before. *)
Definition eve_rows : list (list cell) :=
  [record (Some "P5") (Some 71) "F" "C345" "Cancer" (Some 19569);
   record (Some "P6") (Some 39) "M" "D123" "Diabetes" (Some 19569)].

(** A file without the column [gender]. *)
Definition short_frame : DataFrame :=
  {| schema :=
       [{| name := "patient_id"; dataType := StringType |};
        {| name := "age"; dataType := IntegerType |};
        {| name := "diagnosis_code"; dataType := StringType |};
        {| name := "diagnosis_description"; dataType := StringType |};
        {| name := "diagnosis_date"; dataType := DateType |}];
     rows := [] |}.

(** The last row has no date. *)
Definition late_frame : DataFrame :=
  {| schema := day_schema;
     rows :=
       [record (Some "P1") (Some 34) "M" "D123" "Diabetes" (Some 19570);
        record (Some "P2") (Some 65) "F" "D123" "Diabetes" None] |}.

(** The same with dates that the reader left as text. *)
Definition late_text_frame : DataFrame :=
  {| schema :=
       [{| name := "patient_id"; dataType := StringType |};
        {| name := "age"; dataType := IntegerType |};
        {| name := "gender"; dataType := StringType |};
        {| name := "diagnosis_code"; dataType := StringType |};
        {| name := "diagnosis_description"; dataType := StringType |};
        {| name := "diagnosis_date"; dataType := StringType |}];
     rows :=
       [[Some (VStr "P1"); Some (VInt 34); Some (VStr "M");
         Some (VStr "D123"); Some (VStr "Diabetes");
         Some (VStr "01/08/2023")];
        [Some (VStr "P2"); Some (VInt 65); Some (VStr "F");
         Some (VStr "D123"); Some (VStr "Diabetes"); None]] |}.

(** Three times the same row. *)
Definition triple_frame : DataFrame :=
  {| schema := day_schema;
     rows :=
       [record (Some "P1") (Some 34) "M" "D123" "Diabetes" (Some 19570);
        record (Some "P1") (Some 34) "M" "D123" "Diabetes" (Some 19570);
        record (Some "P1") (Some 34) "M" "D123" "Diabetes" (Some 19570)] |}.

(** Ages 30 and 41 and a row without age. *)
Definition half_frame : DataFrame :=
  {| schema := day_schema;
     rows :=
       [record (Some "P1") (Some 30) "M" "D123" "Diabetes" (Some 19570);
        record (Some "P2") (Some 41) "F" "D123" "Diabetes" (Some 19570);
        record (Some "P3") None "F" "H234" "High Blood Pressure"
               (Some 19570)] |}.

(** A row without [patient_id] among rows with one. *)
Definition anonymous_frame : DataFrame :=
  {| schema := day_schema;
     rows :=
       [record (Some "P1") (Some 34) "M" "D123" "Diabetes" (Some 19570);
        record None (Some 50) "F" "D123" "Diabetes" (Some 19570);
        record (Some "P3") (Some 47) "F" "H234" "High Blood Pressure"
               (Some 19570)] |}.

(** A cleaned table in which code C345 has a woman and no man. *)
Definition ratio_rows : list Row :=
  [{| patient_id := Some "P1"; age := Some 61; gender := Some "F";
      diagnosis_code := Some "C345";
      diagnosis_description := Some "Cancer";
      diagnosis_date := Some (VDate 19570) |};
   {| patient_id := Some "P2"; age := Some 34; gender := Some "M";
      diagnosis_code := Some "D123";
      diagnosis_description := Some "Diabetes";
      diagnosis_date := Some (VDate 19570) |};
   {| patient_id := Some "P3"; age := Some 65; gender := Some "F";
      diagnosis_code := Some "D123";
      diagnosis_description := Some "Diabetes";
      diagnosis_date := Some (VDate 19570) |}].

Definition empty_store : Store := fun _ => [].

(** A directory with the file of 2023-08-01 alone. *)
Definition world_one_file : World :=
  {| config_properties :=
       Some {| file_path := "data/"; file_date := "20230801" |};
     config := None;
     csv := fun path =>
              if String.eqb path "data/health_data_20230801.csv"
              then Some day_frame
              else if String.eqb path "data/*csv" then Some day_frame
              else None;
     mongo := empty_store;
     mongo_up := fun _ => true |}.

(** The same directory with the file of the day before as well. *)
Definition world_two_files : World :=
  {| config_properties :=
       Some {| file_path := "data/"; file_date := "20230801" |};
     config := None;
     csv := fun path =>
              if String.eqb path "data/health_data_20230801.csv"
              then Some day_frame
              else if String.eqb path "data/*csv"
              then Some {| schema := day_schema;
                           rows := eve_rows ++ rows day_frame |}
              else None;
     mongo := empty_store;
     mongo_up := fun _ => true |}.


(** A file with the line of the six column names and no row: the reader
    takes every column as text. *)
Definition header_only_frame : DataFrame :=
  {| schema :=
       [{| name := "patient_id"; dataType := StringType |};
        {| name := "age"; dataType := StringType |};
        {| name := "gender"; dataType := StringType |};
        {| name := "diagnosis_code"; dataType := StringType |};
        {| name := "diagnosis_description"; dataType := StringType |};
        {| name := "diagnosis_date"; dataType := StringType |}];
     rows := [] |}.

(** What [data_quality_check] returns on [day_frame]. *)
Definition day_cleaned : Frame * Report :=
  Eval vm_compute in
    match data_quality_check engine day_frame with
    | inr r => r
    | inl _ => ({| date_type := DateType; frows := [] |},
                {| missing_columns := []; duplicate_records := 0;
                   columns_with_null_count := [] |})
    end.

End Sample.

(* ------------------------------------------------------------------------- *)
(** ** Notions for the tables *)
(* ------------------------------------------------------------------------- *)

(** The sum of the counts of a table of counts. *)
Definition total_count {K : Type} (t : list (K * Z)) : Z :=
  fold_right Z.add 0 (map snd t).

(** The count that a document of a transformation carries. *)
Definition document_count (d : document) : Z :=
  match d with
  | DocDisease _ c => c
  | DocAgeCategory _ _ _ c => c
  | DocTrend _ _ c => c
  | _ => 0
  end.

(** The age that a document of the senior flag carries. *)
Definition document_age (d : document) : option Z :=
  match d with
  | DocSenior _ a _ _ _ => a
  | _ => None
  end.

(** The age group that a document of the age categories carries. *)
Definition document_age_group (d : document) : string :=
  match d with
  | DocAgeCategory g _ _ _ => g
  | _ => ""
  end.

(* ------------------------------------------------------------------------- *)
(** ** More files and directories for the examples *)
(* ------------------------------------------------------------------------- *)

Module MoreSample.
Import Sample.

(** A file with the six columns and no row. *)
Definition empty_frame : DataFrame :=
  {| schema := day_schema; rows := [] |}.

(** A file with the six columns in which no row has a date. *)
Definition undated_rows_frame : DataFrame :=
  {| schema := day_schema;
     rows :=
       [record (Some "P1") (Some 34) "M" "D123" "Diabetes" None;
        record (Some "P2") None "F" "D123" "Diabetes" None] |}.

(** Files without the column [diagnosis_date]. *)
Definition dateless_frame : DataFrame :=
  {| schema :=
       [{| name := "patient_id"; dataType := StringType |};
        {| name := "age"; dataType := IntegerType |};
        {| name := "gender"; dataType := StringType |};
        {| name := "diagnosis_code"; dataType := StringType |};
        {| name := "diagnosis_description"; dataType := StringType |}];
     rows :=
       [[Some (VStr "P1"); Some (VInt 34); Some (VStr "M");
         Some (VStr "D123"); Some (VStr "Diabetes")]] |}.

(** A cleaned table of men only. *)
Definition men_frame : Frame :=
  {| date_type := DateType;
     frows :=
       [{| patient_id := Some "P1"; age := Some 61; gender := Some "M";
           diagnosis_code := Some "C345";
           diagnosis_description := Some "Cancer";
           diagnosis_date := Some (VDate 19570) |};
        {| patient_id := Some "P2"; age := Some 34; gender := Some "M";
           diagnosis_code := Some "D123";
           diagnosis_description := Some "Diabetes";
           diagnosis_date := Some (VDate 19570) |}] |}.

Definition day_config : Config :=
  {| file_path := "data/"; file_date := "20230801" |}.

(** The configuration read, and all the files without [diagnosis_date]. *)
Definition world_dateless : World :=
  {| config_properties := Some day_config;
     config := Some day_config;
     csv := fun path =>
              if String.eqb path "data/*csv" then Some dateless_frame
              else None;
     mongo := empty_store;
     mongo_up := fun _ => true |}.

(** A file with a row and without the column [gender]. *)
Definition genderless_frame : DataFrame :=
  {| schema :=
       [{| name := "patient_id"; dataType := StringType |};
        {| name := "age"; dataType := IntegerType |};
        {| name := "diagnosis_code"; dataType := StringType |};
        {| name := "diagnosis_description"; dataType := StringType |};
        {| name := "diagnosis_date"; dataType := DateType |}];
     rows :=
       [[Some (VStr "P1"); Some (VInt 34); Some (VStr "D123");
         Some (VStr "Diabetes"); Some (VDate 19570)]] |}.

(** A directory whose file of the day lacks the column [gender]. *)
Definition world_short_file : World :=
  {| config_properties := Some day_config;
     config := None;
     csv := fun path =>
              if String.eqb path "data/health_data_20230801.csv"
              then Some genderless_frame
              else None;
     mongo := empty_store;
     mongo_up := fun _ => true |}.

(** A directory without the file of the day. *)
Definition world_no_file : World :=
  {| config_properties := Some day_config;
     config := None;
     csv := fun _ => None;
     mongo := empty_store;
     mongo_up := fun _ => true |}.

(** A cursor written with dashes, and the file that it names. *)
Definition dashed_config : Config :=
  {| file_path := "data/"; file_date := "2023-08-01" |}.

Definition world_dashed_cursor : World :=
  {| config_properties := Some dashed_config;
     config := None;
     csv := fun path =>
              if String.eqb path "data/health_data_2023-08-01.csv"
              then Some day_frame
              else if String.eqb path "data/*csv" then Some day_frame
              else None;
     mongo := empty_store;
     mongo_up := fun _ => true |}.

End MoreSample.

(* ------------------------------------------------------------------------- *)
(** ** The column check *)
(* ------------------------------------------------------------------------- *)

Lemma existsb_eqb_In (c : string) (cols : list string) :
  existsb (String.eqb c) cols = true <-> In c cols.
Proof.
  rewrite existsb_exists. split.
  - intros [x [Hx He]]. apply String.eqb_eq in He. now subst.
  - intros H. exists c. split; [assumption | apply String.eqb_refl].
Qed.

Lemma check_mandatory_present cols fields mc :
  (forall c, In c fields -> In c cols) ->
  check_mandatory cols fields mc = (mc, None).
Proof.
  induction fields as [|f fields IH]; simpl; intros H; [reflexivity|].
  assert (Hf : existsb (String.eqb f) cols = true)
    by (apply existsb_eqb_In, H; now left).
  rewrite Hf. simpl. apply IH. intros c Hc. apply H. now right.
Qed.

Lemma check_mandatory_passes cols fields mc mc' :
  check_mandatory cols fields mc = (mc', None) ->
  mc' = mc /\ forall c, In c fields -> In c cols.
Proof.
  induction fields as [|f fields IH]; simpl.
  - intros H. inversion H. split; [reflexivity | intros c []].
  - destruct (existsb (String.eqb f) cols) eqn:Hf; simpl; [|discriminate].
    intros H. destruct (IH H) as [-> Hall]. split; [reflexivity|].
    intros c [<-|Hc]; [now apply existsb_eqb_In | now apply Hall].
Qed.

Lemma check_mandatory_raises cols fields mc mc' e :
  check_mandatory cols fields mc = (mc', Some e) ->
  exists c, e = ValueError_mandatory c /\ In c fields /\ ~ In c cols.
Proof.
  induction fields as [|f fields IH]; simpl; [discriminate|].
  destruct (existsb (String.eqb f) cols) eqn:Hf; simpl.
  - intros H. destruct (IH H) as [c [-> [Hin Hout]]].
    exists c. repeat split; [now right | assumption].
  - intros H. inversion H; subst. exists f. repeat split; [now left|].
    intros Hin. apply existsb_eqb_In in Hin. congruence.
Qed.

Lemma check_mandatory_absent cols fields mc c :
  In c fields -> ~ In c cols ->
  exists c' mc', check_mandatory cols fields mc
                 = (mc', Some (ValueError_mandatory c')).
Proof.
  intros Hin Hout.
  destruct (check_mandatory cols fields mc) as [mc' [e|]] eqn:Hc.
  - destruct (check_mandatory_raises _ _ _ _ _ Hc) as [c' [-> _]].
    now exists c', mc'.
  - apply check_mandatory_passes in Hc. destruct Hc as [_ Hall].
    exfalso. apply Hout, Hall, Hin.
Qed.

(* ------------------------------------------------------------------------- *)
(** ** What a return of [data_quality_check] tells *)
(* ------------------------------------------------------------------------- *)

Section Cleaning.

Variable E : Engine.

(** The frame returned and the report, in terms of the selected frame. *)
Lemma data_quality_check_returns df out rep :
  data_quality_check E df = inr (out, rep) ->
  exists df1 q first pid,
    check_mandatory (columns df) mandatory_fields [] = ([], None)
    /\ cast_select E df = inr df1
    /\ median (nonnull_ages
                 (filter (fun r => is_some (patient_id r)) (frows df1)))
       = Some q
    /\ latest_row (map (fill_age q)
                     (filter (fun r => is_some (patient_id r)) (frows df1)))
       = Some first
    /\ patient_id first = Some pid
    /\ out = {| date_type := date_type df1;
                frows := map (fill_date E (date_type df1) pid)
                           (map (fill_age q)
                              (filter (fun r => is_some (patient_id r))
                                 (frows df1))) |}
    /\ rep = {| missing_columns := [];
                duplicate_records :=
                  Z.of_nat (List.length
                    (filter (fun kc => 2 <? snd kc)
                       (group_count Row_eqb (frows df1))));
                columns_with_null_count := null_counts (frows df1) |}.
Proof.
  unfold data_quality_check.
  destruct (check_mandatory (columns df) mandatory_fields [])
    as [mc [e|]] eqn:Hc; [discriminate|].
  destruct (check_mandatory_passes _ _ _ _ Hc) as [-> _].
  destruct (cast_select E df) as [e|df1] eqn:Hs; simpl; [discriminate|].
  destruct (median _) as [q|] eqn:Hm; simpl; [|discriminate].
  destruct (latest_row _) as [first|] eqn:Hl; simpl; [|discriminate].
  destruct (patient_id first) as [pid|] eqn:Hp; simpl; [|discriminate].
  intros H. inversion H; subst.
  exists df1, q, first, pid. repeat split; assumption.
Qed.

(** The exceptions [data_quality_check] can raise after the column check
    are not the exception of the column check. *)
Lemma data_quality_check_raises df e :
  data_quality_check E df = inl e ->
  (exists mc, check_mandatory (columns df) mandatory_fields []
              = (mc, Some e))
  \/ (check_mandatory (columns df) mandatory_fields [] = ([], None)
      /\ forall c, e <> ValueError_mandatory c).
Proof.
  unfold data_quality_check.
  destruct (check_mandatory (columns df) mandatory_fields [])
    as [mc [e'|]] eqn:Hc.
  - intros H. inversion H; subst. left. now exists mc.
  - destruct (check_mandatory_passes _ _ _ _ Hc) as [-> _].
    intros H. right. split; [reflexivity|].
    unfold cast_select, resolve in H.
    repeat match type of H with
    | context [positions ?n ?c 0] =>
        destruct (positions n c 0) as [|? [|? ?]]; simpl in H
    end; try (inversion H; subst; intros c; discriminate).
    destruct (median _) as [q|]; simpl in H;
      [|inversion H; subst; intros c; discriminate].
    destruct (latest_row _) as [first|]; simpl in H;
      [|inversion H; subst; intros c; discriminate].
    destruct (patient_id first); simpl in H;
      inversion H; subst; intros c; discriminate.
Qed.

(** C3.  [data_quality_check] raises the error of the column check, naming
    a mandatory column, exactly when one of the six mandatory columns is not
    among the columns of the input; when all six are there the check passes
    with nothing recorded as missing, and no such error is raised later. *)
Theorem C3_missing_column_error_iff (df : DataFrame) :
  ((exists c, data_quality_check E df = inl (ValueError_mandatory c))
   <-> (exists c, In c mandatory_fields /\ ~ In c (columns df)))
  /\ ((forall c, In c mandatory_fields -> In c (columns df)) ->
      check_mandatory (columns df) mandatory_fields [] = ([], None)
      /\ forall c, data_quality_check E df <> inl (ValueError_mandatory c)).
Proof.
  split; [split|].
  - intros [c H]. apply data_quality_check_raises in H.
    destruct H as [[mc H]|[_ H]].
    + destruct (check_mandatory_raises _ _ _ _ _ H) as [c' [_ Hc']].
      now exists c'.
    + exfalso. now apply (H c).
  - intros [c [Hin Hout]].
    destruct (check_mandatory_absent (columns df) mandatory_fields [] c
                Hin Hout) as [c' [mc' H]].
    exists c'. unfold data_quality_check. now rewrite H.
  - intros Hall. split; [now apply check_mandatory_present|].
    intros c H. apply data_quality_check_raises in H.
    destruct H as [[mc H]|[_ H]].
    + rewrite (check_mandatory_present _ _ [] Hall) in H. discriminate.
    + now apply (H c).
Qed.

(** C10.  When [data_quality_check] returns, the [missing_columns] of its
    report is the empty list. *)
Theorem C10_missing_columns_empty (df : DataFrame) (out : Frame)
    (rep : Report) :
  data_quality_check E df = inr (out, rep) -> missing_columns rep = [].
Proof.
  intros H. apply data_quality_check_returns in H.
  destruct H as [df1 [q [first [pid [_ [_ [_ [_ [_ [_ ->]]]]]]]]]].
  reflexivity.
Qed.

End Cleaning.
(* ------------------------------------------------------------------------- *)
(** ** [groupBy().count()] *)
(* ------------------------------------------------------------------------- *)

Section GroupCount.

Context {K : Type} (eqb : K -> K -> bool).
Hypothesis eqb_eq : forall a b, eqb a b = true <-> a = b.

Lemma eqb_same a : eqb a a = true.
Proof. now apply eqb_eq. Qed.

Lemma eqb_neq a b : a <> b -> eqb a b = false.
Proof.
  intros H. destruct (eqb a b) eqn:He; [|reflexivity].
  apply eqb_eq in He. contradiction.
Qed.

Lemma count_key_snoc k l x :
  count_key eqb k (l ++ [x])
  = count_key eqb k l + (if eqb k x then 1 else 0).
Proof.
  unfold count_key. rewrite filter_app, length_app. simpl.
  destruct (eqb k x); simpl; lia.
Qed.

Lemma count_key_nonneg k l : 0 <= count_key eqb k l.
Proof. unfold count_key. lia. Qed.

Lemma count_key_pos k l : 0 < count_key eqb k l <-> In k l.
Proof.
  unfold count_key. split.
  - intros H. destruct (filter (eqb k) l) as [|x f] eqn:Hf; [simpl in H; lia|].
    assert (Hx : In x (filter (eqb k) l)) by (rewrite Hf; now left).
    apply filter_In in Hx. destruct Hx as [Hx He].
    apply eqb_eq in He. now subst.
  - intros H. assert (Hk : In k (filter (eqb k) l))
      by (apply filter_In; split; [assumption | apply eqb_same]).
    destruct (filter (eqb k) l); [destruct Hk | simpl; lia].
Qed.

Lemma bump_new k acc :
  ~ In k (map fst acc) -> bump eqb k acc = acc ++ [(k, 1)].
Proof.
  induction acc as [|[k' c] acc IH]; simpl; intros H; [reflexivity|].
  rewrite eqb_neq by (intros ->; apply H; now left).
  f_equal. apply IH. intros Hin. apply H. now right.
Qed.

Lemma bump_keys_old k acc :
  In k (map fst acc) -> map fst (bump eqb k acc) = map fst acc.
Proof.
  induction acc as [|[k' c] acc IH]; simpl; intros H; [destruct H|].
  destruct (eqb k' k) eqn:He; simpl; [reflexivity|].
  f_equal. apply IH. destruct H as [->|H]; [|assumption].
  rewrite eqb_same in He. discriminate.
Qed.

Lemma bump_old k acc :
  NoDup (map fst acc) -> In k (map fst acc) ->
  forall k' c', In (k', c') (bump eqb k acc)
    <-> (k' = k /\ In (k, c' - 1) acc) \/ (k' <> k /\ In (k', c') acc).
Proof.
  induction acc as [|[k0 c0] acc IH]; simpl; intros Hnd Hin k' c';
    [destruct Hin|].
  inversion Hnd as [|? ? Hnot Hnd']; subst.
  destruct (eqb k0 k) eqn:He.
  - apply eqb_eq in He. subst k0. simpl. split.
    + intros [H|H].
      * inversion H; subst. left. split; [reflexivity|]. left.
        f_equal. lia.
      * right. split; [|now right]. intros ->. apply Hnot.
        change k with (fst (k, c')). now apply in_map.
    + intros [[-> [H|H]]|[Hne [H|H]]].
      * inversion H. left. f_equal. lia.
      * exfalso. apply Hnot. change k with (fst (k, c' - 1)).
        now apply in_map.
      * inversion H; subst. contradiction.
      * now right.
  - assert (Hk : In k (map fst acc)).
    { destruct Hin as [->|Hin]; [|assumption].
      rewrite eqb_same in He. discriminate. }
    assert (Hne0 : k0 <> k) by (intros ->; rewrite eqb_same in He; discriminate).
    simpl. rewrite (IH Hnd' Hk). split.
    + intros [H|[[-> H]|[Hne H]]].
      * inversion H; subst. right. split; [assumption | now left].
      * left. split; [reflexivity | now right].
      * right. split; [assumption | now right].
    + intros [[-> [H|H]]|[Hne [H|H]]].
      * inversion H; subst. contradiction.
      * right. left. now split.
      * now left.
      * right. right. now split.
Qed.

Lemma counts_of_bump l acc k :
  counts_of eqb l acc -> counts_of eqb (l ++ [k]) (bump eqb k acc).
Proof.
  intros [Hnd Hacc].
  assert (Hkeys : forall x, In x (map fst acc) <-> In x l).
  { intros x. rewrite in_map_iff. split.
    - intros [[x' c] [<- H]]. now apply Hacc in H.
    - intros H. exists (x, count_key eqb x l). split; [reflexivity|].
      now apply Hacc. }
  destruct (in_dec (fun a b => match Bool.bool_dec (eqb a b) true with
                               | left e => left (proj1 (eqb_eq a b) e)
                               | right n =>
                                   right (fun e => n (proj2 (eqb_eq a b) e))
                               end) k (map fst acc)) as [Hin|Hout].
  - split; [now rewrite bump_keys_old|].
    intros k' c'. rewrite (bump_old k acc Hnd Hin), in_app_iff.
    rewrite count_key_snoc. simpl. split.
    + intros [[-> H]|[Hne H]].
      * apply Hacc in H. destruct H as [Hl Hc]. split; [now left|].
        rewrite eqb_same. lia.
      * apply Hacc in H. destruct H as [Hl Hc]. split; [now left|].
        rewrite (eqb_neq _ _ Hne). lia.
    + intros [Hl Hc]. destruct (eqb k' k) eqn:He.
      * apply eqb_eq in He. subst k'. left. split; [reflexivity|].
        apply Hacc. split; [now apply Hkeys | lia].
      * right. assert (Hne : k' <> k)
          by (intros ->; rewrite eqb_same in He; discriminate).
        split; [assumption|]. apply Hacc.
        destruct Hl as [Hl|[Hl|[]]]; [|congruence].
        split; [assumption | lia].
  - rewrite (bump_new _ _ Hout). split.
    + rewrite map_app. simpl. apply NoDup_app; [assumption | | ].
      * constructor; [intros [] | constructor].
      * intros x Hx [<-|[]]. contradiction.
    + intros k' c'. rewrite !in_app_iff, count_key_snoc. simpl.
      assert (Hzero : count_key eqb k l = 0).
      { destruct (Z.eq_dec (count_key eqb k l) 0) as [|Hnz]; [assumption|].
        exfalso. apply Hout, Hkeys, count_key_pos.
        pose proof (count_key_nonneg k l). lia. }
      split.
      * intros [H|[H|[]]].
        -- apply Hacc in H. destruct H as [Hl Hc]. split; [now left|].
           rewrite eqb_neq; [lia|]. intros ->. now apply Hout, Hkeys.
        -- inversion H; subst. split; [right; now left|].
           rewrite eqb_same. lia.
      * intros [Hl Hc]. destruct (eqb k' k) eqn:He.
        -- apply eqb_eq in He. subst k'. right. left. f_equal. lia.
        -- left. apply Hacc. destruct Hl as [Hl|[Hl|[]]].
           ++ split; [assumption | lia].
           ++ subst. rewrite eqb_same in He. discriminate.
Qed.

(** The table of [groupBy().count()] has one row per distinct key, with the
    number of rows of that key. *)
Lemma group_count_spec l : counts_of eqb l (group_count eqb l).
Proof.
  induction l as [|k l IH] using rev_ind.
  - split; [constructor | intros k c; simpl; tauto].
  - unfold group_count. rewrite fold_left_app. simpl.
    now apply counts_of_bump.
Qed.

End GroupCount.
(* ------------------------------------------------------------------------- *)
(** ** Sorting and name resolution *)
(* ------------------------------------------------------------------------- *)

Section SortFacts.

Context {A : Type} (leb : A -> A -> bool).

Lemma insert_sorted_In x y l :
  In y (insert_sorted leb x l) <-> y = x \/ In y l.
Proof.
  induction l as [|z l IH]; simpl.
  - intuition congruence.
  - destruct (leb x z); simpl; [intuition congruence|].
    rewrite IH. intuition congruence.
Qed.

Lemma sort_by_In y l : In y (sort_by leb l) <-> In y l.
Proof.
  induction l as [|x l IH]; simpl; [tauto|].
  rewrite insert_sorted_In, IH. intuition congruence.
Qed.

Lemma insert_sorted_length x l :
  List.length (insert_sorted leb x l) = S (List.length l).
Proof.
  induction l as [|z l IH]; simpl; [reflexivity|].
  destruct (leb x z); simpl; now rewrite ?IH.
Qed.

Lemma sort_by_length l : List.length (sort_by leb l) = List.length l.
Proof.
  induction l as [|x l IH]; simpl; [reflexivity|].
  now rewrite insert_sorted_length, IH.
Qed.

End SortFacts.

Lemma positions_In n cols k p :
  In p (positions n cols k)
  <-> exists j, p = (k + j)%nat /\ (j < List.length cols)%nat
                /\ lower (nth j cols "") = lower n.
Proof.
  revert k. induction cols as [|c cols IH]; intros k; simpl.
  - split; [intros [] | intros [j [_ [H _]]]; lia].
  - destruct (String.eqb (lower c) (lower n)) eqn:He.
    + simpl. rewrite IH. split.
      * intros [<-|[j [-> [Hj Hl]]]].
        -- exists 0%nat. repeat split; [lia | lia |].
           now apply String.eqb_eq.
        -- exists (S j). repeat split; [lia | lia | assumption].
      * intros [[|j] [-> [Hj Hl]]]; [left; lia|].
        right. exists j. repeat split; [lia | lia | assumption].
    + rewrite IH. split.
      * intros [j [-> [Hj Hl]]].
        exists (S j). repeat split; [lia | lia | assumption].
      * intros [[|j] [-> [Hj Hl]]].
        -- apply String.eqb_neq in He. simpl in Hl. contradiction.
        -- exists j. repeat split; [lia | lia | assumption].
Qed.

(** A name resolves to the one column that carries it up to case. *)
Lemma resolve_unique n cols i :
  resolve n cols = inr i ->
  (i < List.length cols)%nat
  /\ lower (nth i cols "") = lower n
  /\ forall j, (j < List.length cols)%nat ->
               lower (nth j cols "") = lower n -> j = i.
Proof.
  unfold resolve.
  destruct (positions n cols 0) as [|p [|p' ps]] eqn:Hp;
    [discriminate | | discriminate].
  intros H. inversion H; subst p.
  assert (Hi : In i (positions n cols 0)) by (rewrite Hp; now left).
  apply positions_In in Hi. destruct Hi as [j [-> [Hj Hl]]].
  repeat split; [assumption | assumption |].
  intros j' Hj' Hl'.
  assert (Hin : In j' (positions n cols 0))
    by (apply positions_In; exists j'; now repeat split).
  rewrite Hp in Hin. destruct Hin as [<-|[]]. reflexivity.
Qed.

Lemma option_string_eqb_eq a b : option_string_eqb a b = true <-> a = b.
Proof.
  destruct a as [x|], b as [y|]; simpl; try (split; congruence).
  rewrite String.eqb_eq. split; congruence.
Qed.
(* ------------------------------------------------------------------------- *)
(** ** The median of the engine is the median *)
(* ------------------------------------------------------------------------- *)

Section MedianFacts.

Lemma insert_sorted_perm {A} (leb : A -> A -> bool) x l :
  Permutation (insert_sorted leb x l) (x :: l).
Proof.
  induction l as [|y l IH]; simpl; [reflexivity|].
  destruct (leb x y); [reflexivity|].
  rewrite IH. apply perm_swap.
Qed.

Lemma sort_by_perm {A} (leb : A -> A -> bool) l :
  Permutation (sort_by leb l) l.
Proof.
  induction l as [|x l IH]; simpl; [reflexivity|].
  rewrite insert_sorted_perm. now constructor.
Qed.

Lemma insert_sorted_sorted x l :
  StronglySorted Z.le l -> StronglySorted Z.le (insert_sorted Z.leb x l).
Proof.
  induction 1 as [|y l Hs IH Hy]; simpl.
  - repeat constructor.
  - destruct (Z.leb_spec x y).
    + constructor; [now constructor|].
      constructor; [assumption|].
      eapply Forall_impl; [|exact Hy]. intros z Hz. simpl in Hz. lia.
    + constructor; [assumption|].
      eapply Permutation_Forall; [symmetry; apply insert_sorted_perm|].
      constructor; [lia | assumption].
Qed.

Lemma sort_by_sorted l : StronglySorted Z.le (sort_by Z.leb l).
Proof.
  induction l as [|x l IH]; simpl; [constructor|].
  now apply insert_sorted_sorted.
Qed.

Lemma filter_length_perm {A} (p : A -> bool) l l' :
  Permutation l l' ->
  List.length (filter p l) = List.length (filter p l').
Proof.
  induction 1 as [|x l l' _ IH|x y l|l l' l'' _ IH1 _ IH2]; simpl.
  - reflexivity.
  - destruct (p x); simpl; now rewrite IH.
  - destruct (p x), (p y); reflexivity.
  - now rewrite IH1.
Qed.

(** In a sorted list, the numbers up to position [k] are at most the
    number at [k], and the numbers from [k] on are at least it. *)
Lemma sorted_around s k :
  StronglySorted Z.le s -> (k < List.length s)%nat ->
  Forall (fun x => x <= nth k s 0) (firstn (S k) s)
  /\ Forall (fun x => nth k s 0 <= x) (skipn k s).
Proof.
  intros Hs. revert k.
  induction Hs as [|y l Hs IH Hy]; intros k Hk; [simpl in Hk; lia|].
  destruct k as [|k].
  - simpl. split.
    + constructor; [lia | constructor].
    + constructor; [lia|]. exact Hy.
  - simpl in Hk. destruct (IH k ltac:(lia)) as [H1 H2].
    cbn [nth firstn skipn]. split; [|assumption].
    constructor; [|assumption].
    rewrite Forall_forall in Hy. apply Hy. apply nth_In. lia.
Qed.

Lemma filter_all {A} (p : A -> bool) l :
  Forall (fun x => p x = true) l -> filter p l = l.
Proof.
  induction 1 as [|x l Hx _ IH]; simpl; [reflexivity|].
  now rewrite Hx, IH.
Qed.

Lemma filter_none {A} (p : A -> bool) l :
  Forall (fun x => p x = false) l -> filter p l = [].
Proof.
  induction 1 as [|x l Hx _ IH]; simpl; [reflexivity|].
  now rewrite Hx, IH.
Qed.

Lemma filter_length_le {A} (p : A -> bool) l :
  (List.length (filter p l) <= List.length l)%nat.
Proof.
  induction l as [|x l IH]; simpl; [lia|]. destruct (p x); simpl; lia.
Qed.

(** Counts on a sorted list, around position [k]. *)
Lemma sorted_counts s k :
  StronglySorted Z.le s -> (k < List.length s)%nat ->
  let v := nth k s 0 in
  (S k <= List.length (filter (fun x => Z.leb x v) s))%nat
  /\ (List.length s - k <= List.length (filter (fun x => Z.leb v x) s))%nat
  /\ (forall m, m < v ->
        (List.length (filter (fun x => Z.leb x m) s) <= k)%nat)
  /\ (forall m, v < m ->
        (List.length (filter (fun x => Z.leb m x) s)
         <= List.length s - S k)%nat).
Proof.
  intros Hs Hk v.
  destruct (sorted_around s k Hs Hk) as [Hlow Hhigh].
  fold v in Hlow, Hhigh.
  assert (Hlen1 : List.length (firstn (S k) s) = S k)
    by (rewrite length_firstn; lia).
  assert (Hlen0 : List.length (firstn k s) = k)
    by (rewrite length_firstn; lia).
  assert (Hlen2 : List.length (skipn k s) = (List.length s - k)%nat)
    by apply length_skipn.
  assert (Hlen3 : List.length (skipn (S k) s)
                  = (List.length s - S k)%nat) by apply length_skipn.
  repeat split.
  - rewrite <- (firstn_skipn (S k) s) at 1.
    rewrite filter_app, length_app, filter_all; [lia|].
    eapply Forall_impl; [|exact Hlow]. intros x Hx. simpl in Hx.
    now apply Z.leb_le.
  - rewrite <- (firstn_skipn k s) at 2.
    rewrite filter_app, length_app, (filter_all _ (skipn k s)); [lia|].
    eapply Forall_impl; [|exact Hhigh]. intros x Hx. simpl in Hx.
    now apply Z.leb_le.
  - intros m Hm. rewrite <- (firstn_skipn k s).
    rewrite filter_app, length_app, (filter_none _ (skipn k s)).
    + pose proof (filter_length_le (fun x => Z.leb x m) (firstn k s)).
      cbn [List.length Nat.add]. lia.
    + eapply Forall_impl; [|exact Hhigh]. intros x Hx. simpl in Hx.
      apply Z.leb_gt. lia.
  - intros m Hm. rewrite <- (firstn_skipn (S k) s) at 1.
    rewrite filter_app, length_app, (filter_none _ (firstn (S k) s)).
    + pose proof (filter_length_le (fun x => Z.leb m x) (skipn (S k) s)).
      cbn [List.length Nat.add]. lia.
    + eapply Forall_impl; [|exact Hlow]. intros x Hx. simpl in Hx.
      apply Z.leb_gt. lia.
Qed.

(** The value that [median] computes is the median of the list. *)
Lemma median_is_median l q : median l = Some q -> median_of l q.
Proof.
  unfold median. destruct l as [|a l'] eqn:Hl; [discriminate|].
  rewrite <- Hl. intros H. inversion H; subst q; clear H.
  set (n := List.length l).
  assert (Hn : (0 < n)%nat) by (unfold n; rewrite Hl; simpl; lia).
  set (s := sort_by Z.leb l).
  assert (Hp : Permutation s l) by apply sort_by_perm.
  assert (Hs : StronglySorted Z.le s) by apply sort_by_sorted.
  assert (Hlen : List.length s = n) by apply sort_by_length.
  pose proof (Nat.div_mod_eq n 2) as Hd2.
  pose proof (Nat.mod_upper_bound n 2 ltac:(lia)) as Hm2.
  pose proof (Nat.div_mod_eq (n - 1) 2) as Hd1.
  pose proof (Nat.mod_upper_bound (n - 1) 2 ltac:(lia)) as Hm1.
  assert (Hk1 : ((n - 1) / 2 < List.length s)%nat) by lia.
  assert (Hk2 : (n / 2 < List.length s)%nat) by lia.
  destruct (sorted_counts s _ Hs Hk1) as [A1 [A2 [A3 A4]]].
  destruct (sorted_counts s _ Hs Hk2) as [B1 [B2 [B3 B4]]].
  cbv zeta in *.
  assert (Hcount : forall p, List.length (filter p l)
                             = List.length (filter p s))
    by (intros p; symmetry; now apply filter_length_perm).
  exists (nth ((n - 1) / 2) s 0), (nth (n / 2) s 0).
  split; [reflexivity|].
  split; [apply (Permutation_in _ Hp), nth_In; lia|].
  split; [apply (Permutation_in _ Hp), nth_In; lia|].
  unfold splits_in_halves. fold n. rewrite !Hcount.
  split; [split; lia|]. split; [split; lia|].
  intros m. rewrite !Hcount. intros [M1 M2]. split.
  - destruct (Z.lt_ge_cases m (nth ((n - 1) / 2) s 0)) as [Hlt|]; [|lia].
    specialize (A3 m Hlt). lia.
  - destruct (Z.lt_ge_cases (nth (n / 2) s 0) m) as [Hlt|]; [|lia].
    specialize (B4 m Hlt). lia.
Qed.

End MedianFacts.
(* ------------------------------------------------------------------------- *)
(** ** The rows kept and the values filled in *)
(* ------------------------------------------------------------------------- *)

Lemma Row_eqb_eq (a b : Row) : Row_eqb a b = true <-> a = b.
Proof.
  unfold Row_eqb. destruct (Row_eq_dec a b); split; congruence.
Qed.

Lemma count_key_count_occ (t : Row) (l : list Row) :
  count_key Row_eqb t l = Z.of_nat (count_occ Row_eq_dec l t).
Proof.
  unfold count_key. f_equal.
  induction l as [|x l IH]; simpl; [reflexivity|].
  unfold Row_eqb at 1.
  destruct (Row_eq_dec t x) as [->|Hne].
  - destruct (Row_eq_dec x x); [simpl; now rewrite IH | contradiction].
  - destruct (Row_eq_dec x t); [congruence | assumption].
Qed.

Lemma NoDup_map_fst_filter {A B} (p : A * B -> bool) (l : list (A * B)) :
  NoDup (map fst l) -> NoDup (map fst (filter p l)).
Proof.
  induction l as [|x l IH]; simpl; intros H; [constructor|].
  inversion H as [|? ? Hnot Hnd]; subst.
  destruct (p x); simpl; [|now apply IH].
  constructor; [|now apply IH].
  intros Hin. apply Hnot. apply in_map_iff in Hin.
  destruct Hin as [y [Hy Hin]]. apply filter_In in Hin.
  rewrite <- Hy. apply in_map. tauto.
Qed.

Lemma filter_map_comm {A B} (f : A -> B) (p : B -> bool) (l : list A) :
  filter p (map f l) = map f (filter (fun a => p (f a)) l).
Proof.
  induction l as [|x l IH]; simpl; [reflexivity|].
  destruct (p (f x)); simpl; now rewrite IH.
Qed.

Section CleaningRows.

Variable E : Engine.

Lemma cast_select_returns df df1 :
  cast_select E df = inr df1 ->
  exists i_pid i_age i_gen i_code i_desc i_date,
    resolve "patient_id" (columns df) = inr i_pid
    /\ resolve "diagnosis_date" (columns df) = inr i_date
    /\ df1 = {| date_type :=
                  nth i_date (map dataType (schema df)) StringType;
                frows := map (select_row E i_pid i_age i_gen i_code i_desc
                                i_date) (rows df) |}.
Proof.
  unfold cast_select.
  destruct (resolve "patient_id" _) as [|i_pid]; simpl; [discriminate|].
  destruct (resolve "age" _) as [|i_age]; simpl; [discriminate|].
  destruct (resolve "gender" _) as [|i_gen]; simpl; [discriminate|].
  destruct (resolve "diagnosis_code" _) as [|i_code]; simpl; [discriminate|].
  destruct (resolve "diagnosis_description" _) as [|i_desc]; simpl;
    [discriminate|].
  destruct (resolve "diagnosis_date" _) as [|i_date]; simpl; [discriminate|].
  intros H. inversion H.
  exists i_pid, i_age, i_gen, i_code, i_desc, i_date. now repeat split.
Qed.

Lemma patient_id_fill t s q r :
  patient_id (fill_date E t s (fill_age q r)) = patient_id r.
Proof. reflexivity. Qed.

Lemma age_fill t s q r :
  age (fill_date E t s (fill_age q r))
  = match age r with Some a => Some a | None => Some (double_to_int q) end.
Proof. simpl. now destruct (age r). Qed.

(** C9.  The frame [data_quality_check] returns has no row with a null
    [patient_id]: its rows are the rows of the input whose [patient_id]
    cell is not null, each of them, in the order of the input, under the
    casts and with the two fills; the input rows with a null [patient_id]
    are left out. *)
Theorem C9_null_patient_id_rows_dropped (df : DataFrame) (out : Frame)
    (rep : Report) :
  data_quality_check E df = inr (out, rep) ->
  (forall r, In r (frows out) -> patient_id r <> None)
  /\ exists i_pid i_age i_gen i_code i_desc i_date q pid,
       resolve "patient_id" (columns df) = inr i_pid
       /\ frows out
          = map (fun r => fill_date E (date_type out) pid
                            (fill_age q
                               (select_row E i_pid i_age i_gen i_code
                                  i_desc i_date r)))
                (filter (fun r => is_some (nth i_pid r None)) (rows df)).
Proof.
  intros H. apply data_quality_check_returns in H.
  destruct H as [df1 [q [first [pid [_ [Hs [_ [_ [_ [-> _]]]]]]]]]].
  split.
  - simpl. intros r Hr.
    apply in_map_iff in Hr. destruct Hr as [r1 [<- Hr]].
    apply in_map_iff in Hr. destruct Hr as [r0 [<- Hr]].
    apply filter_In in Hr. destruct Hr as [_ Hr].
    rewrite patient_id_fill. now destruct (patient_id r0).
  - apply cast_select_returns in Hs.
    destruct Hs as [i_pid [i_age [i_gen [i_code [i_desc [i_date
                      [Hp [_ ->]]]]]]]].
    exists i_pid, i_age, i_gen, i_code, i_desc, i_date, q, pid.
    split; [assumption|]. simpl.
    rewrite filter_map_comm, !map_map.
    f_equal. apply filter_ext. intros r. simpl.
    unfold cell. now destruct (nth i_pid r None).
Qed.

(** C2, as the code has it.  When [data_quality_check] returns, the
    [duplicate_records] of its report is the number of distinct tuples of
    the six mandatory columns, after the casts, that more than two rows
    carry: one for each such tuple, however many rows carry it. *)
Theorem C2_duplicate_records_counts_tuples (df : DataFrame) (out : Frame)
    (rep : Report) :
  data_quality_check E df = inr (out, rep) ->
  exists df1 ts,
    cast_select E df = inr df1
    /\ NoDup ts
    /\ (forall t, In t ts <-> (2 < count_occ Row_eq_dec (frows df1) t)%nat)
    /\ duplicate_records rep = Z.of_nat (List.length ts).
Proof.
  intros H. apply data_quality_check_returns in H.
  destruct H as [df1 [q [first [pid [_ [Hs [_ [_ [_ [_ ->]]]]]]]]]].
  exists df1,
    (map fst (filter (fun kc => 2 <? snd kc)
                (group_count Row_eqb (frows df1)))).
  destruct (group_count_spec Row_eqb Row_eqb_eq (frows df1)) as [Hnd Hin].
  split; [assumption|]. split; [now apply NoDup_map_fst_filter|]. split.
  - intros t. rewrite in_map_iff. split.
    + intros [[t' c] [<- Hf]]. apply filter_In in Hf.
      destruct Hf as [Hf Hc]. apply Hin in Hf. destruct Hf as [_ ->].
      simpl in *. apply Z.ltb_lt in Hc.
      rewrite count_key_count_occ in Hc. lia.
    + intros Hc. exists (t, count_key Row_eqb t (frows df1)).
      split; [reflexivity|]. apply filter_In. split.
      * apply Hin. split; [|reflexivity].
        apply (count_occ_In Row_eq_dec). lia.
      * simpl. apply Z.ltb_lt. rewrite count_key_count_occ. lia.
  - simpl. now rewrite length_map.
Qed.

(** C4, as the code has it.  When [data_quality_check] returns, there is a
    non-null age among the rows kept (those with a [patient_id]), and the
    ages of the rows returned are the ages of the rows kept with every null
    replaced by the median of the non-null ones cut to an integer toward
    zero, the column being of integer type. *)
Theorem C4_null_age_filled_with_truncated_median (df : DataFrame)
    (out : Frame) (rep : Report) :
  data_quality_check E df = inr (out, rep) ->
  exists df1 q,
    cast_select E df = inr df1
    /\ median (nonnull_ages
                 (filter (fun r => is_some (patient_id r)) (frows df1)))
       = Some q
    /\ median_of (nonnull_ages
                    (filter (fun r => is_some (patient_id r)) (frows df1)))
                 q
    /\ map age (frows out)
       = map (fun r => match age r with
                       | Some a => Some a
                       | None => Some (double_to_int q)
                       end)
             (filter (fun r => is_some (patient_id r)) (frows df1)).
Proof.
  intros H. apply data_quality_check_returns in H.
  destruct H as [df1 [q [first [pid [_ [Hs [Hm [_ [_ [-> _]]]]]]]]]].
  exists df1, q. split; [assumption|]. split; [assumption|].
  split; [now apply median_is_median|].
  simpl. rewrite !map_map. apply map_ext. intros r. apply age_fill.
Qed.

End CleaningRows.

(* ------------------------------------------------------------------------- *)
(** ** The gender ratio *)
(* ------------------------------------------------------------------------- *)

Lemma columns_pivot rs :
  columns (pivot_gender_count rs)
  = "diagnosis_code" :: map pivot_name (pivot_values rs).
Proof. unfold columns, pivot_gender_count. simpl. now rewrite map_map. Qed.

Lemma gender_in_pivot_values rs r :
  In r rs -> In (gender r) (pivot_values rs).
Proof.
  intros H. unfold pivot_values. apply sort_by_In.
  destruct (group_count_spec option_string_eqb option_string_eqb_eq
              (map gender rs)) as [_ Hin].
  change (gender r)
    with (fst (gender r, count_key option_string_eqb (gender r)
                           (map gender rs))).
  apply in_map, Hin. split; [now apply in_map | reflexivity].
Qed.

(** The cell that a gender name selects in the row of a diagnosis code. *)
Lemma pivot_lookup rs g i c :
  resolve g (columns (pivot_gender_count rs)) = inr i ->
  lower g <> "diagnosis_code" -> lower g <> "null" ->
  nth i (option_map VStr c :: map (pivot_cell rs c) (pivot_values rs)) None
  = if gender_count g c rs =? 0 then None
    else Some (VInt (gender_count g c rs)).
Proof.
  intros Hr Hcode Hnull. rewrite columns_pivot in Hr.
  apply resolve_unique in Hr. destruct Hr as [Hi [Hl Huniq]].
  assert (Hlc : lower "diagnosis_code" = "diagnosis_code") by reflexivity.
  assert (Hln : lower "null" = "null") by reflexivity.
  destruct i as [|j]; [simpl nth in Hl; congruence|].
  simpl in Hi. simpl nth in Hl. rewrite length_map in Hi.
  assert (Hj : (j < List.length (pivot_values rs))%nat) by lia.
  rewrite (nth_indep _ "" (pivot_name None)) in Hl
    by (rewrite length_map; assumption).
  rewrite map_nth in Hl.
  simpl. rewrite (nth_indep _ None (pivot_cell rs c None))
    by (rewrite length_map; assumption).
  rewrite map_nth.
  destruct (nth j (pivot_values rs) None) as [s|] eqn:Hg;
    [|simpl pivot_name in Hl; congruence].
  simpl pivot_name in Hl.
  assert (Hsame :
    filter (fun r => option_string_eqb (diagnosis_code r) c
                     && option_string_eqb (gender r) (Some s)) rs
    = filter (fun r => option_string_eqb (diagnosis_code r) c
                       && match gender r with
                          | Some s' => String.eqb (lower s') (lower g)
                          | None => false
                          end) rs).
  { apply filter_ext_in. intros r Hin. f_equal.
    destruct (gender r) as [s'|] eqn:Hgr; simpl; [|reflexivity].
    destruct (String.eqb (lower s') (lower g)) eqn:He.
    - apply String.eqb_eq in He.
      pose proof (gender_in_pivot_values rs r Hin) as Hv.
      rewrite Hgr in Hv. apply (In_nth _ _ None) in Hv.
      destruct Hv as [j' [Hj' Hn]].
      assert (S j' = S j).
      { apply Huniq; simpl; [rewrite length_map; lia|].
        rewrite (nth_indep _ "" (pivot_name None))
          by (rewrite length_map; assumption).
        now rewrite map_nth, Hn. }
      assert (j' = j) by lia. subst j'.
      rewrite Hg in Hn. inversion Hn. apply String.eqb_refl.
    - destruct (String.eqb s' s) eqn:He'; [|reflexivity].
      apply String.eqb_eq in He'. subst s'.
      rewrite Hl, String.eqb_refl in He. discriminate. }
  unfold pivot_cell, gender_count. now rewrite Hsame.
Qed.

Lemma round2_rounded (m : Z) (p : positive) :
  0 < m -> rounded_ratio m (Zpos p) (round2 (Qmake m p)).
Proof.
  intros Hm. unfold round2, rounded_ratio. simpl Qnum. simpl Qden.
  exists (Z.sgn m * ((200 * Z.abs m + Zpos p) / (2 * Zpos p))).
  split; [reflexivity|].
  rewrite Z.sgn_pos, Z.abs_eq, Z.mul_1_l by lia.
  pose proof (Z.div_mod (200 * m + Zpos p) (2 * Zpos p)) as Hd.
  pose proof (Z.mod_pos_bound (200 * m + Zpos p) (2 * Zpos p)) as Hb.
  nia.
Qed.

(** C7, as the code has it.  When [disease_gender_ratio] has a table to
    write, the table has one row for each diagnosis code of the cleaned
    table; writing m and f for the numbers of its rows of gender 'M' and of
    gender 'F' (letter case apart), the [ratio] of the row is m / f to two
    decimals, a half rounded up, when both are positive, and null when the
    code has no row of one of the two genders. *)
Theorem C7_gender_ratio_per_code (rs : list Row) (docs : list document) :
  gender_ratio_table rs = inr docs ->
  exists codes,
    NoDup codes
    /\ (forall c, In c codes <-> In c (map diagnosis_code rs))
    /\ Forall2
         (fun c doc =>
            exists ratio,
              doc = DocGenderRatio (option_map VStr c) ratio
              /\ match ratio with
                 | Some q =>
                     0 < gender_count "M" c rs /\ 0 < gender_count "F" c rs
                     /\ rounded_ratio (gender_count "M" c rs)
                          (gender_count "F" c rs) q
                 | None =>
                     gender_count "M" c rs = 0 \/ gender_count "F" c rs = 0
                 end)
         codes docs.
Proof.
  unfold gender_ratio_table.
  destruct (resolve "diagnosis_code" _) as [|i_code] eqn:Hc; simpl;
    [discriminate|].
  destruct (resolve "M" _) as [|i_m] eqn:Hm; simpl; [discriminate|].
  destruct (resolve "F" _) as [|i_f] eqn:Hf; simpl; [discriminate|].
  intros H. inversion H; subst docs; clear H.
  destruct (group_count_spec option_string_eqb option_string_eqb_eq
              (map diagnosis_code rs)) as [Hnd Hin].
  exists (map fst (group_count option_string_eqb (map diagnosis_code rs))).
  split; [assumption|]. split.
  - intros c. rewrite in_map_iff. split.
    + intros [[c' n] [<- Hc']]. now apply Hin in Hc'.
    + intros Hc'. exists (c, count_key option_string_eqb c
                                (map diagnosis_code rs)).
      split; [reflexivity | now apply Hin].
  - assert (Hzero : i_code = 0%nat).
    { rewrite columns_pivot in Hc. apply resolve_unique in Hc.
      destruct Hc as [_ [_ Huniq]]. symmetry. apply Huniq; simpl; [lia|].
      reflexivity. }
    subst i_code. rewrite map_map. clear Hnd Hin.
    induction (map fst (group_count option_string_eqb
                          (map diagnosis_code rs))) as [|c codes IH];
      cbn [map]; [constructor | constructor; [|exact IH]].
    rewrite (pivot_lookup rs "M" i_m c Hm) by (simpl; discriminate).
    rewrite (pivot_lookup rs "F" i_f c Hf) by (simpl; discriminate).
    eexists. split; [reflexivity|].
    assert (HM : 0 <= gender_count "M" c rs) by (unfold gender_count; lia).
    assert (HF : 0 <= gender_count "F" c rs) by (unfold gender_count; lia).
    destruct (gender_count "M" c rs =? 0) eqn:Em.
    + apply Z.eqb_eq in Em. simpl. now left.
    + apply Z.eqb_neq in Em.
      destruct (gender_count "F" c rs =? 0) eqn:Ef.
      * apply Z.eqb_eq in Ef. simpl. now right.
      * apply Z.eqb_neq in Ef. simpl.
        destruct (gender_count "F" c rs) as [|p|p] eqn:Hp; [lia | | lia].
        split; [lia|]. split; [lia|]. apply round2_rounded. lia.
Qed.

(* ------------------------------------------------------------------------- *)
(** ** One day later *)
(* ------------------------------------------------------------------------- *)

Module CalendarFacts.
Import Calendar CalendarCheck.

Lemma range_In lo n x :
  In x (range lo n) <-> lo <= x < lo + Z.of_nat n.
Proof.
  unfold range. rewrite in_map_iff. split.
  - intros [i [<- Hi]]. apply in_seq in Hi. lia.
  - intros H. exists (Z.to_nat (x - lo)). split; [lia|].
    apply in_seq. lia.
Qed.

Lemma date_eqb_eq a b : date_eqb a b = true -> a = b.
Proof.
  destruct a as [[y1 m1] d1], b as [[y2 m2] d2]. simpl.
  rewrite !andb_true_iff, !Z.eqb_eq. intros [[-> ->] ->]. reflexivity.
Qed.

Lemma forallb_range (f : Z -> bool) lo n x :
  forallb f (range lo n) = true -> lo <= x < lo + Z.of_nat n -> f x = true.
Proof.
  intros H Hx. apply (proj1 (forallb_forall f (range lo n)) H).
  now apply range_In.
Qed.

(** Between two numbers with the same quotient, the quotient is the same
    and the remainder moves with the number. *)
Lemma div_between k a n :
  0 < k -> a <= n <= a + 364 -> a / k = (a + 364) / k ->
  n / k = a / k /\ n mod k = a mod k + (n - a).
Proof.
  intros Hk Hn Hq.
  assert (H1 : a / k <= n / k) by (apply Z.div_le_mono; lia).
  assert (H2 : n / k <= (a + 364) / k) by (apply Z.div_le_mono; lia).
  assert (Hnq : n / k = a / k) by lia.
  split; [assumption|].
  rewrite (Z.mod_eq n k), (Z.mod_eq a k), Hnq by lia. ring.
Qed.

Lemma ord2ymd_parts n :
  ord2ymd n
  = let n' := n - 1 in
    let r0 := n' mod DI400Y in
    let r1 := r0 mod DI100Y in
    let r2 := r1 mod DI4Y in
    let year := n' / DI400Y * 400 + 1 + r0 / DI100Y * 100 + r1 / DI4Y * 4
                + r2 / 365 in
    if (r2 / 365 =? 4) || (r0 / DI100Y =? 4) then (year - 1, 12, 31)
    else
      let '(m, d) :=
        month_day ((r2 / 365 =? 3)
                   && (negb (r1 / DI4Y =? 24) || (r0 / DI100Y =? 3)))
                  (r2 mod 365) in
      (year, m, d).
Proof.
  unfold ord2ymd, month_day. cbv zeta.
  repeat match goal with
         | |- context [if ?b then _ else _] => destruct b
         end; reflexivity.
Qed.

Lemma years_ok : forallb year_factsb (range 1 401) = true.
Proof. vm_cast_no_check (eq_refl true). Qed.

Lemma months_ok :
  forallb
    (fun leapyear =>
       forallb
         (fun m =>
            forallb (month_factsb leapyear m)
              (range 1 (Z.to_nat (in_month leapyear m
                                  - (if m =? 12 then 1 else 0)))))
         (range 1 12))
    [true; false] = true.
Proof. vm_cast_no_check (eq_refl true). Qed.

(** Day [i] of year [y], counted from 0, for the first 365 days. *)
Lemma ord2ymd_in_year y i :
  1 <= y <= 401 -> 0 <= i <= 364 ->
  ord2ymd (days_before_year y + i + 1)
  = let '(m, d) := month_day (is_leap y) i in (y, m, d).
Proof.
  intros Hy Hi.
  pose proof (forallb_range _ 1 401 y years_ok ltac:(lia)) as F.
  unfold year_factsb in F. cbv zeta in F.
  rewrite !andb_true_iff, !negb_true_iff, !Z.eqb_eq, !Z.eqb_neq in F.
  destruct F as [[[[[[[[[[F400 F100] F4] F1] F0] N1] N100] Fy] Fl] _] _].
  apply Bool.eqb_prop in Fl.
  rewrite ord2ymd_parts. cbv zeta.
  replace (days_before_year y + i + 1 - 1) with (days_before_year y + i)
    by ring.
  set (a := days_before_year y) in *.
  destruct (div_between DI400Y a (a + i) ltac:(unfold DI400Y; lia)
              ltac:(lia) F400) as [Q0 R0].
  rewrite Q0, R0. replace (a + i - a) with i by ring.
  set (r0 := a mod DI400Y) in *.
  destruct (div_between DI100Y r0 (r0 + i) ltac:(unfold DI100Y; lia)
              ltac:(lia) F100) as [Q1 R1].
  rewrite Q1, R1. replace (r0 + i - r0) with i by ring.
  set (r1 := r0 mod DI100Y) in *.
  destruct (div_between DI4Y r1 (r1 + i) ltac:(unfold DI4Y; lia)
              ltac:(lia) F4) as [Q2 R2].
  rewrite Q2, R2. replace (r1 + i - r1) with i by ring.
  set (r2 := r1 mod DI4Y) in *.
  destruct (div_between 365 r2 (r2 + i) ltac:(lia) ltac:(lia) F1)
    as [Q3 R3].
  rewrite Q3, R3, F0. replace (r2 + i - r2) with i by ring.
  rewrite Fy, Fl.
  apply Z.eqb_neq in N1, N100. rewrite N1, N100. simpl orb.
  reflexivity.
Qed.

Lemma year_end y :
  1 <= y <= 401 ->
  days_before_year (y + 1)
  = days_before_year y + 365 + (if is_leap y then 1 else 0)
  /\ (is_leap y = true ->
      ord2ymd (days_before_year y + 366) = (y, 12, 31)).
Proof.
  intros Hy.
  pose proof (forallb_range _ 1 401 y years_ok ltac:(lia)) as F.
  unfold year_factsb in F. cbv zeta in F.
  rewrite !andb_true_iff in F.
  destruct F as [[_ Fn] Fe]. apply Z.eqb_eq in Fn.
  split; [assumption|]. intros Hl. rewrite Hl in Fe.
  now apply date_eqb_eq.
Qed.

Lemma month_step leapyear m d :
  1 <= m <= 12 -> 1 <= d <= in_month leapyear m -> (m, d) <> (12, 31) ->
  month_day leapyear (before_month leapyear m + d)
  = if d <? in_month leapyear m then (m, d + 1) else (m + 1, 1).
Proof.
  intros Hm Hd Hne.
  assert (Hl : In leapyear [true; false])
    by (destruct leapyear; simpl; tauto).
  pose proof (proj1 (forallb_forall _ _) months_ok leapyear Hl) as F1.
  cbv beta in F1.
  pose proof (forallb_range _ 1 12 m F1 ltac:(lia)) as F2.
  cbv beta in F2.
  assert (Hlast : m = 12 -> in_month leapyear m = 31)
    by (intros ->; unfold in_month; simpl; reflexivity).
  assert (Hr : 1 <= d < 1 + Z.of_nat (Z.to_nat
                  (in_month leapyear m - (if m =? 12 then 1 else 0)))).
  { destruct (Z.eqb_spec m 12) as [->|Hm12].
    - specialize (Hlast eq_refl).
      assert (d <> 31) by (intros ->; now apply Hne). lia.
    - lia. }
  pose proof (forallb_range _ 1 _ d F2 Hr) as F3.
  unfold month_factsb in F3.
  destruct (month_day leapyear (before_month leapyear m + d)) as [m' d'].
  destruct (d <? in_month leapyear m);
    apply andb_true_iff in F3; destruct F3 as [F3 F4];
    apply Z.eqb_eq in F3, F4; now subst.
Qed.

Lemma in_month_bounds leapyear m :
  1 <= m <= 12 ->
  before_month leapyear m + in_month leapyear m
  <= 365 + (if leapyear then 1 else 0)
  /\ 0 <= before_month leapyear m
  /\ (m <> 12 -> before_month leapyear m + in_month leapyear m <= 335).
Proof.
  intros Hm.
  assert (Hc : m = 1 \/ m = 2 \/ m = 3 \/ m = 4 \/ m = 5 \/ m = 6 \/ m = 7
               \/ m = 8 \/ m = 9 \/ m = 10 \/ m = 11 \/ m = 12) by lia.
  repeat (destruct Hc as [->|Hc];
          [destruct leapyear; vm_compute; repeat split; congruence|]).
  subst. destruct leapyear; vm_compute; repeat split; congruence.
Qed.

(** One day added through the ordinal lands on the next day of the
    calendar, in the years 1 to 400. *)
Lemma first_cycle_days y m d :
  1 <= y <= 400 -> 1 <= m <= 12 -> 1 <= d <= days_in_month y m ->
  ord2ymd (ymd2ord (y, m, d) + 1) = next_day (y, m, d).
Proof.
  intros Hy Hm Hd.
  change (days_in_month y m) with (in_month (is_leap y) m) in Hd.
  unfold ymd2ord, next_day.
  change (days_before_month y m) with (before_month (is_leap y) m).
  change (days_in_month y m) with (in_month (is_leap y) m).
  destruct (year_end y ltac:(lia)) as [Hnext Hlast].
  destruct (in_month_bounds (is_leap y) m Hm) as [Hb [Hb0 Hb12]].
  assert (Hm12 : m = 12 \/ m <> 12) by lia.
  pose proof (ord2ymd_in_year y) as Hin.
  pose proof (ord2ymd_in_year (y + 1) 0 ltac:(lia) ltac:(lia)) as Hnew.
  pose proof (month_step (is_leap y) m d Hm Hd) as Hstep.
  replace (days_before_year y + before_month (is_leap y) m + d + 1)
    with (days_before_year y + (before_month (is_leap y) m + d) + 1)
    by ring.
  destruct (Z.ltb_spec d (in_month (is_leap y) m)) as [Hlt|Hge].
  - (* the next day of the month *)
    destruct (Z.eq_dec (before_month (is_leap y) m + d) 365) as [He|Hne].
    + (* it is the 366th day of the year *)
      destruct (is_leap y); cbv iota in *; [|lia].
      rewrite He.
      assert (m = 12) by lia. subst m.
      assert (H12 : before_month true 12 = 335) by reflexivity.
      assert (d = 30) by lia. subst d.
      replace (days_before_year y + 365 + 1)
        with (days_before_year y + 366) by ring.
      now rewrite (Hlast eq_refl).
    + rewrite Hin by (destruct (is_leap y); cbv iota in *; lia).
      rewrite Hstep by (intros H; inversion H; subst;
                        destruct (is_leap y); vm_compute in Hlt;
                        discriminate).
      reflexivity.
  - assert (d = in_month (is_leap y) m) by lia.
    destruct (Z.ltb_spec m 12) as [Hlt12|Hge12].
    + (* the first day of the next month *)
      rewrite Hin by (destruct (is_leap y); cbv iota in *; lia).
      rewrite Hstep by (intros He; inversion He; lia).
      reflexivity.
    + (* the first day of the next year *)
      assert (m = 12) by lia. subst m.
      assert (H12 : before_month (is_leap y) 12 + in_month (is_leap y) 12
                    = 365 + (if is_leap y then 1 else 0))
        by (destruct (is_leap y); reflexivity).
      replace (days_before_year y + (before_month (is_leap y) 12 + d) + 1)
        with (days_before_year (y + 1) + 0 + 1) by lia.
      rewrite Hnew. destruct (is_leap (y + 1)); reflexivity.
Qed.

Lemma is_leap_shift y k : is_leap (y + 400 * k) = is_leap y.
Proof.
  unfold is_leap.
  replace (y + 400 * k) with (y + (100 * k) * 4) at 1 by ring.
  replace (y + 400 * k) with (y + (4 * k) * 100) at 1 by ring.
  replace (y + 400 * k) with (y + k * 400) by ring.
  now rewrite !Z.mod_add by lia.
Qed.

Lemma days_in_month_shift y k m :
  days_in_month (y + 400 * k) m = days_in_month y m.
Proof. unfold days_in_month. now rewrite is_leap_shift. Qed.

Lemma ymd2ord_shift y k m d :
  ymd2ord (y + 400 * k, m, d) = ymd2ord (y, m, d) + DI400Y * k.
Proof.
  unfold ymd2ord, days_before_month, days_before_year, DI400Y.
  rewrite is_leap_shift.
  replace (y + 400 * k - 1) with (y - 1 + (100 * k) * 4) at 2 by ring.
  replace (y + 400 * k - 1) with (y - 1 + (4 * k) * 100) at 2 by ring.
  replace (y + 400 * k - 1) with (y - 1 + k * 400) at 2 by ring.
  rewrite !Z.div_add by lia. ring.
Qed.

Lemma ord2ymd_shift n k :
  ord2ymd (n + DI400Y * k) = shift_year k (ord2ymd n).
Proof.
  unfold ord2ymd, shift_year.
  replace (n + DI400Y * k - 1) with (n - 1 + k * DI400Y) by ring.
  rewrite Z.div_add, Z.mod_add by (unfold DI400Y; lia).
  cbv zeta.
  repeat match goal with
         | |- context [if ?b then _ else _] => destruct b
         end; f_equal; f_equal; ring.
Qed.

Lemma next_day_shift y k m d :
  next_day (y + 400 * k, m, d) = shift_year k (next_day (y, m, d)).
Proof.
  unfold next_day, shift_year. rewrite days_in_month_shift.
  destruct (d <? days_in_month y m); [reflexivity|].
  destruct (m <? 12); [reflexivity|]. f_equal. f_equal. ring.
Qed.

Lemma days_in_month_small y m : days_in_month y m <= 31.
Proof.
  unfold days_in_month. destruct ((m =? 2) && is_leap y); [lia|].
  destruct (Z.to_nat m) as [|[|[|[|[|[|[|[|[|[|[|[|[|[|n]]]]]]]]]]]]]];
    simpl; lia.
Qed.

(** One day added to a date of the calendar gives the next day of the
    calendar. *)
Lemma ord2ymd_succ (y m d : Z) :
  1 <= y -> 1 <= m <= 12 -> 1 <= d <= days_in_month y m ->
  ord2ymd (ymd2ord (y, m, d) + 1) = next_day (y, m, d).
Proof.
  intros Hy Hm Hd.
  set (k := (y - 1) / 400). set (y0 := (y - 1) mod 400 + 1).
  assert (Hy0 : 1 <= y0 <= 400)
    by (unfold y0; pose proof (Z.mod_pos_bound (y - 1) 400); lia).
  assert (Hsplit : y = y0 + 400 * k)
    by (unfold y0, k; pose proof (Z.div_mod (y - 1) 400); lia).
  clearbody y0 k. subst y.
  rewrite days_in_month_shift in Hd.
  rewrite ymd2ord_shift, next_day_shift.
  replace (ymd2ord (y0, m, d) + DI400Y * k + 1)
    with (ymd2ord (y0, m, d) + 1 + DI400Y * k) by ring.
  rewrite ord2ymd_shift. f_equal.
  now apply first_cycle_days.
Qed.

Lemma valid_date_bounds y m d :
  valid_date (y, m, d) = true ->
  1 <= y <= 9999 /\ 1 <= m <= 12 /\ 1 <= d <= days_in_month y m.
Proof.
  unfold valid_date. rewrite !andb_true_iff, !Z.leb_le. lia.
Qed.

(** [d + timedelta(days=1)], when it returns, is the next day of the
    calendar. *)
Lemma add_days_next_day (d d' : date) :
  valid_date d = true -> add_days d 1 = inr d' -> d' = next_day d.
Proof.
  destruct d as [[y m] dd]. intros Hv. apply valid_date_bounds in Hv.
  unfold add_days.
  destruct ((0 <? ymd2ord (y, m, dd) + 1)
            && (ymd2ord (y, m, dd) + 1 <=? MAXORDINAL)); [|discriminate].
  intros H. inversion H. apply ord2ymd_succ; lia.
Qed.

End CalendarFacts.

(* ------------------------------------------------------------------------- *)
(** ** The run *)
(* ------------------------------------------------------------------------- *)

Lemma store_after_added o st dst :
  store_after o st dst = st dst ++ added o dst.
Proof.
  unfold store_after, added, named_outputs, append_to. simpl.
  repeat match goal with
         | |- context [if ?b then _ else _] => destruct b
         end; rewrite <- ?app_assoc, ?app_nil_r; simpl;
    rewrite ?app_nil_r; reflexivity.
Qed.

Lemma destinations_NoDup : NoDup destinations.
Proof.
  unfold destinations.
  repeat (constructor;
          [simpl; intros H;
           repeat (destruct H as [H|H]; [discriminate H|]); exact H|]).
  constructor.
Qed.

Ltac run_step :=
  unfold get_config, load, write_append, bind, ret, lift;
  cbn [fst snd set_mongo set_config set_config_properties csv mongo mongo_up
       config config_properties];
  unfold get_config, load, write_append, bind, ret, lift; cbv beta.

Section RunFacts.

Variable E : Engine.

(** A run that goes to its end, step by step. *)
Lemma try_body_runs w c o d d' :
  config w = Some c ->
  run_outputs E c (csv w) = Some o ->
  writable w = true ->
  Calendar.strptime (file_date c) = inr d ->
  Calendar.add_days d 1 = inr d' ->
  try_body E w
  = (inr tt,
     {| config_properties :=
          Some {| file_path := file_path c;
                  file_date := Calendar.strftime d' |};
        config := Some {| file_path := file_path c;
                          file_date := Calendar.strftime d' |};
        csv := csv w;
        mongo := store_after o (mongo w);
        mongo_up := mongo_up w |}).
Proof.
  intros Hc Ho Hw Hp Ha.
  unfold writable, destinations in Hw. simpl in Hw.
  rewrite !andb_true_iff in Hw.
  destruct Hw as [H1 [H2 [H3 [H4 [H5 [H6 [H7 _]]]]]]].
  unfold run_outputs in Ho.
  destruct (csv w (today_path c)) as [df|] eqn:Hdf; [|discriminate].
  destruct (data_quality_check E df) as [e|[out rep]] eqn:Hq; [discriminate|].
  destruct (gender_ratio_table (frows out)) as [e|ratio] eqn:Hr;
    [discriminate|].
  destruct (csv w (all_path c)) as [dfall|] eqn:Hall; [|discriminate].
  destruct (trend_table E dfall) as [e|trend] eqn:Ht; [discriminate|].
  inversion Ho; subst o; clear Ho.
  unfold try_body, read_and_save_raw_data, get_date_filepath, get_config,
    load, save_cleaning_report, disease_gender_ratio, most_common_diseases,
    age_category, senior_citizen_flag, disease_trend_over_the_week,
    save_processing_date_info, write_append, bind, ret, lift,
    collection_name.
  cbv beta. rewrite Hc. run_step.
  rewrite Hdf, H1. run_step.
  rewrite Hq. run_step.
  rewrite H2. run_step.
  rewrite Hr, H3. run_step.
  rewrite H4. run_step.
  rewrite H5. run_step.
  rewrite H6. run_step.
  rewrite Hc. run_step. rewrite Hall. run_step.
  rewrite Ht, H7. run_step.
  rewrite Hc. run_step. rewrite Hp. run_step. rewrite Ha. reflexivity.
Qed.

End RunFacts.

(* ------------------------------------------------------------------------- *)
(** ** Steps that only append *)
(* ------------------------------------------------------------------------- *)

Lemma grows_refl st : grows st st.
Proof. intros dst. exists []. now rewrite app_nil_r. Qed.

Lemma grows_trans st1 st2 st3 : grows st1 st2 -> grows st2 st3 -> grows st1 st3.
Proof.
  intros H12 H23 dst. destruct (H12 dst) as [d1 H1], (H23 dst) as [d2 H2].
  exists (d1 ++ d2). now rewrite H2, H1, app_assoc.
Qed.

Lemma grows_append_to dst docs st : grows st (append_to dst docs st).
Proof.
  intros k. unfold append_to. destruct (destination_eqb k dst).
  - now exists docs.
  - exists []. now rewrite app_nil_r.
Qed.

Lemma appends_only_ret {A} (a : A) : appends_only (ret a).
Proof. intros w. split; [reflexivity | apply grows_refl]. Qed.

Lemma appends_only_lift {A} (r : res A) : appends_only (lift r).
Proof. intros w. split; [reflexivity | apply grows_refl]. Qed.

Lemma appends_only_load path : appends_only (load path).
Proof.
  intros w. unfold load. destruct (csv w path); simpl;
    (split; [reflexivity | apply grows_refl]).
Qed.

Lemma appends_only_get_config : appends_only get_config.
Proof.
  intros w. unfold get_config. destruct (config w); simpl;
    (split; [reflexivity | apply grows_refl]).
Qed.

Lemma appends_only_write_append c docs : appends_only (write_append c docs).
Proof.
  intros w. unfold write_append. destruct (mongo_up w _); simpl.
  - split; [reflexivity | apply grows_append_to].
  - split; [reflexivity | apply grows_refl].
Qed.

Lemma appends_only_bind {A B} (m : M A) (k : A -> M B) :
  appends_only m -> (forall a, appends_only (k a)) -> appends_only (bind m k).
Proof.
  intros Hm Hk w. unfold bind. specialize (Hm w).
  destruct (m w) as [[e|a] w1]; simpl in *; [assumption|].
  destruct Hm as [Hc Hg]. specialize (Hk a w1). destruct Hk as [Hc' Hg'].
  split; [congruence | eapply grows_trans; eassumption].
Qed.

Lemma keeps_cursor_of_appends_only {A} (m : M A) :
  appends_only m -> keeps_cursor_on_error m.
Proof. intros H w. destruct (H w) as [Hc Hg]. now split. Qed.

Lemma keeps_cursor_bind {A B} (m : M A) (k : A -> M B) :
  appends_only m -> (forall a, keeps_cursor_on_error (k a)) ->
  keeps_cursor_on_error (bind m k).
Proof.
  intros Hm Hk w. unfold bind. specialize (Hm w).
  destruct (m w) as [[e|a] w1]; simpl in *.
  - destruct Hm as [Hc Hg]. split; [assumption | intros; assumption].
  - destruct Hm as [Hc Hg]. specialize (Hk a w1). destruct Hk as [Hg' Hc'].
    split; [eapply grows_trans; eassumption|].
    intros e He. rewrite (Hc' e He). assumption.
Qed.

Create HintDb appends.

#[export] Hint Resolve appends_only_ret appends_only_lift appends_only_load
  appends_only_get_config appends_only_write_append : appends.

Ltac appends :=
  repeat (apply appends_only_bind; [|intros ?]); auto with appends.

Lemma appends_only_read_and_save_raw_data :
  appends_only read_and_save_raw_data.
Proof. unfold read_and_save_raw_data, get_date_filepath. appends. Qed.

Section StepFacts.

Variable E : Engine.

Lemma appends_only_disease_gender_ratio df :
  appends_only (disease_gender_ratio df).
Proof. unfold disease_gender_ratio. appends. Qed.

Lemma appends_only_disease_trend_over_the_week :
  appends_only (disease_trend_over_the_week E).
Proof. unfold disease_trend_over_the_week. appends. Qed.

Lemma keeps_cursor_save_processing_date_info :
  keeps_cursor_on_error save_processing_date_info.
Proof.
  unfold save_processing_date_info.
  apply keeps_cursor_bind; [apply appends_only_get_config | intros c].
  apply keeps_cursor_bind; [apply appends_only_lift | intros d].
  apply keeps_cursor_bind; [apply appends_only_lift | intros d'].
  intros w. simpl. split; [apply grows_refl | discriminate].
Qed.

(** Whatever happens in the body of [try], the store only grows, and the
    cursor file is as it was unless the body ran to its end. *)
Lemma keeps_cursor_try_body : keeps_cursor_on_error (try_body E).
Proof.
  unfold try_body.
  apply keeps_cursor_bind;
    [apply appends_only_read_and_save_raw_data | intros df].
  apply keeps_cursor_bind; [apply appends_only_lift | intros info].
  apply keeps_cursor_bind;
    [apply appends_only_write_append | intros _].
  apply keeps_cursor_bind;
    [apply appends_only_disease_gender_ratio | intros _].
  apply keeps_cursor_bind; [apply appends_only_write_append | intros _].
  apply keeps_cursor_bind; [apply appends_only_write_append | intros _].
  apply keeps_cursor_bind; [apply appends_only_write_append | intros _].
  apply keeps_cursor_bind;
    [apply appends_only_disease_trend_over_the_week | intros _].
  apply keeps_cursor_save_processing_date_info.
Qed.

End StepFacts.

Ltac run_step_in H :=
  unfold get_config, load, write_append, bind, ret, lift in H;
  cbn [fst snd set_mongo set_config set_config_properties csv mongo mongo_up
       config config_properties] in H;
  unfold get_config, load, write_append, bind, ret, lift in H;
  cbv beta in H.

Section RunInversion.

Variable E : Engine.

(** A run that went to its end has met no error on its way. *)
Lemma try_body_ended w :
  fst (try_body E w) = inr tt ->
  exists c o d d',
    config w = Some c
    /\ run_outputs E c (csv w) = Some o
    /\ writable w = true
    /\ Calendar.strptime (file_date c) = inr d
    /\ Calendar.add_days d 1 = inr d'.
Proof.
  intros H.
  unfold try_body, read_and_save_raw_data, get_date_filepath,
    save_cleaning_report, disease_gender_ratio, most_common_diseases,
    age_category, senior_citizen_flag, disease_trend_over_the_week,
    save_processing_date_info, collection_name in H.
  run_step_in H.
  destruct (config w) as [c|] eqn:Hc; run_step_in H; [|discriminate].
  destruct (csv w (today_path c)) as [df|] eqn:Hdf; run_step_in H;
    [|discriminate].
  destruct (mongo_up w (database_name, "healthcare_raw_data")) eqn:H1;
    run_step_in H; [|discriminate].
  destruct (data_quality_check E df) as [e|[out rep]] eqn:Hq; run_step_in H;
    [discriminate|].
  destruct (mongo_up w (database_name, "cleaning_report")) eqn:H2;
    run_step_in H; [|discriminate].
  destruct (gender_ratio_table (frows out)) as [e|ratio] eqn:Hr;
    run_step_in H; [discriminate|].
  destruct (mongo_up w (database_name, "disease_gender_ratio_data")) eqn:H3;
    run_step_in H; [|discriminate].
  destruct (mongo_up w (database_name, "most_common_diseases_data")) eqn:H4;
    run_step_in H; [|discriminate].
  destruct (mongo_up w (database_name, "age_category_data")) eqn:H5;
    run_step_in H; [|discriminate].
  destruct (mongo_up w (database_name, "senior_citizen_flag_data")) eqn:H6;
    run_step_in H; [|discriminate].
  rewrite Hc in H. run_step_in H.
  destruct (csv w (all_path c)) as [dfall|] eqn:Hall; run_step_in H;
    [|discriminate].
  destruct (trend_table E dfall) as [e|trend] eqn:Ht; run_step_in H;
    [discriminate|].
  destruct (mongo_up w (database_name, "disease_trend_over_the_week_data"))
    eqn:H7; run_step_in H; [|discriminate].
  rewrite Hc in H. run_step_in H.
  destruct (Calendar.strptime (file_date c)) as [e|d] eqn:Hp; run_step_in H;
    [discriminate|].
  destruct (Calendar.add_days d 1) as [e|d'] eqn:Ha; run_step_in H;
    [discriminate|].
  eexists c, _, d, d'. split; [reflexivity|]. split.
  - unfold run_outputs. rewrite Hdf, Hq, Hr, Hall, Ht. reflexivity.
  - split; [|split; assumption].
    unfold writable, destinations. simpl.
    now rewrite H1, H2, H3, H4, H5, H6, H7.
Qed.

End RunInversion.

Module CursorText.
Import Calendar CalendarCheck CalendarFacts.

Lemma digit_of_digit_char k : 0 <= k <= 9 -> digit_of (digit_char k) = Some k.
Proof.
  intros H.
  assert (Hk : k = 0 \/ k = 1 \/ k = 2 \/ k = 3 \/ k = 4 \/ k = 5 \/ k = 6
               \/ k = 7 \/ k = 8 \/ k = 9) by lia.
  repeat (destruct Hk as [->|Hk]; [reflexivity|]). now subst.
Qed.

Lemma months_days_parse :
  forallb
    (fun m =>
       forallb
         (fun d =>
            match first_day (match_m (String.append (two_digits m)
                                                    (two_digits d))) with
            | Some (m', d', EmptyString) => (m' =? m) && (d' =? d)
            | _ => false
            end)
         (range 1 31))
    (range 1 12) = true.
Proof. vm_cast_no_check (eq_refl true). Qed.

Lemma first_day_two_digits m d :
  1 <= m <= 12 -> 1 <= d <= 31 ->
  first_day (match_m (String.append (two_digits m) (two_digits d)))
  = Some (m, d, EmptyString).
Proof.
  intros Hm Hd.
  pose proof (forallb_range _ 1 12 m months_days_parse ltac:(lia)) as H1.
  cbv beta in H1.
  pose proof (forallb_range _ 1 31 d H1 ltac:(lia)) as H2.
  cbv beta in H2.
  destruct (first_day _) as [[[m' d'] [|? ?]]|]; try discriminate.
  apply andb_true_iff in H2. destruct H2 as [Hm' Hd'].
  apply Z.eqb_eq in Hm', Hd'. now subst.
Qed.

(** From the year 1000 on [%Y] prints four digits, and the text of a date
    is in the form YYYYMMDD. *)
Lemma strftime_yyyymmdd (d : date) :
  1000 <= fst (fst d) -> strftime d = yyyymmdd d.
Proof.
  destruct d as [[y m] dd]. simpl. intros Hy.
  unfold strftime, yyyymmdd, year_digits.
  destruct (y <? 10) eqn:H1; [apply Z.ltb_lt in H1; lia|].
  destruct (y <? 100) eqn:H2; [apply Z.ltb_lt in H2; lia|].
  destruct (y <? 1000) eqn:H3; [apply Z.ltb_lt in H3; lia|].
  reflexivity.
Qed.

(** A date in the form YYYYMMDD is read by [strptime] as that date. *)
Lemma strptime_yyyymmdd (d : date) :
  valid_date d = true -> strptime (yyyymmdd d) = inr d.
Proof.
  destruct d as [[y m] dd]. intros Hv.
  pose proof (valid_date_bounds _ _ _ Hv) as [Hyb [Hm Hd]].
  pose proof (days_in_month_small y m) as Hsmall.
  unfold yyyymmdd.
  unfold four_digits. cbn [String.append].
  unfold strptime, match_Y.
  rewrite !digit_of_digit_char by (Z.div_mod_to_equations; lia).
  replace (1000 * (y / 1000) + 100 * (y / 100 mod 10)
           + 10 * (y / 10 mod 10) + y mod 10) with y
    by (Z.div_mod_to_equations; lia).
  rewrite first_day_two_digits by lia. now rewrite Hv.
Qed.

(** The text that [strftime] prints for a date of the year 1000 or later
    is read back by [strptime] as that date. *)
Lemma strptime_strftime (d : date) :
  valid_date d = true -> 1000 <= fst (fst d) ->
  strptime (strftime d) = inr d.
Proof.
  intros Hv Hy. rewrite (strftime_yyyymmdd d Hy).
  now apply strptime_yyyymmdd.
Qed.

End CursorText.

(* ------------------------------------------------------------------------- *)
(** ** The script as a whole *)
(* ------------------------------------------------------------------------- *)

Lemma strptime_valid s d :
  Calendar.strptime s = inr d -> Calendar.valid_date d = true.
Proof.
  unfold Calendar.strptime.
  destruct (Calendar.match_Y s) as [[y s1]|]; [|discriminate].
  destruct (Calendar.first_day _) as [[[m dd] [|? ?]]|]; try discriminate.
  destruct (Calendar.valid_date (y, m, dd)) eqn:Hv; [|discriminate].
  intros H. inversion H. now subst.
Qed.

Lemma added_own o n docs :
  In (n, docs) (named_outputs o) -> added o (database_name, n) = docs.
Proof.
  unfold named_outputs. simpl.
  intros H.
  repeat (destruct H as [H|H];
          [inversion H; subst; unfold added, named_outputs; simpl;
           now rewrite ?app_nil_r|]).
  destruct H.
Qed.

Lemma destination_eqb_eq a b : destination_eqb a b = true <-> a = b.
Proof.
  destruct a as [a1 a2], b as [b1 b2]. unfold destination_eqb. simpl.
  rewrite andb_true_iff, !String.eqb_eq.
  split; [intros [-> ->]; reflexivity | intros H; now inversion H].
Qed.

Lemma append_to_own dst docs st : append_to dst docs st dst = st dst ++ docs.
Proof.
  unfold append_to.
  now rewrite (proj2 (destination_eqb_eq dst dst) eq_refl).
Qed.

Lemma append_to_other dst docs st k :
  k <> dst -> append_to dst docs st k = st k.
Proof.
  intros H. unfold append_to.
  destruct (destination_eqb k dst) eqn:Hk; [|reflexivity].
  apply destination_eqb_eq in Hk. contradiction.
Qed.

Lemma added_elsewhere o dst :
  (forall n, In n destinations -> dst <> (database_name, n)) ->
  added o dst = [].
Proof.
  intros H. unfold added, named_outputs. cbn [flat_map fst snd].
  repeat match goal with
         | |- context [destination_eqb dst (database_name, ?n)] =>
             let Hn := fresh "Hn" in
             destruct (destination_eqb dst (database_name, n)) eqn:Hn;
             [apply destination_eqb_eq in Hn; exfalso;
              apply (H n); [unfold destinations; simpl; tauto | exact Hn]|]
         end.
  reflexivity.
Qed.

Section Script.

Variable E : Engine.

Lemma main_runs w c o d d' :
  config_properties w = Some c ->
  run_outputs E c (csv w) = Some o ->
  writable w = true ->
  Calendar.strptime (file_date c) = inr d ->
  Calendar.add_days d 1 = inr d' ->
  main E w
  = {| config_properties :=
         Some {| file_path := file_path c;
                 file_date := Calendar.strftime d' |};
       config := Some {| file_path := file_path c;
                         file_date := Calendar.strftime d' |};
       csv := csv w;
       mongo := store_after o (mongo w);
       mongo_up := mongo_up w |}.
Proof.
  intros Hc Ho Hw Hp Ha. unfold main.
  rewrite (try_body_runs E (set_config w (config_properties w)) c o d d');
    try assumption; reflexivity.
Qed.

Lemma main_ended w :
  succeeds E w = true ->
  exists c o d d',
    config_properties w = Some c
    /\ run_outputs E c (csv w) = Some o
    /\ writable w = true
    /\ Calendar.strptime (file_date c) = inr d
    /\ Calendar.add_days d 1 = inr d'.
Proof.
  unfold succeeds.
  destruct (fst (try_body E (set_config w (config_properties w))))
    as [e|[]] eqn:H; [discriminate|].
  intros _. apply try_body_ended in H.
  destruct H as [c [o [d [d' [Hc [Ho [Hw [Hp Ha]]]]]]]].
  now exists c, o, d, d'.
Qed.



(** C8.  Whatever a run does, every collection holds afterwards what it
    held before, in the same order, and after it what the run added.  When
    the run goes to its end, each of the seven outputs (the rows of the
    file, the report, and the tables of the five transformations) is added
    at the end of the collection of its own name, the seven names are
    different, no other collection changes, and this for every content of
    the store, which the run does not read; a second run on the same
    input, the cursor put back, adds every output once more. *)
Theorem C8_outputs_are_appended (w : World) :
  (forall dst, exists docs, mongo (main E w) dst = mongo w dst ++ docs)
  /\ (succeeds E w = true ->
      exists c raw_data_df quality_data_df cleaning_report ratio all_df
             trend,
        config_properties w = Some c
        /\ csv w (today_path c) = Some raw_data_df
        /\ data_quality_check E raw_data_df
           = inr (quality_data_df, cleaning_report)
        /\ gender_ratio_table (frows quality_data_df) = inr ratio
        /\ csv w (all_path c) = Some all_df
        /\ trend_table E all_df = inr trend
        /\ let outputs :=
             [("healthcare_raw_data",
               map (DocRaw (columns raw_data_df)) (rows raw_data_df));
              ("cleaning_report", [DocReport cleaning_report]);
              ("disease_gender_ratio_data", ratio);
              ("most_common_diseases_data",
               most_common_table (frows quality_data_df));
              ("age_category_data",
               age_category_table (frows quality_data_df));
              ("senior_citizen_flag_data",
               senior_citizen_table (frows quality_data_df));
              ("disease_trend_over_the_week_data", trend)] in
           NoDup (map fst outputs)
           /\ (forall st n docs,
                 In (n, docs) outputs ->
                 mongo (main E (set_mongo w st)) (database_name, n)
                 = st (database_name, n) ++ docs)
           /\ (forall st dst,
                 (forall n, In n (map fst outputs) ->
                            dst <> (database_name, n)) ->
                 mongo (main E (set_mongo w st)) dst = st dst)
           /\ (forall n docs,
                 In (n, docs) outputs ->
                 mongo (main E (set_config_properties (main E w)
                                  (config_properties w)))
                   (database_name, n)
                 = (mongo w (database_name, n) ++ docs) ++ docs)).
Proof.
  split.
  - destruct (keeps_cursor_try_body E (set_config w (config_properties w)))
      as [Hg _]. exact Hg.
  - intros H. destruct (main_ended w H)
      as [c [o [d [d' [Hc [Ho [Hw [Hp Ha]]]]]]]].
    pose proof Ho as Hout. unfold run_outputs in Hout.
    destruct (csv w (today_path c)) as [df|] eqn:Hdf; [|discriminate].
    destruct (data_quality_check E df) as [e|[out rep]] eqn:Hq;
      [discriminate|].
    destruct (gender_ratio_table (frows out)) as [e|ratio] eqn:Hr;
      [discriminate|].
    destruct (csv w (all_path c)) as [dfall|] eqn:Hall; [|discriminate].
    destruct (trend_table E dfall) as [e|trend] eqn:Ht; [discriminate|].
    inversion Hout as [Ho']; clear Hout.
    exists c, df, out, rep, ratio, dfall, trend.
    repeat (split; [first [assumption | reflexivity]|]).
    cbv zeta. split; [exact destinations_NoDup|]. split; [|split].
    + intros st n docs Hin.
      rewrite (main_runs (set_mongo w st) c o d d' Hc Ho Hw Hp Ha).
      simpl. rewrite store_after_added. f_equal.
      apply added_own. now rewrite <- Ho'.
    + intros st dst Hdst.
      rewrite (main_runs (set_mongo w st) c o d d' Hc Ho Hw Hp Ha).
      simpl. rewrite store_after_added.
      rewrite (added_elsewhere o dst Hdst). apply app_nil_r.
    + intros n docs Hin.
      rewrite (main_runs w c o d d' Hc Ho Hw Hp Ha).
      match goal with
      | |- context [main E ?w2] =>
          rewrite (main_runs w2 c o d d' Hc Ho Hw Hp Ha)
      end.
      simpl. rewrite !store_after_added.
      now rewrite (added_own o n docs) by now rewrite <- Ho'.
Qed.

(** C5, as the code has it.  In a run that goes to its end, four of the
    five transformations write a table computed from the cleaned table
    that [data_quality_check] returned, the same for the four, and from
    nothing else; [disease_trend_over_the_week] writes a table computed
    from the frame read from all the files under [file_path] and does not
    take the cleaned table. *)
Theorem C5_four_transformations_read_the_cleaned_table (w : World) :
  succeeds E w = true ->
  exists c quality_data_df all_df ratio trend,
    config_properties w = Some c
    /\ cleaned_table E w = Some quality_data_df
    /\ csv w (all_path c) = Some all_df
    /\ gender_ratio_table (frows quality_data_df) = inr ratio
    /\ trend_table E all_df = inr trend
    /\ mongo (main E w) (database_name, "disease_gender_ratio_data")
       = mongo w (database_name, "disease_gender_ratio_data") ++ ratio
    /\ mongo (main E w) (database_name, "most_common_diseases_data")
       = mongo w (database_name, "most_common_diseases_data")
         ++ most_common_table (frows quality_data_df)
    /\ mongo (main E w) (database_name, "age_category_data")
       = mongo w (database_name, "age_category_data")
         ++ age_category_table (frows quality_data_df)
    /\ mongo (main E w) (database_name, "senior_citizen_flag_data")
       = mongo w (database_name, "senior_citizen_flag_data")
         ++ senior_citizen_table (frows quality_data_df)
    /\ mongo (main E w) (database_name, "disease_trend_over_the_week_data")
       = mongo w (database_name, "disease_trend_over_the_week_data")
         ++ trend.
Proof.
  intros H. destruct (main_ended w H)
    as [c [o [d [d' [Hc [Ho [Hw [Hp Ha]]]]]]]].
  rewrite (main_runs w c o d d' Hc Ho Hw Hp Ha). simpl mongo.
  unfold run_outputs in Ho. unfold cleaned_table. rewrite Hc.
  destruct (csv w (today_path c)) as [df|]; [|discriminate].
  destruct (data_quality_check E df) as [e|[out rep]]; [discriminate|].
  destruct (gender_ratio_table (frows out)) as [e|ratio] eqn:Hr;
    [discriminate|].
  destruct (csv w (all_path c)) as [dfall|] eqn:Hall; [|discriminate].
  destruct (trend_table E dfall) as [e|trend] eqn:Ht; [discriminate|].
  inversion Ho; subst o; clear Ho.
  exists c, out, dfall, ratio, trend.
  rewrite !store_after_added.
  repeat split; try assumption; try reflexivity;
    unfold added, named_outputs; simpl; now rewrite ?app_nil_r.
Qed.

End Script.

(* ------------------------------------------------------------------------- *)
(** ** The statements on the sample inputs *)
(* ------------------------------------------------------------------------- *)

Module Examples.
Import Sample.

(** C1.  On a file whose last row has no date, the null is not replaced by
    the latest date: the value that line 90 takes from the latest row is
    its first field, [patient_id], and the null becomes that text cast to
    the type of the column, which is what the engine makes of "P1" as a
    date, and "P1" itself in a column of text. *)
Theorem C1_null_date_filled_from_patient_id (E : Engine) :
  (exists out rep,
     data_quality_check E late_frame = inr (out, rep)
     /\ map diagnosis_date (frows out)
        = [Some (VDate 19570); option_map VDate (cast_string_date E "P1")])
  /\ (exists out rep,
        data_quality_check E late_text_frame = inr (out, rep)
        /\ map diagnosis_date (frows out)
           = [Some (VStr "01/08/2023"); Some (VStr "P1")]).
Proof.
  split; eexists; eexists; split; reflexivity.
Qed.

(** C2 as the specification words it fails: of three equal rows, each is
    in a group of three, and [duplicate_records] is 1, not 3. *)
Lemma C2_counterexample_three_equal_rows :
  ~ exists E, duplicate_rows_counted E triple_frame.
Proof.
  intros [E H]. specialize (H _ _ _ eq_refl eq_refl).
  vm_compute in H. discriminate H.
Qed.

Lemma C2_witness :
  exists out rep df1 ts,
    data_quality_check engine triple_frame = inr (out, rep)
    /\ duplicate_records rep = 1
    /\ cast_select engine triple_frame = inr df1
    /\ NoDup ts
    /\ (forall t, In t ts
                  <-> (2 < count_occ Row_eq_dec (frows df1) t)%nat)
    /\ duplicate_records rep = Z.of_nat (List.length ts).
Proof.
  destruct (C2_duplicate_records_counts_tuples engine triple_frame _ _
              eq_refl) as [df1 [ts [Hs [Hnd [Hin Hlen]]]]].
  eexists _, _, df1, ts.
  split; [reflexivity|]. split; [reflexivity|].
  split; [exact Hs|]. split; [exact Hnd|]. split; [exact Hin | exact Hlen].
Defined.

(** C3 as the specification words it fails: a file with the line of the
    six column names and no row lacks no column, and [data_quality_check]
    raises on it, for there is no age to take a median of. *)
Lemma C3_counterexample_header_only_file :
  ~ exists E, raises_iff_column_missing E header_only_frame.
Proof.
  intros [E [H _]].
  destruct H as [c [Hin Hout]]; [eexists; reflexivity|].
  apply Hout. vm_compute in Hin. vm_compute.
  repeat (destruct Hin as [<-|Hin]; [tauto|]). destruct Hin.
Qed.

(** C3 on two files: one with the six columns, one without [gender]. *)
Lemma C3_witness :
  check_mandatory (columns day_frame) mandatory_fields [] = ([], None)
  /\ exists c, data_quality_check engine short_frame
               = inl (ValueError_mandatory c).
Proof.
  split.
  - apply (proj2 (C3_missing_column_error_iff engine day_frame)).
    intros c Hc. vm_compute in Hc. vm_compute.
    repeat (destruct Hc as [<-|Hc]; [tauto|]). destruct Hc.
  - apply (proj1 (C3_missing_column_error_iff engine short_frame)).
    exists "gender". split; [vm_compute; tauto|].
    vm_compute. intros H.
    repeat (destruct H as [H|H]; [discriminate H|]). exact H.
Defined.

(** C4 as the specification words it fails: with ages 30 and 41 the
    median is 35.5 and the null age becomes 35. *)
Lemma C4_counterexample_half_median :
  ~ exists E, null_ages_take_median E half_frame.
Proof.
  intros [E H]. specialize (H _ _ _ _ eq_refl eq_refl eq_refl).
  vm_compute in H.
  inversion H as [|? ? ? ? _ H1]; subst.
  inversion H1 as [|? ? ? ? _ H2]; subst.
  inversion H2 as [|? ? ? ? H3 _]; subst.
  destruct (H3 eq_refl) as [a [Ha Hq]].
  inversion Ha; subst a. vm_compute in Hq. discriminate Hq.
Qed.

Lemma C4_witness :
  exists out rep df1 q,
    data_quality_check engine half_frame = inr (out, rep)
    /\ cast_select engine half_frame = inr df1
    /\ median (nonnull_ages
                 (filter (fun r => is_some (patient_id r)) (frows df1)))
       = Some q
    /\ q = Qmake 71 2
    /\ median_of [30; 41] q
    /\ map age (frows out) = [Some 30; Some 41; Some 35].
Proof.
  destruct (C4_null_age_filled_with_truncated_median engine half_frame
              _ _ eq_refl) as [df1 [q [Hs [Hm [Hmed Ha]]]]].
  eexists _, _, df1, q. split; [reflexivity|]. split; [exact Hs|].
  split; [exact Hm|].
  vm_compute in Hs. inversion Hs; subst df1.
  vm_compute in Hm. inversion Hm; subst q.
  split; [reflexivity|]. split; [exact Hmed | exact Ha].
Defined.

(** C5 as the specification words it fails: two directories with the same
    file of the day give the same cleaned table, and the weekly trend
    written differs, for it is computed from all the files. *)
Lemma C5_counterexample_trend_reads_all_files :
  ~ exists E, trend_reads_cleaned_table_only E.
Proof.
  intros [E H].
  specialize (H world_one_file world_two_files eq_refl eq_refl eq_refl
                (fun _ => eq_refl)).
  vm_compute in H. discriminate H.
Qed.

Lemma C5_witness :
  succeeds engine world_one_file = true
  /\ mongo (main engine world_one_file)
       (database_name, "senior_citizen_flag_data")
     = senior_citizen_table (frows (fst day_cleaned))
  /\ mongo (main engine world_one_file)
       (database_name, "disease_trend_over_the_week_data")
     = [DocTrend (Some (VStr "Diabetes")) (Some 3) 2;
        DocTrend (Some (VStr "High Blood Pressure")) (Some 3) 2].
Proof.
  split; [reflexivity|].
  destruct (C5_four_transformations_read_the_cleaned_table engine
              world_one_file eq_refl)
    as [c [out [dfall [ratio [trend
         [Hc [Hq [Hall [Hr [Ht [_ [_ [_ [Hsen Htr]]]]]]]]]]]]]].
  vm_compute in Hc. inversion Hc; subst c.
  vm_compute in Hq. inversion Hq; subst out.
  vm_compute in Hall. inversion Hall; subst dfall.
  vm_compute in Ht. inversion Ht; subst trend.
  split; [exact Hsen | exact Htr].
Defined.



(** C7 as the specification words it fails: code C345 has one row of
    gender 'F' and none of gender 'M'; the quotient 0 / 1 is 0, and the
    ratio written is null. *)
Lemma C7_counterexample_code_without_men : ~ ratio_for_every_code ratio_rows.
Proof.
  intros H.
  specialize (H _ (Some "C345") 1%positive eq_refl (or_introl eq_refl)
                eq_refl).
  vm_compute in H. destruct H as [H|[H|[]]]; discriminate H.
Qed.

Lemma C7_witness :
  gender_ratio_table ratio_rows
  = inr [DocGenderRatio (Some (VStr "C345")) None;
         DocGenderRatio (Some (VStr "D123")) (Some (Qmake 100 100))]
  /\ exists codes,
       NoDup codes
       /\ (forall c, In c codes <-> In c (map diagnosis_code ratio_rows))
       /\ Forall2
            (fun c doc =>
               exists ratio,
                 doc = DocGenderRatio (option_map VStr c) ratio
                 /\ match ratio with
                    | Some q =>
                        0 < gender_count "M" c ratio_rows
                        /\ 0 < gender_count "F" c ratio_rows
                        /\ rounded_ratio (gender_count "M" c ratio_rows)
                             (gender_count "F" c ratio_rows) q
                    | None =>
                        gender_count "M" c ratio_rows = 0
                        \/ gender_count "F" c ratio_rows = 0
                    end)
            codes
            [DocGenderRatio (Some (VStr "C345")) None;
             DocGenderRatio (Some (VStr "D123")) (Some (Qmake 100 100))].
Proof.
  split; [reflexivity|].
  exact (C7_gender_ratio_per_code ratio_rows _ eq_refl).
Defined.

(** C8 on a run that goes to its end, and on the run after it with the
    cursor put back: the rows of the file of the day in the collection of
    the raw data. *)
Lemma C8_witness :
  succeeds engine world_one_file = true
  /\ exists raw_data_df,
       csv world_one_file "data/health_data_20230801.csv" = Some raw_data_df
       /\ (forall st,
             mongo (main engine (set_mongo world_one_file st))
               (database_name, "healthcare_raw_data")
             = st (database_name, "healthcare_raw_data")
               ++ map (DocRaw (columns raw_data_df)) (rows raw_data_df))
       /\ mongo (main engine
                   (set_config_properties (main engine world_one_file)
                      (config_properties world_one_file)))
            (database_name, "healthcare_raw_data")
          = ([] ++ map (DocRaw (columns raw_data_df)) (rows raw_data_df))
            ++ map (DocRaw (columns raw_data_df)) (rows raw_data_df).
Proof.
  split; [reflexivity|].
  destruct (proj2 (C8_outputs_are_appended engine world_one_file) eq_refl)
    as [c [df [out [rep [ratio [dfall [trend
         [Hc [Hdf [_ [_ [_ [_ [_ [H1 [_ H2]]]]]]]]]]]]]]]].
  inversion Hc; subst c.
  exists df. split; [exact Hdf|]. split.
  - intros st. apply H1. left. reflexivity.
  - apply (H2 "healthcare_raw_data"). left. reflexivity.
Defined.

(** C9 on a file with a row without [patient_id]: two rows of three are
    kept. *)
Lemma C9_witness :
  exists out rep,
    data_quality_check engine anonymous_frame = inr (out, rep)
    /\ map patient_id (frows out) = [Some "P1"; Some "P3"]
    /\ forall r, In r (frows out) -> patient_id r <> None.
Proof.
  eexists. eexists. split; [reflexivity|]. split; [reflexivity|].
  exact (proj1 (C9_null_patient_id_rows_dropped engine anonymous_frame
                  _ _ eq_refl)).
Defined.

Lemma C10_witness :
  data_quality_check engine day_frame = inr day_cleaned
  /\ missing_columns (snd day_cleaned) = [].
Proof.
  split; [reflexivity|].
  exact (C10_missing_columns_empty engine day_frame (fst day_cleaned)
           (snd day_cleaned) eq_refl).
Defined.

End Examples.

(* ------------------------------------------------------------------------- *)
(** ** More on the cleaning step *)
(* ------------------------------------------------------------------------- *)

Lemma check_mandatory_first cols fields mc mc' c :
  check_mandatory cols fields mc = (mc', Some (ValueError_mandatory c)) ->
  exists before after,
    fields = before ++ c :: after
    /\ ~ In c cols
    /\ forall b, In b before -> In b cols.
Proof.
  induction fields as [|f fields IH]; simpl; [discriminate|].
  destruct (existsb (String.eqb f) cols) eqn:Hf; simpl.
  - intros H. destruct (IH H) as [before [after [-> [Hout Hin]]]].
    exists (f :: before), after. split; [reflexivity|].
    split; [assumption|].
    intros b [<-|Hb]; [now apply existsb_eqb_In | now apply Hin].
  - intros H. inversion H; subst. exists [], fields.
    split; [reflexivity|]. split; [|intros b []].
    intros Hin. apply existsb_eqb_In in Hin. congruence.
Qed.

Lemma filter_is_some_length {A} (f : Row -> option A) (rs : list Row) :
  Z.of_nat (List.length rs)
  = Z.of_nat (List.length (filter (fun r => is_some (f r)) rs))
    + count_nulls f rs.
Proof.
  unfold count_nulls.
  induction rs as [|r rs IH]; [reflexivity|].
  cbn [filter]. destruct (is_some (f r)); cbn [negb List.length]; lia.
Qed.

Lemma median_none l : median l = None <-> l = [].
Proof. destruct l; simpl; split; congruence. Qed.

Lemma nonnull_ages_In rs a :
  In a (nonnull_ages rs) <-> exists r, In r rs /\ age r = Some a.
Proof.
  unfold nonnull_ages. rewrite in_flat_map. split.
  - intros [r [Hr Ha]]. exists r. split; [assumption|].
    destruct (age r) as [a'|]; [|destruct Ha].
    destruct Ha as [->|[]]. reflexivity.
  - intros [r [Hr Ha]]. exists r. split; [assumption|].
    rewrite Ha. now left.
Qed.

Lemma latest_row_none rs :
  latest_row rs = None <-> forall r, In r rs -> diagnosis_date r = None.
Proof.
  unfold latest_row.
  set (dated := filter (fun r => is_some (diagnosis_date r)) rs).
  set (leb := fun a b : Row =>
                cell_desc_leb (diagnosis_date a) (diagnosis_date b)).
  split.
  - intros H r Hr.
    destruct (diagnosis_date r) as [v|] eqn:Hd; [|reflexivity].
    assert (Hin : In r (sort_by leb dated)).
    { apply sort_by_In. apply filter_In. split; [assumption|].
      now rewrite Hd. }
    destruct (sort_by leb dated); [destruct Hin | discriminate].
  - intros H. assert (Hnil : dated = []).
    { unfold dated. apply filter_none. apply Forall_forall.
      intros r Hr. now rewrite (H r Hr). }
    now rewrite Hnil.
Qed.

Lemma latest_row_In rs first :
  latest_row rs = Some first ->
  In first rs /\ diagnosis_date first <> None.
Proof.
  unfold latest_row.
  destruct (sort_by _ _) as [|x l] eqn:Hs; [discriminate|].
  intros H. inversion H; subst x.
  assert (Hin : In first (first :: l)) by now left.
  rewrite <- Hs in Hin. apply sort_by_In in Hin.
  apply filter_In in Hin. destruct Hin as [Hin Hd].
  split; [assumption|]. now destruct (diagnosis_date first).
Qed.

Section CleaningMore.

Variable E : Engine.

(** X1.  With the six columns there, [data_quality_check] returns exactly
    when a row with a [patient_id] has an age and a row with a
    [patient_id] has a date.  Without such an age (an empty file, say) the
    fill of line 87 is given [None] and raises; with the ages and without
    such a date, line 90 indexes the [None] that [first()] returns. *)
Theorem data_quality_check_needs_an_age_and_a_date (df : DataFrame)
    (df1 : Frame) :
  (forall c, In c mandatory_fields -> In c (columns df)) ->
  cast_select E df = inr df1 ->
  let kept := filter (fun r => is_some (patient_id r)) (frows df1) in
  ((forall r, In r kept -> age r = None) ->
   data_quality_check E df = inl FillNullValue)
  /\ ((exists r, In r kept /\ age r <> None) ->
      (forall r, In r kept -> diagnosis_date r = None) ->
      data_quality_check E df = inl TypeError_NoneType)
  /\ ((exists r, In r kept /\ age r <> None) ->
      (exists r, In r kept /\ diagnosis_date r <> None) ->
      exists out rep, data_quality_check E df = inr (out, rep)).
Proof.
  intros Hcols Hs kept.
  unfold data_quality_check.
  rewrite (check_mandatory_present _ _ [] Hcols), Hs. simpl.
  fold kept.
  assert (Hages : (forall r, In r kept -> age r = None)
                  <-> nonnull_ages kept = []).
  { split.
    - intros H. destruct (nonnull_ages kept) as [|a l] eqn:Ha;
        [reflexivity|].
      assert (Hin : In a (nonnull_ages kept)) by (rewrite Ha; now left).
      apply nonnull_ages_In in Hin. destruct Hin as [r [Hr Hage]].
      rewrite (H r Hr) in Hage. discriminate.
    - intros H r Hr. destruct (age r) as [a|] eqn:Ha; [|reflexivity].
      assert (Hin : In a (nonnull_ages kept))
        by (apply nonnull_ages_In; now exists r).
      rewrite H in Hin. destruct Hin. }
  assert (Hsome : (exists r, In r kept /\ age r <> None) ->
                  exists q, median (nonnull_ages kept) = Some q).
  { intros [r [Hr Ha]].
    destruct (median (nonnull_ages kept)) as [q|] eqn:Hm; [now exists q|].
    apply median_none in Hm.
    now rewrite (proj2 Hages Hm r Hr) in Ha. }
  split; [|split].
  - intros H. apply (proj1 Hages) in H. now rewrite H.
  - intros Ha Hd. destruct (Hsome Ha) as [q ->]. simpl.
    assert (Hl : latest_row (map (fill_age q) kept) = None).
    { apply latest_row_none. intros r Hr. apply in_map_iff in Hr.
      destruct Hr as [r0 [<- Hr0]]. simpl. now apply Hd. }
    now rewrite Hl.
  - intros Ha [r [Hr Hd]]. destruct (Hsome Ha) as [q ->]. simpl.
    destruct (latest_row (map (fill_age q) kept)) as [first|] eqn:Hl.
    + apply latest_row_In in Hl. destruct Hl as [Hin _].
      apply in_map_iff in Hin. destruct Hin as [r0 [<- Hr0]].
      apply filter_In in Hr0. destruct Hr0 as [_ Hp]. simpl.
      destruct (patient_id r0); [|discriminate]. simpl.
      eexists. eexists. reflexivity.
    + exfalso. rewrite latest_row_none in Hl.
      apply Hd. rewrite <- (Hl (fill_age q r)); [reflexivity|].
      now apply in_map.
Qed.

(** X2.  The exception of the column check names the first mandatory
    column, in the order of [mandatory_fields], that the input lacks. *)
Theorem missing_column_error_names_the_first (df : DataFrame) (c : string) :
  data_quality_check E df = inl (ValueError_mandatory c) ->
  exists before after,
    mandatory_fields = before ++ c :: after
    /\ ~ In c (columns df)
    /\ forall b, In b before -> In b (columns df).
Proof.
  intros H. apply data_quality_check_raises in H.
  destruct H as [[mc H]|[_ H]].
  - exact (check_mandatory_first _ _ _ _ _ H).
  - exfalso. now apply (H c).
Qed.

(** X3.  Cleaning only fills nulls: the rows returned are the rows kept,
    in their order, with the same [patient_id], [gender],
    [diagnosis_code] and [diagnosis_description], the same age and date
    where there was one, and an age in every row. *)
Theorem cleaning_only_fills_nulls (df : DataFrame) (out : Frame)
    (rep : Report) :
  data_quality_check E df = inr (out, rep) ->
  exists df1,
    cast_select E df = inr df1
    /\ Forall2
         (fun r r' =>
            patient_id r' = patient_id r
            /\ gender r' = gender r
            /\ diagnosis_code r' = diagnosis_code r
            /\ diagnosis_description r' = diagnosis_description r
            /\ (forall a, age r = Some a -> age r' = Some a)
            /\ (forall d, diagnosis_date r = Some d ->
                          diagnosis_date r' = Some d)
            /\ age r' <> None)
         (filter (fun r => is_some (patient_id r)) (frows df1))
         (frows out).
Proof.
  intros H. apply data_quality_check_returns in H.
  destruct H as [df1 [q [first [pid [_ [Hs [_ [_ [_ [-> _]]]]]]]]]].
  exists df1. split; [assumption|]. simpl. rewrite map_map.
  induction (filter (fun r => is_some (patient_id r)) (frows df1))
    as [|r rs IH]; simpl; constructor; [|exact IH].
  repeat split; try reflexivity.
  - intros a Ha. simpl. now rewrite Ha.
  - intros d Hd. simpl. now rewrite Hd.
  - simpl. destruct (age r); discriminate.
Qed.

(** X4.  The report counts the nulls before any row is dropped: the
    number of rows of the input is the number of rows returned plus the
    count reported for [patient_id]. *)
Theorem rows_in_are_rows_out_plus_null_patient_ids (df : DataFrame)
    (out : Frame) (rep : Report) :
  data_quality_check E df = inr (out, rep) ->
  exists n,
    In ("patient_id", n) (columns_with_null_count rep)
    /\ Z.of_nat (List.length (rows df))
       = Z.of_nat (List.length (frows out)) + n.
Proof.
  intros H. apply data_quality_check_returns in H.
  destruct H as [df1 [q [first [pid [_ [Hs [Hm [_ [_ [-> ->]]]]]]]]]].
  exists (count_nulls patient_id (frows df1)). simpl.
  assert (Hne : frows df1 <> []).
  { intros Hnil. rewrite Hnil in Hm. discriminate. }
  split.
  - unfold null_counts. destruct (frows df1); [contradiction|]. now left.
  - rewrite !length_map.
    apply cast_select_returns in Hs.
    destruct Hs as [? [? [? [? [? [? [_ [_ ->]]]]]]]]. simpl.
    rewrite <- (filter_is_some_length patient_id), length_map. reflexivity.
Qed.

End CleaningMore.

(* ------------------------------------------------------------------------- *)
(** ** The tables of counts: contents, totals and order *)
(* ------------------------------------------------------------------------- *)

Section CountTotals.

Context {K : Type} (eqb : K -> K -> bool).

Lemma total_count_bump k acc :
  total_count (bump eqb k acc) = total_count acc + 1.
Proof.
  unfold total_count.
  induction acc as [|[k' c] acc IH]; simpl; [reflexivity|].
  destruct (eqb k' k); simpl; lia.
Qed.

Lemma group_count_total l :
  total_count (group_count eqb l) = Z.of_nat (List.length l).
Proof.
  induction l as [|k l IH] using rev_ind; [reflexivity|].
  unfold group_count. rewrite fold_left_app. simpl.
  rewrite total_count_bump. fold (group_count eqb l).
  rewrite IH, length_app. simpl. lia.
Qed.

End CountTotals.

Lemma total_count_perm {K} (a b : list (K * Z)) :
  Permutation a b -> total_count a = total_count b.
Proof.
  unfold total_count.
  induction 1 as [|x l l' _ IH|x y l|l l' l'' _ IH1 _ IH2]; simpl; lia.
Qed.

Lemma total_count_documents {K} (f : K * Z -> document) (t : list (K * Z)) :
  (forall kc, document_count (f kc) = snd kc) ->
  fold_right Z.add 0 (map document_count (map f t)) = total_count t.
Proof.
  intros Hf. unfold total_count.
  induction t as [|kc t IH]; simpl; [reflexivity|].
  now rewrite Hf, IH.
Qed.

Section Ordered.

Context {A : Type} (leb : A -> A -> bool).

Hypothesis leb_total : forall a b, leb a b = true \/ leb b a = true.

Lemma insert_sorted_ordered x l :
  Sorted (fun a b => leb a b = true) l ->
  Sorted (fun a b => leb a b = true) (insert_sorted leb x l).
Proof.
  induction l as [|y l IH]; simpl; intros H.
  - repeat constructor.
  - destruct (leb x y) eqn:Hxy.
    + constructor; [assumption | now constructor].
    + assert (Hyx : leb y x = true)
        by (destruct (leb_total x y); congruence).
      inversion H as [|? ? Hl Hy]; subst.
      constructor; [now apply IH|].
      destruct l as [|z l]; simpl.
      * now constructor.
      * destruct (leb x z); constructor; [assumption|].
        now inversion Hy.
Qed.

Lemma sort_by_ordered l :
  Sorted (fun a b => leb a b = true) (sort_by leb l).
Proof.
  induction l as [|x l IH]; simpl; [constructor|].
  now apply insert_sorted_ordered.
Qed.

End Ordered.

Lemma Sorted_map_image {A B} (f : A -> B) (R : B -> B -> Prop) l :
  Sorted (fun a b => R (f a) (f b)) l -> Sorted R (map f l).
Proof.
  induction 1 as [|x l _ IH Hx]; simpl; constructor; [assumption|].
  destruct Hx; simpl; now constructor.
Qed.

Lemma Sorted_weaken {A} (R R' : A -> A -> Prop) l :
  (forall a b, R a b -> R' a b) -> Sorted R l -> Sorted R' l.
Proof.
  intros HR. induction 1 as [|x l _ IH Hx]; constructor; [assumption|].
  destruct Hx; constructor. now apply HR.
Qed.

Lemma NoDup_map_injective {A B} (f : A -> B) (l : list A) :
  (forall a b, f a = f b -> a = b) -> NoDup l -> NoDup (map f l).
Proof.
  intros Hf. induction 1 as [|x l Hx _ IH]; simpl; constructor;
    [|assumption].
  intros Hin. apply in_map_iff in Hin. destruct Hin as [y [Hy Hin]].
  apply Hf in Hy. now subst y.
Qed.

Lemma age_key_eqb_eq a b : age_key_eqb a b = true <-> a = b.
Proof.
  destruct a as [[g1 d1] c1], b as [[g2 d2] c2]. unfold age_key_eqb.
  rewrite !andb_true_iff, String.eqb_eq, !option_string_eqb_eq.
  split; [intros [[-> ->] ->]; reflexivity | intros H; now inversion H].
Qed.

Lemma count_key_map {A K} (eqb : K -> K -> bool) (f : A -> K) k l :
  count_key eqb k (map f l)
  = Z.of_nat (List.length (filter (fun a => eqb k (f a)) l)).
Proof.
  unfold count_key. now rewrite filter_map_comm, length_map.
Qed.

(** X5.  [most_common_diseases] writes one document per distinct
    [diagnosis_description] of the table, the null description among
    them, with the number of rows that carry it; no description is left
    out, whatever its rank. *)
Theorem most_common_diseases_lists_every_description (rs : list Row) :
  NoDup (most_common_table rs)
  /\ forall d n,
       In (DocDisease d n) (most_common_table rs) <->
       (exists r, In r rs /\ diagnosis_description r = d)
       /\ n = Z.of_nat (List.length
                (filter (fun r => option_string_eqb d
                                    (diagnosis_description r)) rs)).
Proof.
  unfold most_common_table.
  set (leb := fun a b : option string * Z => snd b <=? snd a).
  destruct (group_count_spec option_string_eqb option_string_eqb_eq
              (map diagnosis_description rs)) as [Hnd Hin].
  split.
  - apply NoDup_map_injective.
    + intros [k c] [k' c'] H. now inversion H.
    + apply (Permutation_NoDup (Permutation_sym (sort_by_perm leb _))).
      now apply NoDup_map_inv in Hnd.
  - intros d n. rewrite in_map_iff. split.
    + intros [[k c] [Hd Hkc]]. inversion Hd; subst.
      apply sort_by_In, Hin in Hkc. destruct Hkc as [Hk ->].
      apply in_map_iff in Hk. destruct Hk as [r [Hr Hrs]].
      split; [now exists r|]. apply count_key_map.
    + intros [[r [Hr Hd]] ->]. exists (d, count_key option_string_eqb d
                                          (map diagnosis_description rs)).
      split; [simpl; now rewrite count_key_map|].
      apply sort_by_In, Hin. split; [|reflexivity].
      rewrite <- Hd. now apply in_map.
Qed.

(** X6.  The documents of [most_common_diseases] are in descending order
    of their count: a document never has a larger count than one before
    it. *)
Theorem most_common_diseases_in_descending_count (rs : list Row) :
  StronglySorted (fun a b => document_count b <= document_count a)
    (most_common_table rs).
Proof.
  apply Sorted_StronglySorted; [intros a b c; lia|].
  unfold most_common_table. apply Sorted_map_image. simpl.
  eapply Sorted_weaken; [|apply sort_by_ordered].
  - intros a b H. simpl in H. now apply Z.leb_le.
  - intros a b. simpl. rewrite !Z.leb_le. lia.
Qed.

(** X7.  Every row of the table is counted once by [most_common_diseases]
    and once by [age_category]: the counts written by each add up to the
    number of rows. *)
Theorem counts_add_up_to_the_rows (rs : list Row) :
  fold_right Z.add 0 (map document_count (most_common_table rs))
  = Z.of_nat (List.length rs)
  /\ fold_right Z.add 0 (map document_count (age_category_table rs))
     = Z.of_nat (List.length rs).
Proof.
  unfold most_common_table, age_category_table. split.
  - rewrite total_count_documents by reflexivity.
    rewrite (total_count_perm _ _ (sort_by_perm _ _)).
    now rewrite group_count_total, length_map.
  - rewrite total_count_documents by (now intros [[[g d] c] n]).
    rewrite (total_count_perm _ _ (sort_by_perm _ _)).
    now rewrite group_count_total, length_map.
Qed.

(** X8.  [age_category] writes one document per distinct triple of age
    group, description and code that a row has, with the number of rows
    of that triple. *)
Theorem age_category_counts_each_triple (rs : list Row) :
  NoDup (age_category_table rs)
  /\ forall g d c n,
       In (DocAgeCategory g d c n) (age_category_table rs) <->
       (exists r, In r rs /\ age_group_of (age r) = g
                  /\ diagnosis_description r = d /\ diagnosis_code r = c)
       /\ n = Z.of_nat (List.length
                (filter (fun r => age_key_eqb (g, d, c)
                                    (age_group_of (age r),
                                     diagnosis_description r,
                                     diagnosis_code r)) rs)).
Proof.
  unfold age_category_table.
  set (key := fun r => (age_group_of (age r), diagnosis_description r,
                        diagnosis_code r)).
  set (leb := fun a b : age_key * Z => _).
  destruct (group_count_spec age_key_eqb age_key_eqb_eq (map key rs))
    as [Hnd Hin].
  split.
  - apply NoDup_map_injective.
    + intros [[[g d] c] n] [[[g' d'] c'] n'] H. now inversion H.
    + apply (Permutation_NoDup (Permutation_sym (sort_by_perm leb _))).
      now apply NoDup_map_inv in Hnd.
  - intros g d c n. rewrite in_map_iff. split.
    + intros [[[[g' d'] c'] n'] [Hd Hkc]]. inversion Hd; subst.
      apply sort_by_In, Hin in Hkc. destruct Hkc as [Hk ->].
      apply in_map_iff in Hk. destruct Hk as [r [Hr Hrs]].
      inversion Hr; subst.
      split; [exists r; now repeat split|].
      apply (count_key_map age_key_eqb key).
    + intros [[r [Hr [Hg [Hd Hc]]]] ->].
      exists ((g, d, c), count_key age_key_eqb (g, d, c) (map key rs)).
      split; [simpl; now rewrite (count_key_map age_key_eqb key)|].
      apply sort_by_In, Hin. split; [|reflexivity].
      subst g d c. now apply (in_map key).
Qed.

Lemma age_group_of_cases (a : Z) :
  (a < 30 /\ age_group_of (Some a) = "minors")
  \/ (30 <= a <= 40 /\ age_group_of (Some a) = "30-40")
  \/ (41 <= a <= 50 /\ age_group_of (Some a) = "41-50")
  \/ (51 <= a <= 60 /\ age_group_of (Some a) = "51-60")
  \/ (61 <= a <= 70 /\ age_group_of (Some a) = "61-70")
  \/ (71 <= a /\ age_group_of (Some a) = "70+").
Proof.
  unfold age_group_of.
  destruct ((30 <=? a) && (a <=? 40)) eqn:H1.
  { apply andb_true_iff in H1. rewrite !Z.leb_le in H1. tauto. }
  destruct ((41 <=? a) && (a <=? 50)) eqn:H2.
  { apply andb_true_iff in H2. rewrite !Z.leb_le in H2. tauto. }
  destruct ((51 <=? a) && (a <=? 60)) eqn:H3.
  { apply andb_true_iff in H3. rewrite !Z.leb_le in H3. tauto. }
  destruct ((61 <=? a) && (a <=? 70)) eqn:H4.
  { apply andb_true_iff in H4. rewrite !Z.leb_le in H4. tauto. }
  destruct (71 <=? a) eqn:H5.
  { apply Z.leb_le in H5. tauto. }
  left. split; [|reflexivity].
  apply andb_false_iff in H1, H2, H3, H4.
  rewrite !Z.leb_gt in *. lia.
Qed.

(** X9.  The age groups split the ages by range: an age is "minors"
    exactly under 30, a null age is "minors" too, and from 71 on, with no
    upper end, the group is "70+". *)
Theorem age_groups_split_the_ages (a : Z) :
  age_group_of None = "minors"
  /\ (age_group_of (Some a) = "minors" <-> a < 30)
  /\ (age_group_of (Some a) = "30-40" <-> 30 <= a <= 40)
  /\ (age_group_of (Some a) = "41-50" <-> 41 <= a <= 50)
  /\ (age_group_of (Some a) = "51-60" <-> 51 <= a <= 60)
  /\ (age_group_of (Some a) = "61-70" <-> 61 <= a <= 70)
  /\ (age_group_of (Some a) = "70+" <-> 71 <= a).
Proof.
  split; [reflexivity|].
  destruct (age_group_of_cases a)
    as [[H ->] | [[H ->] | [[H ->] | [[H ->] | [[H ->] | [H ->]]]]]];
    repeat split; intros; try discriminate; try reflexivity; lia.
Qed.

(** X10.  The documents of [age_category] are ordered by age group in the
    order of text, so that "70+" and "minors" come after the ranges, and
    within one age group by descending count. *)
Theorem age_category_in_group_then_count_order (rs : list Row) :
  Sorted (fun a b =>
            (document_age_group a <=? document_age_group b)%string = true
            /\ (document_age_group a = document_age_group b ->
                document_count b <= document_count a))
    (age_category_table rs).
Proof.
  unfold age_category_table. apply Sorted_map_image.
  eapply Sorted_weaken; [|apply sort_by_ordered].
  - intros [[[g d] c] n] [[[g' d'] c'] n']. simpl.
    destruct (String.eqb g g') eqn:Hg.
    + apply String.eqb_eq in Hg. subst g'. intros H. split.
      * destruct (String.leb_total g g); assumption.
      * intros _. now apply Z.leb_le.
    + intros H. split; [assumption|].
      intros ->. now rewrite String.eqb_refl in Hg.
  - intros [[[g d] c] n] [[[g' d'] c'] n']. simpl.
    rewrite (String.eqb_sym g' g).
    destruct (String.eqb g g'); [|apply String.leb_total].
    rewrite !Z.leb_le. lia.
Qed.

(* ------------------------------------------------------------------------- *)
(** ** The senior flag and the trend over the week *)
(* ------------------------------------------------------------------------- *)

Lemma option_Z_desc_leb_total a b :
  option_Z_desc_leb a b = true \/ option_Z_desc_leb b a = true.
Proof.
  destruct a as [x|], b as [y|]; simpl; auto.
  rewrite !Z.leb_le. lia.
Qed.

Lemma option_Z_desc_leb_trans a b c :
  option_Z_desc_leb a b = true -> option_Z_desc_leb b c = true ->
  option_Z_desc_leb a c = true.
Proof.
  destruct a as [x|], b as [y|], c as [z|]; simpl; try congruence.
  rewrite !Z.leb_le. lia.
Qed.

Lemma positions_none n cols k :
  (forall c, In c cols -> lower c <> lower n) -> positions n cols k = [].
Proof.
  revert k. induction cols as [|c cols IH]; intros k H; simpl;
    [reflexivity|].
  destruct (String.eqb (lower c) (lower n)) eqn:Hc.
  - apply String.eqb_eq in Hc. exfalso. apply (H c); [now left | assumption].
  - apply IH. intros c' Hc'. apply H. now right.
Qed.

Lemma resolve_absent n cols :
  (forall c, In c cols -> lower c <> lower n) ->
  resolve n cols = inl (AnalysisException n).
Proof.
  intros H. unfold resolve. now rewrite positions_none.
Qed.

Lemma resolve_raises n cols e :
  resolve n cols = inl e -> e = AnalysisException n.
Proof.
  unfold resolve. destruct (positions n cols 0) as [|i [|j l]];
    congruence.
Qed.

Lemma dayofweek_of_range d : 1 <= dayofweek_of d <= 7.
Proof.
  unfold dayofweek_of. pose proof (Z.mod_pos_bound (d + 4) 7). lia.
Qed.

Lemma trend_key_eqb_eq a b : trend_key_eqb a b = true <-> a = b.
Proof.
  destruct a as [d1 k1], b as [d2 k2]. unfold trend_key_eqb. simpl.
  destruct (cell_eq_dec d1 d2) as [->|Hd]; simpl.
  - destruct k1 as [x|], k2 as [y|]; simpl;
      try (split; [discriminate | intros H; inversion H]);
      try (split; reflexivity).
    rewrite Z.eqb_eq. split; [now intros -> | intros H; now inversion H].
  - split; [discriminate | intros H; inversion H; contradiction].
Qed.

(** X11.  [senior_citizen_flag] writes one document for every row of the
    table, each with the row's own [patient_id], age, gender and
    description; the flag is 'Y' from the age of 60 on and 'N' under 60
    and for a null age. *)
Theorem senior_citizen_flag_marks_sixty_and_over (rs : list Row) :
  List.length (senior_citizen_table rs) = List.length rs
  /\ (forall r, In r rs ->
        exists f,
          In (DocSenior (patient_id r) (age r) (gender r)
                (diagnosis_description r) f) (senior_citizen_table rs))
  /\ forall p a g d f,
       In (DocSenior p a g d f) (senior_citizen_table rs) ->
       (f = "Y" /\ exists n, a = Some n /\ 60 <= n)
       \/ (f = "N" /\ forall n, a = Some n -> n < 60).
Proof.
  unfold senior_citizen_table. split; [|split].
  - now rewrite length_map, sort_by_length.
  - intros r Hr. eexists. apply in_map_iff. exists r.
    split; [reflexivity|]. now apply sort_by_In.
  - intros p a g d f Hin. apply in_map_iff in Hin.
    destruct Hin as [r [Hd _]]. inversion Hd; subst.
    destruct (age r) as [n|]; [|right; split; [reflexivity | discriminate]].
    destruct (60 <=? n) eqn:Hn.
    + left. split; [reflexivity|]. exists n. split; [reflexivity|].
      now apply Z.leb_le.
    + right. split; [reflexivity|]. intros n' H. inversion H; subst.
      now apply Z.leb_gt.
Qed.

(** X12.  The documents of [senior_citizen_flag] are in descending order
    of age, the rows without an age after all the others. *)
Theorem senior_citizen_flag_in_descending_age (rs : list Row) :
  StronglySorted
    (fun a b => option_Z_desc_leb (document_age a) (document_age b) = true)
    (senior_citizen_table rs).
Proof.
  apply Sorted_StronglySorted.
  - intros a b c. apply option_Z_desc_leb_trans.
  - unfold senior_citizen_table. apply Sorted_map_image. simpl.
    apply (sort_by_ordered
             (fun a b : Row => option_Z_desc_leb (age a) (age b))).
    intros a b. apply option_Z_desc_leb_total.
Qed.

Section TrendMore.

Variable E : Engine.

(** X13.  When the files read by [disease_trend_over_the_week] have no
    column [diagnosis_date], or none [diagnosis_description], letter case
    apart, the step raises the analysis error that names a column, and
    writes nothing. *)
Theorem trend_needs_its_two_columns (w : World) (c : Config)
    (df : DataFrame) (n : string) :
  config w = Some c ->
  csv w (all_path c) = Some df ->
  n = "diagnosis_date" \/ n = "diagnosis_description" ->
  (forall col, In col (columns df) -> lower col <> n) ->
  exists name,
    disease_trend_over_the_week E w = (inl (AnalysisException name), w).
Proof.
  intros Hc Hf Hn Habs.
  unfold disease_trend_over_the_week, bind, get_config, load, lift.
  rewrite Hc. cbv beta iota. rewrite Hf. cbv beta iota.
  unfold trend_table.
  destruct (resolve "diagnosis_date" (columns df)) as [e|i] eqn:Hd.
  - apply resolve_raises in Hd. subst e. simpl. eexists. reflexivity.
  - destruct (resolve "diagnosis_description" (columns df)) as [e|j] eqn:Hs.
    + apply resolve_raises in Hs. subst e. simpl. eexists. reflexivity.
    + exfalso. destruct Hn as [-> | ->].
      * rewrite resolve_absent in Hd; [discriminate | exact Habs].
      * rewrite resolve_absent in Hs; [discriminate | exact Habs].
Qed.

(** X14.  The trend counts every row of every file read, the rows that
    cleaning would drop among them: the counts written add up to the
    number of rows read. *)
Theorem trend_counts_every_row_read (df : DataFrame)
    (docs : list document) :
  trend_table E df = inr docs ->
  fold_right Z.add 0 (map document_count docs)
  = Z.of_nat (List.length (rows df)).
Proof.
  unfold trend_table.
  destruct (resolve "diagnosis_date" _) as [|i_date]; simpl;
    [discriminate|].
  destruct (resolve "diagnosis_description" _) as [|i_desc]; simpl;
    [discriminate|].
  destruct (nth i_date (map dataType (schema df)) StringType);
    try discriminate; intros H; inversion H; subst docs;
    (rewrite total_count_documents by reflexivity);
    rewrite (total_count_perm _ _ (sort_by_perm _ _));
    now rewrite group_count_total, length_map.
Qed.

(** X15.  A document of the trend has a count of at least one, and its
    day of the week is null or from 1 to 7. *)
Theorem trend_days_are_one_to_seven (df : DataFrame)
    (docs : list document) (d : cell) (k : option Z) (n : Z) :
  trend_table E df = inr docs ->
  In (DocTrend d k n) docs ->
  1 <= n /\ forall j, k = Some j -> 1 <= j <= 7.
Proof.
  unfold trend_table.
  destruct (resolve "diagnosis_date" _) as [|i_date]; simpl;
    [discriminate|].
  destruct (resolve "diagnosis_description" _) as [|i_desc]; simpl;
    [discriminate|].
  set (key := fun r : list cell =>
                (nth i_desc r None, dayofweek_cell E (nth i_date r None))).
  assert (Hall : forall kc,
            In kc (group_count trend_key_eqb (map key (rows df))) ->
            1 <= snd kc /\ forall j, snd (fst kc) = Some j -> 1 <= j <= 7).
  { intros [[d' k'] n'] Hin.
    apply (group_count_spec trend_key_eqb trend_key_eqb_eq) in Hin.
    destruct Hin as [Hk ->]. simpl. split.
    - pose proof (proj2 (count_key_pos trend_key_eqb trend_key_eqb_eq
                           (d', k') (map key (rows df))) Hk). lia.
    - intros j ->. apply in_map_iff in Hk. destruct Hk as [r [Hr _]].
      unfold key in Hr. injection Hr as _ Hday.
      unfold dayofweek_cell in Hday.
      destruct (nth i_date r None) as [[x|s|x]|]; try discriminate.
      + destruct (cast_string_date E s); [|discriminate].
        inversion Hday. apply dayofweek_of_range.
      + inversion Hday. apply dayofweek_of_range. }
  destruct (nth i_date (map dataType (schema df)) StringType);
    try discriminate; intros H Hin; inversion H; subst docs;
    apply in_map_iff in Hin; destruct Hin as [kc [Hd Hin]];
    apply sort_by_In, Hall in Hin; inversion Hd; subst; exact Hin.
Qed.

End TrendMore.

(* ------------------------------------------------------------------------- *)
(** ** When the gender ratio has a table to write *)
(* ------------------------------------------------------------------------- *)

Lemma positions_NoDup n cols k : NoDup (positions n cols k).
Proof.
  revert k. induction cols as [|c cols IH]; intros k; simpl; [constructor|].
  destruct (String.eqb (lower c) (lower n)); [|apply IH].
  constructor; [|apply IH].
  intros Hin. apply positions_In in Hin. destruct Hin as [j [Hj _]]. lia.
Qed.

Lemma resolve_found n cols i :
  (i < List.length cols)%nat ->
  lower (nth i cols "") = lower n ->
  (forall j, (j < List.length cols)%nat ->
             lower (nth j cols "") = lower n -> j = i) ->
  resolve n cols = inr i.
Proof.
  intros Hi Hl Huniq. unfold resolve.
  assert (Hin : In i (positions n cols 0))
    by (apply positions_In; exists i; now repeat split).
  assert (Hall : forall p, In p (positions n cols 0) -> p = i).
  { intros p Hp. apply positions_In in Hp.
    destruct Hp as [j [-> [Hj Hlj]]]. now apply Huniq. }
  pose proof (positions_NoDup n cols 0) as Hnd.
  destruct (positions n cols 0) as [|a [|b l]].
  - destruct Hin.
  - f_equal. apply Hall. now left.
  - exfalso. inversion Hnd as [|? ? Hnot _]; subst. apply Hnot.
    rewrite (Hall a), (Hall b); [now left | right; now left | now left].
Qed.

Lemma pivot_values_In rs g :
  In g (pivot_values rs) <-> exists r, In r rs /\ gender r = g.
Proof.
  unfold pivot_values. rewrite sort_by_In.
  destruct (group_count_spec option_string_eqb option_string_eqb_eq
              (map gender rs)) as [_ Hin].
  rewrite in_map_iff. split.
  - intros [[g' n] [<- Hg]]. apply Hin in Hg. destruct Hg as [Hg _].
    apply in_map_iff in Hg. destruct Hg as [r [Hr Hrs]]. now exists r.
  - intros [r [Hr <-]].
    exists (gender r, count_key option_string_eqb (gender r)
                        (map gender rs)).
    split; [reflexivity|]. apply Hin. split; [now apply in_map|reflexivity].
Qed.

Lemma pivot_values_NoDup rs : NoDup (pivot_values rs).
Proof.
  unfold pivot_values.
  apply (Permutation_NoDup (Permutation_sym (sort_by_perm _ _))).
  apply (group_count_spec option_string_eqb option_string_eqb_eq).
Qed.

Lemma pivot_column_resolves rs g :
  (forall r, In r rs ->
     gender r = None \/ gender r = Some "M" \/ gender r = Some "F") ->
  g = "M" \/ g = "F" ->
  (exists r, In r rs /\ gender r = Some g) ->
  exists i, resolve g (columns (pivot_gender_count rs)) = inr i.
Proof.
  intros Hall Hg Hex. rewrite columns_pivot.
  apply pivot_values_In in Hex.
  destruct (In_nth _ _ None Hex) as [i [Hi Hnth]].
  assert (Hcol : forall j, (j < List.length (pivot_values rs))%nat ->
            nth j (map pivot_name (pivot_values rs)) ""
            = pivot_name (nth j (pivot_values rs) None)).
  { intros j Hj.
    rewrite (nth_indep _ "" (pivot_name None)) by now rewrite length_map.
    apply map_nth. }
  exists (S i). apply resolve_found.
  - simpl. rewrite length_map. lia.
  - simpl nth. rewrite (Hcol i Hi), Hnth. reflexivity.
  - intros [|j] Hj Hl.
    + exfalso. simpl nth in Hl. destruct Hg as [-> | ->]; discriminate.
    + f_equal. simpl in Hj. rewrite length_map in Hj.
      assert (Hj' : (j < List.length (pivot_values rs))%nat) by lia.
      simpl nth in Hl. rewrite (Hcol j Hj') in Hl.
      apply (proj1 (NoDup_nth (pivot_values rs) None)
               (pivot_values_NoDup rs)); [assumption | assumption|].
      rewrite Hnth.
      assert (Hin : In (nth j (pivot_values rs) None) (pivot_values rs))
        by now apply nth_In.
      apply pivot_values_In in Hin. destruct Hin as [r [Hr Hgr]].
      rewrite <- Hgr in *.
      destruct (Hall r Hr) as [Hn | [Hn | Hn]]; rewrite Hn in *;
        destruct Hg as [-> | ->]; try discriminate; reflexivity.
Qed.

Lemma code_column_resolves rs :
  (forall r, In r rs ->
     gender r = None \/ gender r = Some "M" \/ gender r = Some "F") ->
  resolve "diagnosis_code" (columns (pivot_gender_count rs)) = inr 0%nat.
Proof.
  intros Hall. rewrite columns_pivot. apply resolve_found.
  - simpl. lia.
  - reflexivity.
  - intros [|j] Hj Hl; [reflexivity|]. exfalso.
    simpl in Hj. rewrite length_map in Hj.
    assert (Hj' : (j < List.length (pivot_values rs))%nat) by lia.
    simpl nth in Hl.
    rewrite (nth_indep _ "" (pivot_name None)) in Hl
      by now rewrite length_map.
    rewrite map_nth in Hl.
    assert (Hin : In (nth j (pivot_values rs) None) (pivot_values rs))
      by now apply nth_In.
    apply pivot_values_In in Hin. destruct Hin as [r [Hr Hgr]].
    rewrite <- Hgr in Hl.
    destruct (Hall r Hr) as [Hn | [Hn | Hn]]; rewrite Hn in Hl;
      discriminate.
Qed.

(** X16.  When no row of the cleaned table has the gender 'M', or none
    the gender 'F', letter case apart, the pivot has no such column:
    [disease_gender_ratio] raises an analysis error and writes nothing. *)
Theorem disease_gender_ratio_needs_both_genders (df : Frame) (g : string)
    (w : World) :
  g = "M" \/ g = "F" ->
  (forall r s, In r (frows df) -> gender r = Some s -> lower s <> lower g) ->
  exists name,
    disease_gender_ratio df w = (inl (AnalysisException name), w).
Proof.
  intros Hg Hnone.
  assert (Habs : resolve g (columns (pivot_gender_count (frows df)))
                 = inl (AnalysisException g)).
  { apply resolve_absent. rewrite columns_pivot.
    intros c [<- | Hc].
    - destruct Hg as [-> | ->]; discriminate.
    - apply in_map_iff in Hc. destruct Hc as [v [<- Hv]].
      apply pivot_values_In in Hv. destruct Hv as [r [Hr Hgr]].
      destruct v as [s|].
      + simpl. now apply (Hnone r s).
      + destruct Hg as [-> | ->]; discriminate. }
  unfold disease_gender_ratio, bind, lift, gender_ratio_table.
  destruct (resolve "diagnosis_code" _) as [e|i_code] eqn:Hc.
  { apply resolve_raises in Hc. subst e. simpl. eexists. reflexivity. }
  destruct (resolve "M" _) as [e|i_m] eqn:Hm.
  { apply resolve_raises in Hm. subst e. simpl. eexists. reflexivity. }
  destruct (resolve "F" _) as [e|i_f] eqn:Hf.
  { apply resolve_raises in Hf. subst e. simpl. eexists. reflexivity. }
  exfalso. destruct Hg as [-> | ->]; congruence.
Qed.

(** X17.  When every gender of the table is 'M', 'F' or null, and both
    'M' and 'F' occur, the three columns of the ratio are found in the
    pivot and [disease_gender_ratio] has a table to write. *)
Theorem disease_gender_ratio_returns_with_both_genders (rs : list Row) :
  (forall r, In r rs ->
     gender r = None \/ gender r = Some "M" \/ gender r = Some "F") ->
  (exists r, In r rs /\ gender r = Some "M") ->
  (exists r, In r rs /\ gender r = Some "F") ->
  exists docs, gender_ratio_table rs = inr docs.
Proof.
  intros Hall Hm Hf. unfold gender_ratio_table.
  rewrite (code_column_resolves rs Hall).
  destruct (pivot_column_resolves rs "M" Hall (or_introl eq_refl) Hm)
    as [i_m ->].
  destruct (pivot_column_resolves rs "F" Hall (or_intror eq_refl) Hf)
    as [i_f ->].
  simpl. eexists. reflexivity.
Qed.

(* ------------------------------------------------------------------------- *)
(** ** The day after, up to the last day of the calendar *)
(* ------------------------------------------------------------------------- *)

Module CalendarEnd.
Import Calendar.

Lemma month_cases m :
  1 <= m <= 12 ->
  m = 1 \/ m = 2 \/ m = 3 \/ m = 4 \/ m = 5 \/ m = 6 \/ m = 7 \/ m = 8
  \/ m = 9 \/ m = 10 \/ m = 11 \/ m = 12.
Proof. lia. Qed.

Ltac each_month H :=
  destruct (month_cases _ H) as
    [-> | [-> | [-> | [-> | [-> | [-> | [-> | [-> | [-> | [-> | [-> | ->
    ]]]]]]]]]]].

Ltac table_lookup :=
  cbv [nth Z.to_nat Pos.to_nat Pos.iter_op Nat.add DAYS_IN_MONTH
       DAYS_BEFORE_MONTH Z.eqb Z.ltb Z.compare Pos.compare Pos.compare_cont
       Pos.eqb andb].

Lemma days_in_month_pos y m : 1 <= m <= 12 -> 28 <= days_in_month y m.
Proof.
  intros H. unfold days_in_month.
  each_month H; destruct (is_leap y); table_lookup; lia.
Qed.

Lemma days_before_month_bounds y m d :
  1 <= m <= 12 -> 1 <= d <= days_in_month y m ->
  1 <= days_before_month y m + d <= 366
  /\ (is_leap y = false ->
      days_before_month y m + d <= 365
      /\ ((m, d) <> (12, 31) -> days_before_month y m + d <= 364)).
Proof.
  intros Hm. unfold days_in_month, days_before_month.
  each_month Hm; destruct (is_leap y); table_lookup; intros Hd;
    (split; [lia|]); intros Hl; try discriminate;
    (split; [lia|]); intros Hne; try lia.
  assert (d <> 31) by (intros ->; now apply Hne). lia.
Qed.

Lemma days_before_year_bounds y :
  1 <= y <= 9998 -> 0 <= days_before_year y <= 3651428.
Proof.
  intros H. unfold days_before_year. cbv zeta.
  Z.div_mod_to_equations. lia.
Qed.

Lemma ymd2ord_bounds y m d :
  valid_date (y, m, d) = true ->
  1 <= ymd2ord (y, m, d) <= MAXORDINAL
  /\ ((y, m, d) <> (9999, 12, 31) -> ymd2ord (y, m, d) < MAXORDINAL).
Proof.
  intros Hv. apply CalendarFacts.valid_date_bounds in Hv.
  destruct Hv as [Hy [Hm Hd]].
  destruct (days_before_month_bounds y m d Hm Hd) as [Hb Hlast].
  unfold ymd2ord, MAXORDINAL.
  destruct (Z.eq_dec y 9999) as [->|Hne].
  - assert (Hdy : days_before_year 9999 = 3651694) by reflexivity.
    assert (Hl : is_leap 9999 = false) by reflexivity.
    destruct (Hlast Hl) as [Hyear Hday].
    rewrite Hdy. split; [lia|]. intros Hne.
    assert (Hmd : (m, d) <> (12, 31))
      by (intros H; inversion H; subst; now apply Hne).
    specialize (Hday Hmd). lia.
  - pose proof (days_before_year_bounds y). split; [lia|]. intros _. lia.
Qed.

Lemma add_days_one d :
  valid_date d = true -> d <> (9999, 12, 31) ->
  add_days d 1 = inr (next_day d).
Proof.
  destruct d as [[y m] dd]. intros Hv Hne.
  destruct (ymd2ord_bounds y m dd Hv) as [Hb Hlt]. specialize (Hlt Hne).
  unfold add_days.
  assert (Hin : (0 <? ymd2ord (y, m, dd) + 1)
                && (ymd2ord (y, m, dd) + 1 <=? MAXORDINAL) = true).
  { apply andb_true_iff. rewrite Z.ltb_lt, Z.leb_le. lia. }
  rewrite Hin. f_equal.
  apply CalendarFacts.valid_date_bounds in Hv.
  destruct Hv as [Hy [Hm Hd]]. apply CalendarFacts.ord2ymd_succ; lia.
Qed.

Lemma next_day_valid d :
  valid_date d = true -> d <> (9999, 12, 31) ->
  valid_date (next_day d) = true.
Proof.
  destruct d as [[y m] dd]. intros Hv Hne.
  apply CalendarFacts.valid_date_bounds in Hv.
  destruct Hv as [Hy [Hm Hd]]. unfold next_day.
  destruct (dd <? days_in_month y m) eqn:Hlt.
  - apply Z.ltb_lt in Hlt. unfold valid_date.
    rewrite !andb_true_iff, !Z.leb_le. lia.
  - apply Z.ltb_ge in Hlt. destruct (m <? 12) eqn:Hm12.
    + apply Z.ltb_lt in Hm12. unfold valid_date.
      pose proof (days_in_month_pos y (m + 1)).
      rewrite !andb_true_iff, !Z.leb_le. lia.
    + apply Z.ltb_ge in Hm12. assert (m = 12) by lia. subst m.
      assert (Hdim : days_in_month y 12 = 31) by reflexivity.
      assert (dd = 31) by lia. subst dd.
      assert (y <> 9999) by (intros ->; now apply Hne).
      unfold valid_date. assert (Hj : days_in_month (y + 1) 1 = 31)
        by reflexivity.
      rewrite Hj, !andb_true_iff, !Z.leb_le. lia.
Qed.

Lemma next_day_year d :
  valid_date d = true -> fst (fst d) <= fst (fst (next_day d)).
Proof.
  destruct d as [[y m] dd]. intros _. unfold next_day.
  destruct (dd <? days_in_month y m); [simpl; lia|].
  destruct (m <? 12); simpl; lia.
Qed.

End CalendarEnd.

(** X18.  One day added to a date is the next day of the calendar, again
    a date, for every date but the last one, 9999-12-31, where the
    addition overflows. *)
Theorem one_day_more_up_to_the_last_day (d : Calendar.date) :
  Calendar.valid_date d = true ->
  (d <> (9999, 12, 31) ->
   Calendar.add_days d 1 = inr (Calendar.next_day d)
   /\ Calendar.valid_date (Calendar.next_day d) = true)
  /\ (d = (9999, 12, 31) -> Calendar.add_days d 1 = inl OverflowError).
Proof.
  intros Hv. split.
  - intros Hne. split;
      [now apply CalendarEnd.add_days_one
      | now apply CalendarEnd.next_day_valid].
  - intros ->. reflexivity.
Qed.

(* ------------------------------------------------------------------------- *)
(** ** Runs that stop on the way *)
(* ------------------------------------------------------------------------- *)

Section RunMore.

Variable E : Engine.

(** A run whose seven writes are done stops, if at all, on the cursor. *)
Lemma try_body_stops_at_cursor w c o e :
  config w = Some c ->
  run_outputs E c (csv w) = Some o ->
  writable w = true ->
  (Calendar.strptime (file_date c) = inl e
   \/ exists d, Calendar.strptime (file_date c) = inr d
                /\ Calendar.add_days d 1 = inl e) ->
  try_body E w = (inl e, set_mongo w (store_after o (mongo w))).
Proof.
  intros Hc Ho Hw Hbad.
  unfold writable, destinations in Hw. simpl in Hw.
  rewrite !andb_true_iff in Hw.
  destruct Hw as [H1 [H2 [H3 [H4 [H5 [H6 [H7 _]]]]]]].
  unfold run_outputs in Ho.
  destruct (csv w (today_path c)) as [df|] eqn:Hdf; [|discriminate].
  destruct (data_quality_check E df) as [e'|[out rep]] eqn:Hq;
    [discriminate|].
  destruct (gender_ratio_table (frows out)) as [e'|ratio] eqn:Hr;
    [discriminate|].
  destruct (csv w (all_path c)) as [dfall|] eqn:Hall; [|discriminate].
  destruct (trend_table E dfall) as [e'|trend] eqn:Ht; [discriminate|].
  inversion Ho; subst o; clear Ho.
  unfold try_body, read_and_save_raw_data, get_date_filepath, get_config,
    load, save_cleaning_report, disease_gender_ratio, most_common_diseases,
    age_category, senior_citizen_flag, disease_trend_over_the_week,
    save_processing_date_info, write_append, bind, ret, lift,
    collection_name.
  cbv beta. rewrite Hc. run_step.
  rewrite Hdf, H1. run_step.
  rewrite Hq. run_step.
  rewrite H2. run_step.
  rewrite Hr, H3. run_step.
  rewrite H4. run_step.
  rewrite H5. run_step.
  rewrite H6. run_step.
  rewrite Hc. run_step. rewrite Hall. run_step.
  rewrite Ht, H7. run_step.
  rewrite Hc. run_step.
  destruct Hbad as [Hp | [d [Hp Ha]]].
  - rewrite Hp. reflexivity.
  - rewrite Hp. run_step. rewrite Ha. reflexivity.
Qed.

(** A run that stops on the validation of the file. *)
Lemma try_body_stops_at_validation w c df e :
  config w = Some c ->
  csv w (today_path c) = Some df ->
  mongo_up w (database_name, collection_name) = true ->
  data_quality_check E df = inl e ->
  try_body E w
  = (inl e,
     set_mongo w (append_to (database_name, collection_name)
                    (map (DocRaw (columns df)) (rows df)) (mongo w))).
Proof.
  intros Hc Hdf H1 Hq.
  unfold try_body, read_and_save_raw_data, get_date_filepath, get_config,
    load, write_append, bind, ret, lift.
  cbv beta. rewrite Hc. run_step.
  rewrite Hdf, H1. run_step.
  rewrite Hq. reflexivity.
Qed.

(** A run that stops before its first write. *)
Lemma try_body_stops_at_once w :
  config w = None
  \/ (exists c, config w = Some c /\ csv w (today_path c) = None)
  \/ mongo_up w (database_name, collection_name) = false ->
  exists e, try_body E w = (inl e, w).
Proof.
  intros H.
  unfold try_body, read_and_save_raw_data, get_date_filepath, get_config,
    load, write_append, bind, ret, lift.
  cbv beta.
  destruct (config w) as [c|] eqn:Hc; run_step;
    [|eexists; reflexivity].
  destruct (csv w (today_path c)) as [df|] eqn:Hdf; run_step;
    [|eexists; reflexivity].
  destruct (mongo_up w (database_name, collection_name)) eqn:H1;
    [|eexists; reflexivity].
  exfalso. destruct H as [H | [[c' [Hc' H]] | H]]; try discriminate.
  inversion Hc'; subst c'. congruence.
Qed.

(** X19.  The raw rows are stored before the file is validated: when
    [data_quality_check] rejects the file of the day, the run has
    appended every row of the file to [healthcare_raw_data]; it has
    written to no other collection and has left the cursor as it was. *)
Theorem rejected_file_is_still_stored_raw (w : World) (c : Config)
    (df : DataFrame) (e : exn) :
  config_properties w = Some c ->
  csv w (today_path c) = Some df ->
  mongo_up w (database_name, collection_name) = true ->
  data_quality_check E df = inl e ->
  succeeds E w = false
  /\ mongo (main E w) (database_name, collection_name)
     = mongo w (database_name, collection_name)
       ++ map (DocRaw (columns df)) (rows df)
  /\ (forall dst, dst <> (database_name, collection_name) ->
                  mongo (main E w) dst = mongo w dst)
  /\ config_properties (main E w) = config_properties w.
Proof.
  intros Hc Hdf H1 Hq. unfold succeeds, main.
  rewrite (try_body_stops_at_validation
             (set_config w (config_properties w)) c df e);
    try assumption.
  simpl. split; [reflexivity|]. split; [apply append_to_own|].
  split; [|reflexivity]. intros dst Hdst. now apply append_to_other.
Qed.

(** X20.  Without the section of the configuration, without the file of
    the day, or with [healthcare_raw_data] refusing the write, the run
    stops before it has written anything: every collection and the cursor
    are as before. *)
Theorem nothing_is_written_without_input (w : World) :
  config_properties w = None
  \/ (exists c, config_properties w = Some c
                /\ csv w (today_path c) = None)
  \/ mongo_up w (database_name, collection_name) = false ->
  succeeds E w = false
  /\ (forall dst, mongo (main E w) dst = mongo w dst)
  /\ config_properties (main E w) = config_properties w.
Proof.
  intros H. unfold succeeds, main.
  destruct (try_body_stops_at_once (set_config w (config_properties w)) H)
    as [e ->].
  simpl. repeat split.
Qed.

(** X21.  The cursor is read as a date only after the seven writes.  When
    its text is not a date [strptime] accepts, or is the last day of the
    calendar, a run on good input writes all its outputs and then stops,
    the cursor as it was: the next run appends the same day again. *)
Theorem bad_cursor_is_found_after_the_writes (w : World) (c : Config)
    (o : Outputs) (e : exn) :
  config_properties w = Some c ->
  run_outputs E c (csv w) = Some o ->
  writable w = true ->
  (Calendar.strptime (file_date c) = inl e
   \/ exists d, Calendar.strptime (file_date c) = inr d
                /\ Calendar.add_days d 1 = inl e) ->
  succeeds E w = false
  /\ (forall dst, mongo (main E w) dst = mongo w dst ++ added o dst)
  /\ config_properties (main E w) = Some c
  /\ forall dst,
       mongo (main E (main E w)) dst
       = (mongo w dst ++ added o dst) ++ added o dst.
Proof.
  intros Hc Ho Hw Hbad.
  assert (Hrun : forall w0, config_properties w0 = Some c ->
            csv w0 = csv w -> mongo_up w0 = mongo_up w ->
            try_body E (set_config w0 (config_properties w0))
            = (inl e, set_mongo (set_config w0 (config_properties w0))
                        (store_after o (mongo w0)))).
  { intros w0 Hc0 Hcsv Hup.
    rewrite (try_body_stops_at_cursor
               (set_config w0 (config_properties w0)) c o e);
      try assumption; try reflexivity.
    - simpl. now rewrite Hcsv.
    - unfold writable in *. simpl. now rewrite Hup. }
  assert (Hmain : forall w0, config_properties w0 = Some c ->
            csv w0 = csv w -> mongo_up w0 = mongo_up w ->
            succeeds E w0 = false
            /\ main E w0
               = set_mongo (set_config w0 (config_properties w0))
                   (store_after o (mongo w0))).
  { intros w0 Hc0 Hcsv Hup. unfold succeeds, main.
    now rewrite (Hrun w0 Hc0 Hcsv Hup). }
  destruct (Hmain w Hc eq_refl eq_refl) as [Hs Hm].
  split; [assumption|]. split.
  { intros dst. rewrite Hm. simpl. apply store_after_added. }
  split; [now rewrite Hm|]. intros dst.
  assert (Hc1 : config_properties (main E w) = Some c) by now rewrite Hm.
  assert (Hcsv1 : csv (main E w) = csv w) by now rewrite Hm.
  assert (Hup1 : mongo_up (main E w) = mongo_up w) by now rewrite Hm.
  rewrite (proj2 (Hmain (main E w) Hc1 Hcsv1 Hup1)). simpl.
  rewrite Hm. simpl. now rewrite !store_after_added.
Qed.

(** X22.  After a run that went to its end on a cursor read as the date
    [d], of a year from 1000 on, the configuration names the same
    directory, the cursor is the text of the day after [d], the next run
    will read it as that day, and the file it will ask for is the one of
    that day. *)
Theorem next_run_reads_the_next_day (w : World) :
  succeeds E w = true ->
  exists c d c',
    config_properties w = Some c
    /\ Calendar.strptime (file_date c) = inr d
    /\ (1000 <= fst (fst d) ->
        config_properties (main E w) = Some c'
        /\ config (main E w) = Some c'
        /\ file_path c' = file_path c
        /\ Calendar.strptime (file_date c') = inr (Calendar.next_day d)
        /\ today_path c'
           = String.append (file_path c)
               (String.append "health_data_"
                  (String.append (Calendar.strftime (Calendar.next_day d))
                     ".csv"))).
Proof.
  intros H. destruct (main_ended E w H)
    as [c [o [d [d' [Hc [Ho [Hw [Hp Ha]]]]]]]].
  pose proof (strptime_valid _ _ Hp) as Hv.
  assert (Hne : d <> (9999, 12, 31)).
  { intros ->. discriminate. }
  pose proof (CalendarFacts.add_days_next_day d d' Hv Ha) as ->.
  exists c, d, {| file_path := file_path c;
                  file_date := Calendar.strftime (Calendar.next_day d) |}.
  rewrite (main_runs E w c o d _ Hc Ho Hw Hp Ha). simpl.
  split; [assumption|]. split; [assumption|]. intros Hy.
  repeat split.
  apply CursorText.strptime_strftime.
  - now apply CalendarEnd.next_day_valid.
  - pose proof (CalendarEnd.next_day_year d Hv). lia.
Qed.

End RunMore.

(* ------------------------------------------------------------------------- *)
(** ** The report of a run and the file of a day *)
(* ------------------------------------------------------------------------- *)

Lemma large_groups_bound {K} (t : list (K * Z)) :
  (forall kc, In kc t -> 0 <= snd kc) ->
  3 * Z.of_nat (List.length (filter (fun kc => 2 <? snd kc) t))
  <= total_count t.
Proof.
  unfold total_count.
  induction t as [|kc t IH]; intros Hpos; [simpl; lia|].
  assert (Hkc : 0 <= snd kc) by (apply Hpos; now left).
  assert (IH' := IH (fun x Hx => Hpos x (or_intror Hx))).
  cbn [filter map fold_right].
  destruct (2 <? snd kc) eqn:H2; cbn [List.length].
  - apply Z.ltb_lt in H2. lia.
  - lia.
Qed.

Lemma append_cancel_left (s a b : string) :
  String.append s a = String.append s b -> a = b.
Proof.
  induction s as [|x s IH]; simpl; intros H; [assumption|].
  inversion H. now apply IH.
Qed.

Lemma append_length (a b : string) :
  String.length (String.append a b)
  = (String.length a + String.length b)%nat.
Proof. induction a as [|x a IH]; simpl; [reflexivity | now rewrite IH]. Qed.

Lemma append_cancel_right (s a b : string) :
  String.append a s = String.append b s -> a = b.
Proof.
  revert b. induction a as [|x a IH]; intros [|y b] H.
  - reflexivity.
  - exfalso. apply (f_equal String.length) in H.
    simpl in H. rewrite append_length in H. lia.
  - exfalso. apply (f_equal String.length) in H.
    simpl in H. rewrite append_length in H. lia.
  - simpl in H. inversion H. f_equal. now apply IH.
Qed.

Section ReportMore.

Variable E : Engine.

(** X23.  [duplicate_records] counts groups of at least three equal rows:
    three times its value is at most the number of rows of the file, and
    it is 0 when no row is there more than twice. *)
Theorem duplicate_records_at_most_a_third (df : DataFrame) (out : Frame)
    (rep : Report) :
  data_quality_check E df = inr (out, rep) ->
  0 <= duplicate_records rep
  /\ 3 * duplicate_records rep <= Z.of_nat (List.length (rows df))
  /\ forall df1,
       cast_select E df = inr df1 ->
       (forall t, (count_occ Row_eq_dec (frows df1) t <= 2)%nat) ->
       duplicate_records rep = 0.
Proof.
  intros H. apply data_quality_check_returns in H.
  destruct H as [df1 [q [first [pid [_ [Hs [_ [_ [_ [_ ->]]]]]]]]]].
  simpl.
  destruct (group_count_spec Row_eqb Row_eqb_eq (frows df1)) as [_ Hin].
  split; [lia|]. split.
  - etransitivity.
    + apply large_groups_bound. intros [k c] Hkc. apply Hin in Hkc.
      destruct Hkc as [_ ->]. simpl. apply count_key_nonneg.
    + rewrite group_count_total.
      apply cast_select_returns in Hs.
      destruct Hs as [? [? [? [? [? [? [_ [_ ->]]]]]]]]. simpl.
      rewrite length_map. lia.
  - intros df1' Hs' Hocc. rewrite Hs in Hs'. inversion Hs'; subst df1'.
    rewrite filter_none; [reflexivity|].
    apply Forall_forall. intros [k c] Hkc. apply Hin in Hkc.
    destruct Hkc as [_ ->]. simpl. rewrite count_key_count_occ.
    apply Z.ltb_ge. specialize (Hocc k). lia.
Qed.

(** X24.  A run that goes to its end adds one document to
    [cleaning_report], and that document has no missing column, the six
    mandatory columns with their numbers of nulls, none of them negative
    or above the number of rows of the file. *)
Theorem one_report_per_run (w : World) :
  succeeds E w = true ->
  exists c df rep,
    config_properties w = Some c
    /\ csv w (today_path c) = Some df
    /\ mongo (main E w) (database_name, "cleaning_report")
       = mongo w (database_name, "cleaning_report") ++ [DocReport rep]
    /\ missing_columns rep = []
    /\ map fst (columns_with_null_count rep) = mandatory_fields
    /\ forall n k, In (n, k) (columns_with_null_count rep) ->
                   0 <= k <= Z.of_nat (List.length (rows df)).
Proof.
  intros H. destruct (main_ended E w H)
    as [c [o [d [d' [Hc [Ho [Hw [Hp Ha]]]]]]]].
  rewrite (main_runs E w c o d d' Hc Ho Hw Hp Ha). simpl mongo.
  rewrite store_after_added.
  unfold run_outputs in Ho.
  destruct (csv w (today_path c)) as [df|] eqn:Hdf; [|discriminate].
  destruct (data_quality_check E df) as [e|[out rep]] eqn:Hq;
    [discriminate|].
  destruct (gender_ratio_table (frows out)) as [e|ratio]; [discriminate|].
  destruct (csv w (all_path c)) as [dfall|]; [|discriminate].
  destruct (trend_table E dfall) as [e|trend]; [discriminate|].
  inversion Ho; subst o; clear Ho.
  exists c, df, rep. split; [exact Hc|]. split; [exact Hdf|].
  split; [reflexivity|].
  apply data_quality_check_returns in Hq.
  destruct Hq as [df1 [q [first [pid [_ [Hs [Hm [_ [_ [_ ->]]]]]]]]]].
  simpl. split; [reflexivity|].
  assert (Hlen : List.length (frows df1) = List.length (rows df)).
  { apply cast_select_returns in Hs.
    destruct Hs as [? [? [? [? [? [? [_ [_ ->]]]]]]]]. simpl.
    apply length_map. }
  assert (Hcount : forall A (f : Row -> option A),
            0 <= count_nulls f (frows df1)
               <= Z.of_nat (List.length (rows df))).
  { intros A f. unfold count_nulls. rewrite <- Hlen.
    pose proof (filter_length_le (fun r => negb (is_some (f r)))
                  (frows df1)). lia. }
  unfold null_counts.
  destruct (frows df1) as [|r rs] eqn:Hrows; [discriminate Hm|].
  split; [reflexivity|].
  intros n k Hin. simpl in Hin.
  repeat (destruct Hin as [Hin|Hin];
          [inversion Hin; subst; apply Hcount|]).
  destruct Hin.
Qed.

End ReportMore.

(** X25.  The file of a day is named by the directory and the cursor:
    for one directory, two cursors name the same file only when they are
    the same text. *)
Theorem one_file_per_cursor (c c' : Config) :
  file_path c = file_path c' ->
  today_path c = today_path c' ->
  file_date c = file_date c'.
Proof.
  unfold today_path. intros Hp H. rewrite Hp in H.
  apply append_cancel_left in H. apply append_cancel_left in H.
  now apply append_cancel_right in H.
Qed.

(* ------------------------------------------------------------------------- *)
(** ** More examples *)
(* ------------------------------------------------------------------------- *)

Module MoreExamples.
Import Sample MoreSample.

Lemma six_columns_there (df : DataFrame) :
  schema df = day_schema ->
  forall c, In c mandatory_fields -> In c (columns df).
Proof.
  intros Hs c Hc. unfold columns. rewrite Hs.
  vm_compute in Hc. vm_compute.
  repeat (destruct Hc as [<-|Hc]; [tauto|]). destruct Hc.
Defined.

(** X1 on a file without rows, on a file without dates and on the file of
    the day. *)
Lemma X1_witness :
  data_quality_check engine empty_frame = inl FillNullValue
  /\ data_quality_check engine undated_rows_frame = inl TypeError_NoneType
  /\ exists out rep, data_quality_check engine day_frame = inr (out, rep).
Proof.
  split; [|split].
  - refine (proj1 (data_quality_check_needs_an_age_and_a_date engine
                     empty_frame _ (six_columns_there empty_frame eq_refl)
                     eq_refl)
              _).
    intros r [].
  - refine (proj1 (proj2 (data_quality_check_needs_an_age_and_a_date engine
                            undated_rows_frame _
                            (six_columns_there undated_rows_frame eq_refl)
                            eq_refl))
              _ _).
    + eexists. split; [left; reflexivity | discriminate].
    + intros r Hr. vm_compute in Hr.
      destruct Hr as [<-|[<-|[]]]; reflexivity.
  - refine (proj2 (proj2 (data_quality_check_needs_an_age_and_a_date engine
                            day_frame _
                            (six_columns_there day_frame eq_refl)
                            eq_refl))
              _ _).
    + eexists. split; [left; reflexivity | discriminate].
    + eexists. split; [left; reflexivity | discriminate].
Defined.

Lemma X2_witness :
  data_quality_check engine short_frame = inl (ValueError_mandatory "gender")
  /\ exists before after,
       mandatory_fields = before ++ "gender" :: after
       /\ ~ In "gender" (columns short_frame)
       /\ forall b, In b before -> In b (columns short_frame).
Proof.
  split; [reflexivity|].
  exact (missing_column_error_names_the_first engine short_frame "gender"
           eq_refl).
Defined.

Lemma X3_witness :
  exists out rep df1,
    data_quality_check engine half_frame = inr (out, rep)
    /\ cast_select engine half_frame = inr df1
    /\ map age (frows df1) = [Some 30; Some 41; None]
    /\ map age (frows out) = [Some 30; Some 41; Some 35].
Proof.
  destruct (cleaning_only_fills_nulls engine half_frame _ _ eq_refl)
    as [df1 [Hs _]].
  eexists. eexists. exists df1. split; [reflexivity|].
  split; [exact Hs|].
  vm_compute in Hs. inversion Hs. split; reflexivity.
Defined.

Lemma X4_witness :
  exists out rep n,
    data_quality_check engine anonymous_frame = inr (out, rep)
    /\ In ("patient_id", n) (columns_with_null_count rep)
    /\ Z.of_nat (List.length (rows anonymous_frame))
       = Z.of_nat (List.length (frows out)) + n.
Proof.
  destruct (rows_in_are_rows_out_plus_null_patient_ids engine
              anonymous_frame _ _ eq_refl) as [n [Hin Hn]].
  eexists. eexists. exists n. split; [reflexivity|]. split; assumption.
Defined.

Lemma X13_witness :
  config world_dateless = Some day_config
  /\ exists name,
       disease_trend_over_the_week engine world_dateless
       = (inl (AnalysisException name), world_dateless).
Proof.
  split; [reflexivity|].
  refine (trend_needs_its_two_columns engine world_dateless day_config
            dateless_frame "diagnosis_date" eq_refl eq_refl
            (or_introl eq_refl) _).
  intros col Hc. vm_compute in Hc.
  repeat (destruct Hc as [<-|Hc]; [discriminate|]). destruct Hc.
Defined.

Lemma X14_witness :
  exists docs,
    trend_table engine day_frame = inr docs
    /\ fold_right Z.add 0 (map document_count docs) = 4.
Proof.
  eexists. split; [reflexivity|].
  exact (trend_counts_every_row_read engine day_frame _ eq_refl).
Defined.

Lemma X15_witness :
  exists docs,
    trend_table engine day_frame = inr docs
    /\ In (DocTrend (Some (VStr "Diabetes")) (Some 3) 2) docs
    /\ 1 <= 2 /\ forall j, Some 3 = Some j -> 1 <= j <= 7.
Proof.
  eexists. split; [reflexivity|]. split; [left; reflexivity|].
  exact (trend_days_are_one_to_seven engine day_frame _
           (Some (VStr "Diabetes")) (Some 3) 2 eq_refl
           (or_introl eq_refl)).
Defined.

Lemma X16_witness :
  exists name,
    disease_gender_ratio men_frame world_one_file
    = (inl (AnalysisException name), world_one_file).
Proof.
  refine (disease_gender_ratio_needs_both_genders men_frame "F"
            world_one_file (or_intror eq_refl) _).
  intros r s Hr Hs. vm_compute in Hr.
  destruct Hr as [<-|[<-|[]]]; inversion Hs; subst s; discriminate.
Defined.

Lemma X17_witness : exists docs, gender_ratio_table ratio_rows = inr docs.
Proof.
  refine (disease_gender_ratio_returns_with_both_genders ratio_rows _ _ _).
  - intros r Hr. vm_compute in Hr.
    destruct Hr as [<-|[<-|[<-|[]]]]; simpl; tauto.
  - eexists. split; [right; left; reflexivity | reflexivity].
  - eexists. split; [left; reflexivity | reflexivity].
Defined.

Lemma X18_witness :
  Calendar.add_days (2023, 12, 31) 1 = inr (2024, 1, 1)
  /\ Calendar.add_days (2024, 2, 28) 1 = inr (2024, 2, 29)
  /\ Calendar.add_days (9999, 12, 31) 1 = inl OverflowError.
Proof.
  split; [|split].
  - refine (proj1 (proj1 (one_day_more_up_to_the_last_day (2023, 12, 31)
                            eq_refl) _)).
    discriminate.
  - refine (proj1 (proj1 (one_day_more_up_to_the_last_day (2024, 2, 28)
                            eq_refl) _)).
    discriminate.
  - exact (proj2 (one_day_more_up_to_the_last_day (9999, 12, 31) eq_refl)
             eq_refl).
Defined.

Lemma X19_witness :
  succeeds engine world_short_file = false
  /\ mongo (main engine world_short_file) (database_name, collection_name)
     = [DocRaw (columns genderless_frame)
          [Some (VStr "P1"); Some (VInt 34); Some (VStr "D123");
           Some (VStr "Diabetes"); Some (VDate 19570)]]
  /\ config_properties (main engine world_short_file) = Some day_config.
Proof.
  destruct (rejected_file_is_still_stored_raw engine world_short_file
              day_config genderless_frame (ValueError_mandatory "gender")
              eq_refl eq_refl eq_refl eq_refl) as [Hs [Hraw [_ Hc]]].
  split; [exact Hs|]. split; [exact Hraw | exact Hc].
Defined.

Lemma X20_witness :
  succeeds engine world_no_file = false
  /\ (forall dst, mongo (main engine world_no_file) dst = [])
  /\ config_properties (main engine world_no_file) = Some day_config.
Proof.
  refine (nothing_is_written_without_input engine world_no_file _).
  right. left. exists day_config. split; reflexivity.
Defined.

Lemma X21_witness :
  exists o,
    run_outputs engine dashed_config (csv world_dashed_cursor) = Some o
    /\ succeeds engine world_dashed_cursor = false
    /\ (forall dst, mongo (main engine world_dashed_cursor) dst
                    = [] ++ added o dst)
    /\ config_properties (main engine world_dashed_cursor)
       = Some dashed_config.
Proof.
  eexists. split; [reflexivity|].
  destruct (bad_cursor_is_found_after_the_writes engine world_dashed_cursor
              dashed_config _ ValueError_strptime eq_refl eq_refl eq_refl
              (or_introl eq_refl)) as [Hs [Hm [Hc _]]].
  split; [exact Hs|]. split; [exact Hm | exact Hc].
Defined.

Lemma X22_witness :
  succeeds engine world_one_file = true
  /\ exists c d c',
       config_properties world_one_file = Some c
       /\ Calendar.strptime (file_date c) = inr d
       /\ (1000 <= fst (fst d) ->
           config_properties (main engine world_one_file) = Some c'
           /\ config (main engine world_one_file) = Some c'
           /\ file_path c' = file_path c
           /\ Calendar.strptime (file_date c')
              = inr (Calendar.next_day d)
           /\ today_path c'
              = String.append (file_path c)
                  (String.append "health_data_"
                     (String.append
                        (Calendar.strftime (Calendar.next_day d))
                        ".csv"))).
Proof.
  split; [reflexivity|].
  exact (next_run_reads_the_next_day engine world_one_file eq_refl).
Defined.

Lemma X23_witness :
  exists out rep,
    data_quality_check engine triple_frame = inr (out, rep)
    /\ duplicate_records rep = 1
    /\ 3 * duplicate_records rep
       <= Z.of_nat (List.length (rows triple_frame)).
Proof.
  eexists. eexists. split; [reflexivity|]. split; [reflexivity|].
  exact (proj1 (proj2 (duplicate_records_at_most_a_third engine
                         triple_frame _ _ eq_refl))).
Defined.

Lemma X24_witness :
  succeeds engine world_one_file = true
  /\ exists c df rep,
       config_properties world_one_file = Some c
       /\ csv world_one_file (today_path c) = Some df
       /\ mongo (main engine world_one_file)
            (database_name, "cleaning_report")
          = mongo world_one_file (database_name, "cleaning_report")
            ++ [DocReport rep]
       /\ missing_columns rep = []
       /\ map fst (columns_with_null_count rep) = mandatory_fields
       /\ forall n k, In (n, k) (columns_with_null_count rep) ->
                      0 <= k <= Z.of_nat (List.length (rows df)).
Proof.
  split; [reflexivity|].
  exact (one_report_per_run engine world_one_file eq_refl).
Defined.

Lemma X25_witness :
  today_path day_config = "data/health_data_20230801.csv"
  /\ file_date day_config = "20230801".
Proof.
  split; [reflexivity|].
  exact (one_file_per_cursor day_config
           {| file_path := "data/"; file_date := "20230801" |}
           eq_refl eq_refl).
Defined.

End MoreExamples.

